(** * Sales analytics system: validation, filtering, aggregation, enrichment

    A shallow embedding of [utils/file_handler.py], [utils/data_processor.py]
    and [utils/api_handler.py], of the cleaning loop of [data_cleaning.py]
    and of the prompts of [main.py].

    - Python [str] values are modelled as [string], a character being a
      code point below 256; the character classes below are Python's on
      that range.
    - Python [int] is [Z]; Python [float] is the kernel's binary64 [float],
      so NaN, infinities and signed zeros behave as in the interpreter.
    - A transaction dictionary is a record of optional fields ([None] is an
      absent key) carrying the value types [parse_transactions] produces.
    - Dictionaries are objects: a list of transactions is a list of
      references into a store, and [validate_and_filter] writes to it.
    - A raised exception that leaves the function is the result [None].
    - [print] calls are output only and are left out.
    - The file system and the terminal are outside the program: what
      opening a file gives under an encoding, and the lines the user
      types, are arguments. *)

From Stdlib Require Import ZArith List String Ascii Bool Lia Floats Sorted.
From stdpp Require Import base option list gmap strings.

#[local] Open Scope string_scope.
#[local] Open Scope Z_scope.
#[local] Open Scope list_scope.

(* ===================================================================== *)
(** * Python strings *)
(* ===================================================================== *)

(** [str.isspace] on one character: TAB..CR, FS..US, the space, NEL and
    the no-break space. *)
Definition is_space (c : ascii) : bool :=
  let n := nat_of_ascii c in
  ((9 <=? n)%nat && (n <=? 13)%nat) || ((28 <=? n)%nat && (n <=? 32)%nat) ||
  (n =? 133)%nat || (n =? 160)%nat.

Definition is_digit (c : ascii) : bool :=
  let n := nat_of_ascii c in (48 <=? n)%nat && (n <=? 57)%nat.

Definition digit_val (c : ascii) : Z := Z.of_nat (nat_of_ascii c) - 48.

Fixpoint lstrip (s : string) : string :=
  match s with
  | String c s' => if is_space c then lstrip s' else s
  | EmptyString => EmptyString
  end.

Fixpoint rstrip (s : string) : string :=
  match s with
  | EmptyString => EmptyString
  | String c s' =>
      match rstrip s' with
      | EmptyString => if is_space c then EmptyString else String c EmptyString
      | r => String c r
      end
  end.

(** [s.strip()] *)
Definition strip (s : string) : string := rstrip (lstrip s).

(** [s.split(sep)] for a one-character separator: never an empty list. *)
Fixpoint split (sep : ascii) (s : string) : list string :=
  match s with
  | EmptyString => [EmptyString]
  | String c s' =>
      if Ascii.eqb c sep then EmptyString :: split sep s'
      else match split sep s' with
           | f :: fs => String c f :: fs
           | [] => [String c EmptyString]
           end
  end.

(** [s.replace(old, new)] for one-character [old] and [new]. *)
Fixpoint replace_char (old new : ascii) (s : string) : string :=
  match s with
  | EmptyString => EmptyString
  | String c s' =>
      String (if Ascii.eqb c old then new else c) (replace_char old new s')
  end.

(** [s.replace(old, '')] for a one-character [old]. *)
Fixpoint remove_char (old : ascii) (s : string) : string :=
  match s with
  | EmptyString => EmptyString
  | String c s' =>
      if Ascii.eqb c old then remove_char old s'
      else String c (remove_char old s')
  end.

(** [s.startswith(c)] for a one-character prefix. *)
Definition startswith (c : ascii) (s : string) : bool :=
  match s with
  | String c' _ => Ascii.eqb c' c
  | EmptyString => false
  end.

(** Value of a string of decimal digits, most significant first. *)
Fixpoint decimal_from (acc : Z) (s : string) : Z :=
  match s with
  | EmptyString => acc
  | String c s' => decimal_from (10 * acc + digit_val c) s'
  end.

Definition decimal_value (s : string) : Z := decimal_from 0 s.

Fixpoint all_digits (s : string) : bool :=
  match s with
  | EmptyString => true
  | String c s' => is_digit c && all_digits s'
  end.

(** The longest prefix of digits, and what follows it. *)
Fixpoint span_digits (s : string) : string * string :=
  match s with
  | String c s' =>
      if is_digit c then
        let '(d, r) := span_digits s' in (String c d, r)
      else (EmptyString, s)
  | EmptyString => (EmptyString, EmptyString)
  end.

(** [re.search(r'\d+', s)]: the leftmost match, taken greedily; the result
    is the matched text ([m.group()]), [None] when nothing matches. *)
Fixpoint re_search_digits (s : string) : option string :=
  match s with
  | EmptyString => None
  | String c s' =>
      if is_digit c then Some (fst (span_digits s)) else re_search_digits s'
  end.

(** Numeric literals may group digits with single underscores; the
    interpreter accepts an underscore only directly between two digits and
    then reads the text without them. [prev] is the previous character. *)
Fixpoint drop_underscores (prev : option ascii) (s : string) : option string :=
  match s with
  | EmptyString =>
      match prev with
      | Some "_"%char => None
      | _ => Some EmptyString
      end
  | String c s' =>
      if Ascii.eqb c "_" then
        match prev with
        | Some p => if is_digit p then drop_underscores (Some c) s' else None
        | None => None
        end
      else
        match prev with
        | Some "_"%char =>
            if is_digit c then String c <$> drop_underscores (Some c) s'
            else None
        | _ => String c <$> drop_underscores (Some c) s'
        end
  end.

(** An optional sign: [true] for a minus. *)
Definition take_sign (s : string) : bool * string :=
  match s with
  | String "-" s' => (true, s')
  | String "+" s' => (false, s')
  | _ => (false, s)
  end.

(** [sys.int_info.default_max_str_digits]: [int] refuses a numeral of
    more digits, whatever their value; the program leaves the limit as
    the interpreter sets it. *)
Definition max_str_digits : Z := 4300.

(** [int(s)] on a string, base 10; [None] is [ValueError]. The digits are
    counted without the sign and the underscores. *)
Definition py_int (s : string) : option Z :=
  s1 ← drop_underscores None (strip s);
  let '(neg, ds) := take_sign s1 in
  if all_digits ds && negb (String.eqb ds EmptyString)
  then if Z.of_nat (String.length ds) <=? max_str_digits
       then Some (if neg then - decimal_value ds else decimal_value ds)
       else None
  else None.

(* ===================================================================== *)
(** * Python floats *)
(* ===================================================================== *)

(** The binary64 number nearest to [num / den] (ties to even), with the
    sign [neg]; [0 <= num], [0 < den]. The quotient is taken with at least
    56 significant bits and a sticky bit below them, which rounds as the
    exact ratio does. *)
Definition round_ratio (neg : bool) (num den : Z) : spec_float :=
  if num =? 0 then S754_zero neg
  else
    let k := Z.max 0 (Z.log2 den + 57 - Z.log2 num) in
    let n := num * 2 ^ k in
    let q := n / den in
    let sticky := if n mod den =? 0 then 0 else 1 in
    let m := 2 * q + sticky in
    binary_normalize prec emax (if neg then - m else m) (- k - 1) neg.

(** [float(n)] for an integer [n], as [int * float] converts its left
    operand; [None] is [OverflowError] (int too large to convert). *)
Definition float_of_int (n : Z) : option float :=
  match binary_normalize prec emax n 0 false with
  | S754_infinity _ => None
  | sf => Some (SF2Prim sf)
  end.

(** [n * x] for an int [n] and a float [x]. *)
Definition int_mul_float (n : Z) (x : float) : option float :=
  nf ← float_of_int n; Some (nf * x)%float.

(** The value [m * 10 ^ e] of a decimal literal, correctly rounded. *)
Definition decimal_to_float (neg : bool) (m e : Z) : float :=
  SF2Prim (if 0 <=? e then round_ratio neg (m * 10 ^ e) 1
           else round_ratio neg m (10 ^ (- e))).

(** [round(x, 2)]: the exact value of [x] is rounded to two decimals, ties
    to the even digit, and that decimal is converted back; NaN, infinities
    and zeros round to themselves. *)
Definition round2 (x : float) : float :=
  match Prim2SF x with
  | S754_finite s m e =>
      let '(num, den) :=
        if 0 <=? e then (Zpos m * 2 ^ e * 100, 1)
        else (Zpos m * 100, 2 ^ (- e)) in
      let q := num / den in
      let r := num mod den in
      let n := match 2 * r ?= den with
               | Lt => q
               | Gt => q + 1
               | Eq => if Z.even q then q else q + 1
               end in
      decimal_to_float s n (-2)
  | _ => x
  end.

Definition lower (c : ascii) : ascii :=
  let n := nat_of_ascii c in
  if (65 <=? n)%nat && (n <=? 90)%nat then ascii_of_nat (n + 32) else c.

Fixpoint lowercase (s : string) : string :=
  match s with
  | EmptyString => EmptyString
  | String c s' => String (lower c) (lowercase s')
  end.

(** A decimal number [digits [. digits] [e [sign] digits]] with at least
    one digit before the exponent, as mantissa and power of ten. *)
Definition parse_decimal (s : string) : option (Z * Z) :=
  let '(ip, r1) := span_digits s in
  let '(fp, r2) :=
    match r1 with
    | String "." r => span_digits r
    | _ => (EmptyString, r1)
    end in
  let digits := ip +:+ fp in
  let scale := Z.of_nat (String.length fp) in
  if String.eqb digits EmptyString then None
  else
    match r2 with
    | EmptyString => Some (decimal_value digits, - scale)
    | String c r3 =>
        if Ascii.eqb (lower c) "e" then
          let '(eneg, r4) := take_sign r3 in
          if all_digits r4 && negb (String.eqb r4 EmptyString)
          then Some (decimal_value digits,
                     (if eneg then - decimal_value r4 else decimal_value r4)
                     - scale)
          else None
        else None
    end.

(** [float(s)] on a string; [None] is [ValueError]. *)
Definition py_float (s : string) : option float :=
  s1 ← drop_underscores None (strip s);
  let '(neg, body) := take_sign s1 in
  let word := lowercase body in
  if String.eqb word "inf" || String.eqb word "infinity"
  then Some (if neg then neg_infinity else infinity)
  else if String.eqb word "nan" then Some nan
  else '(m, e) ← parse_decimal body; Some (decimal_to_float neg m e).

(* ===================================================================== *)
(** * Data model *)
(* ===================================================================== *)

(** A transaction dictionary. A field that is [None] is a key the
    dictionary does not have. ['Amount'] is absent until
    [validate_and_filter] stores it. *)
Record transaction := mkTransaction {
  TransactionID : option string;
  Date : option string;
  ProductID : option string;
  ProductName : option string;
  Quantity : option Z;
  UnitPrice : option float;
  CustomerID : option string;
  Region : option string;
  Amount : option float
}.

(** [trans['Amount'] = a] *)
Definition set_Amount (a : float) (t : transaction) : transaction :=
  {| TransactionID := TransactionID t; Date := Date t;
     ProductID := ProductID t; ProductName := ProductName t;
     Quantity := Quantity t; UnitPrice := UnitPrice t;
     CustomerID := CustomerID t; Region := Region t;
     Amount := Some a |}.

(** Dictionaries live in a store and lists hold references to them. *)
Definition loc := nat.
Definition heap := loc -> transaction.

Definition store (h : heap) (l : loc) (t : transaction) : heap :=
  fun l' => if Nat.eqb l' l then t else h l'.

Definition empty_transaction : transaction :=
  mkTransaction None None None None None None None None None.

(** A list of freshly built dictionaries, as a store and the references. *)
Definition alloc (ts : list transaction) : heap * list loc :=
  (fun l => nth l ts empty_transaction, seq 0 (length ts)).

(* ===================================================================== *)
(** * utils/file_handler.py *)
(* ===================================================================== *)

(** ** [parse_transactions] *)

(** Why a line is skipped (the three messages of the loop). *)
Inductive skip_reason :=
  | IncorrectFieldCount (n : nat)
  | InvalidQuantity (quantity_str : string)
  | InvalidUnitPrice (unit_price_str : string).

(** The body of the loop for one line. With fields that are strings
    nothing but [int] and [float] can raise, so the outer [except] clause
    has nothing to catch. *)
Definition parse_line (line : string) : transaction + skip_reason :=
  let fields := split "|" line in
  match fields with
  | [f0; f1; f2; f3; f4; f5; f6; f7] =>
      let transaction_id := strip f0 in
      let date := strip f1 in
      let product_id := strip f2 in
      let product_name := strip f3 in
      let quantity_str := strip f4 in
      let unit_price_str := strip f5 in
      let customer_id := strip f6 in
      let region := strip f7 in
      let product_name_clean := replace_char "," " " product_name in
      match py_int (remove_char "," quantity_str) with
      | None => inr (InvalidQuantity quantity_str)
      | Some quantity =>
          match py_float (remove_char "," unit_price_str) with
          | None => inr (InvalidUnitPrice unit_price_str)
          | Some unit_price =>
              inl {| TransactionID := Some transaction_id;
                     Date := Some date;
                     ProductID := Some product_id;
                     ProductName := Some product_name_clean;
                     Quantity := Some quantity;
                     UnitPrice := Some unit_price;
                     CustomerID := Some customer_id;
                     Region := Some region;
                     Amount := None |}
          end
      end
  | _ => inr (IncorrectFieldCount (length fields))
  end.

(** The loop over the lines; the state is [(transactions, skipped_count)]. *)
Definition parse_loop (raw_lines : list string)
    (st : list transaction * Z) : list transaction * Z :=
  fold_left
    (fun '(transactions, skipped_count) line =>
       match parse_line line with
       | inl transaction => (transactions ++ [transaction], skipped_count)
       | inr _ => (transactions, skipped_count + 1)
       end)
    raw_lines st.

Definition parse_transactions (raw_lines : list string) : list transaction :=
  fst (parse_loop raw_lines ([], 0)).

(** ** [validate_and_filter] *)

(** [field in trans and str(trans[field]).strip()] for a string field. *)
Definition present_str (f : option string) : bool :=
  match f with
  | Some s => negb (String.eqb (strip s) EmptyString)
  | None => false
  end.

(** The same test for a numeric field: the text of a number is never
    blank, so only the presence of the key counts. *)
Definition present_num {A} (f : option A) : bool :=
  match f with
  | Some _ => true
  | None => false
  end.

(** Rule 1: all required fields present and not blank. *)
Definition rule1 (t : transaction) : bool :=
  present_str (TransactionID t) && present_str (Date t) &&
  present_str (ProductID t) && present_str (ProductName t) &&
  present_num (Quantity t) && present_num (UnitPrice t) &&
  present_str (CustomerID t) && present_str (Region t).

(** Rule 2 fails when [trans.get('Quantity', 0) <= 0]. *)
Definition rule2 (t : transaction) : bool :=
  negb (default 0 (Quantity t) <=? 0).

(** Rule 3 fails when [trans.get('UnitPrice', 0) <= 0]. *)
Definition rule3 (t : transaction) : bool :=
  negb (default 0%float (UnitPrice t) <=? 0)%float.

(** Rules 4 to 6: [str(trans.get(field, '')).startswith(c)]. *)
Definition rule4 (t : transaction) : bool :=
  startswith "T" (default EmptyString (TransactionID t)).
Definition rule5 (t : transaction) : bool :=
  startswith "P" (default EmptyString (ProductID t)).
Definition rule6 (t : transaction) : bool :=
  startswith "C" (default EmptyString (CustomerID t)).

(** [is_valid] at the end of the loop body: every rule is evaluated, and
    any failing one clears the flag. *)
Definition is_valid (t : transaction) : bool :=
  rule1 t && rule2 t && rule3 t && rule4 t && rule5 t && rule6 t.

(** Step 1, the validation loop; the state is
    [(valid_transactions, invalid_count)]. The list [reasons] is only
    printed. *)
Definition validation_loop (h : heap) (transactions : list loc)
    (st : list loc * Z) : list loc * Z :=
  fold_left
    (fun '(valid_transactions, invalid_count) trans =>
       if is_valid (h trans) then (valid_transactions ++ [trans], invalid_count)
       else (valid_transactions, invalid_count + 1))
    transactions st.

(** [trans['Quantity'] * trans['UnitPrice']]; [None] is an exception
    ([KeyError], or [OverflowError] from the conversion of the int). *)
Definition compute_amount (t : transaction) : option float :=
  q ← Quantity t; p ← UnitPrice t; int_mul_float q p.

(** [for trans in valid_transactions: trans['Amount'] = ...] *)
Fixpoint set_amounts (h : heap) (valid_transactions : list loc) : option heap :=
  match valid_transactions with
  | [] => Some h
  | trans :: rest =>
      a ← compute_amount (h trans);
      set_amounts (store h trans (set_Amount a (h trans))) rest
  end.

(** [t['Region'] == region] *)
Definition region_is (region : string) (t : transaction) : bool :=
  match Region t with
  | Some r => String.eqb r region
  | None => false
  end.

(** [t['Amount'] >= min_amount] and [t['Amount'] <= max_amount] *)
Definition amount_ge (min_amount : float) (t : transaction) : bool :=
  match Amount t with
  | Some a => (min_amount <=? a)%float
  | None => false
  end.

Definition amount_le (max_amount : float) (t : transaction) : bool :=
  match Amount t with
  | Some a => (a <=? max_amount)%float
  | None => false
  end.

Definition len {A} (l : list A) : Z := Z.of_nat (length l).

(** The region filter: [(filtered_transactions, filtered_by_region)]. *)
Definition filter_region (h : heap) (region : option string)
    (filtered_transactions : list loc) : list loc * Z :=
  match region with
  | Some r =>
      if String.eqb r EmptyString then (filtered_transactions, 0)
      else
        let before_count := len filtered_transactions in
        let kept :=
          List.filter (fun t => region_is r (h t)) filtered_transactions in
        let after_count := len kept in
        (kept, before_count - after_count)
  | None => (filtered_transactions, 0)
  end.

Definition filter_min (h : heap) (min_amount : option float)
    (filtered_transactions : list loc) : list loc :=
  match min_amount with
  | Some m => List.filter (fun t => amount_ge m (h t)) filtered_transactions
  | None => filtered_transactions
  end.

Definition filter_max (h : heap) (max_amount : option float)
    (filtered_transactions : list loc) : list loc :=
  match max_amount with
  | Some m => List.filter (fun t => amount_le m (h t)) filtered_transactions
  | None => filtered_transactions
  end.

(** The amount filter: [(filtered_transactions, filtered_by_amount)]. *)
Definition filter_amount (h : heap) (min_amount max_amount : option float)
    (filtered_transactions : list loc) : list loc * Z :=
  match min_amount, max_amount with
  | None, None => (filtered_transactions, 0)
  | _, _ =>
      let before_count := len filtered_transactions in
      let kept := filter_max h max_amount
                    (filter_min h min_amount filtered_transactions) in
      let after_count := len kept in
      (kept, before_count - after_count)
  end.

Record FilterSummary := mkFilterSummary {
  total_input : Z;
  invalid : Z;
  filtered_by_region : Z;
  filtered_by_amount : Z;
  final_count : Z
}.

(** The call [validate_and_filter(transactions, region, min_amount,
    max_amount)] in the store [h]: the store after the call and the
    returned triple, or [None] when the call raises. The "data insights"
    between the two steps are only printed. *)
Definition validate_and_filter (h : heap) (transactions : list loc)
    (region : option string) (min_amount max_amount : option float)
    : option (heap * (list loc * Z * FilterSummary)) :=
  let total_input := len transactions in
  let '(valid_transactions, invalid_count) :=
    validation_loop h transactions ([], 0) in
  h' ← set_amounts h valid_transactions;
  let '(by_region, filtered_by_region) :=
    filter_region h' region valid_transactions in
  let '(filtered_transactions, filtered_by_amount) :=
    filter_amount h' min_amount max_amount by_region in
  let filter_summary :=
    {| total_input := total_input;
       invalid := invalid_count;
       filtered_by_region := filtered_by_region;
       filtered_by_amount := filtered_by_amount;
       final_count := len filtered_transactions |} in
  Some (h', (filtered_transactions, invalid_count, filter_summary)).

(** ** [validate_line_format] *)
Definition validate_line_format (line : string) : bool :=
  let fields := split "|" line in
  Nat.eqb (length fields) 8.

(** ** [get_file_statistics] *)
Record file_statistics := mkFileStatistics {
  total_lines : Z;
  valid_format : Z;
  invalid_format : Z
}.

Definition get_file_statistics (lines : list string) : file_statistics :=
  fold_left
    (fun stats line =>
       if validate_line_format line
       then {| total_lines := total_lines stats;
               valid_format := valid_format stats + 1;
               invalid_format := invalid_format stats |}
       else {| total_lines := total_lines stats;
               valid_format := valid_format stats;
               invalid_format := invalid_format stats + 1 |})
    lines
    {| total_lines := len lines; valid_format := 0; invalid_format := 0 |}.

(** ** [read_sales_data] *)

(** The file system is outside the program: what [open] and
    [file.readlines()] do under one encoding is given. *)
Inductive read_attempt :=
  | ReadLines (all_lines : list string)
  | RaisesFileNotFoundError
  | RaisesUnicodeDecodeError
  | RaisesOtherException.

Inductive encoding := utf_8 | latin_1 | cp1252 | iso_8859_1.

Definition encodings : list encoding := [utf_8; latin_1; cp1252; iso_8859_1].

(** The two exceptions the function raises itself. *)
Inductive read_error := FileNotFoundError | ValueError.

(** The loop over [all_lines[1:]], appending to [lines]. *)
Definition keep_lines (all_lines : list string) (lines : list string)
    : list string :=
  fold_left
    (fun lines line =>
       let line := strip line in
       if String.eqb line EmptyString then lines else lines ++ [line])
    (drop 1 all_lines) lines.

(** The loop over the encodings: [(lines, successful_encoding)], unless
    the file is not found. *)
Fixpoint try_encodings (open_file : encoding -> read_attempt)
    (encs : list encoding) (lines : list string)
    : read_error + (list string * option encoding) :=
  match encs with
  | [] => inr (lines, None)
  | enc :: rest =>
      match open_file enc with
      | ReadLines all_lines => inr (keep_lines all_lines lines, Some enc)
      | RaisesFileNotFoundError => inl FileNotFoundError
      | RaisesUnicodeDecodeError => try_encodings open_file rest lines
      | RaisesOtherException => try_encodings open_file rest lines
      end
  end.

Definition read_sales_data (open_file : encoding -> read_attempt)
    : read_error + list string :=
  match try_encodings open_file encodings [] with
  | inl e => inl e
  | inr (lines, successful_encoding) =>
      match successful_encoding with
      | None => inl ValueError
      | Some _ =>
          match lines with
          | [] => inl ValueError
          | _ => inr lines
          end
      end
  end.

(* ===================================================================== *)
(** * Loops, dictionaries in insertion order, sorting, slicing *)
(* ===================================================================== *)

(** A [for] loop whose body may raise: the first exception ends it. *)
Fixpoint for_each {S T} (body : S -> T -> option S) (xs : list T) (s : S)
    : option S :=
  match xs with
  | [] => Some s
  | x :: xs' => s' ← body s x; for_each body xs' s'
  end.

(** A [defaultdict] keyed by strings, as the list of its items in insertion
    order. [d[k] = f(d[k])] updates the entry in place, or inserts
    [f dflt] at the end when the key is new. *)
Fixpoint dict_update {V} (k : string) (f : V -> V) (dflt : V)
    (d : list (string * V)) : list (string * V) :=
  match d with
  | [] => [(k, f dflt)]
  | (k', v) :: d' =>
      if String.eqb k' k then (k', f v) :: d'
      else (k', v) :: dict_update k f dflt d'
  end.

Fixpoint dict_get {V} (k : string) (d : list (string * V)) : option V :=
  match d with
  | [] => None
  | (k', v) :: d' => if String.eqb k' k then Some v else dict_get k d'
  end.

(** A stable sort: [prec y x] says that [y] sorts strictly before [x].
    [x], which came before everything in [l], goes in front of the first
    element that does not sort strictly before it. On keys that [<] orders
    totally this is the order [sorted] and [list.sort] produce. Float keys
    among which there is a NaN are not so ordered: the list is then a
    permutation of Python's, and nothing is stated about its order. *)
Fixpoint insert_sorted {A} (prec : A -> A -> bool) (x : A) (l : list A)
    : list A :=
  match l with
  | [] => [x]
  | y :: l' => if prec y x then y :: insert_sorted prec x l' else x :: l
  end.

Definition stable_sort {A} (prec : A -> A -> bool) (l : list A) : list A :=
  fold_right (insert_sorted prec) [] l.

(** [l[:n]] for an int [n]: a negative [n] counts from the end. *)
Definition slice_to {A} (n : Z) (l : list A) : list A :=
  if n <? 0 then take (Z.to_nat (len l + n)) l else take (Z.to_nat n) l.

(** [max(items, key=...)] on floats: a later item replaces the current one
    only when its key is strictly greater. *)
Definition max_by {A} (key : A -> float) (first : A) (rest : list A) : A :=
  fold_left (fun best x => if (key best <? key x)%float then x else best)
            rest first.

(* ===================================================================== *)
(** * utils/data_processor.py *)
(* ===================================================================== *)

(** [trans.get('Quantity', 0) * trans.get('UnitPrice', 0.0)] *)
Definition sale (t : transaction) : option float :=
  int_mul_float (default 0 (Quantity t)) (default 0%float (UnitPrice t)).

(** ** [calculate_total_revenue] *)
Definition calculate_total_revenue (transactions : list transaction)
    : option float :=
  match transactions with
  | [] => Some 0%float
  | _ =>
      total ← for_each (fun total trans =>
                          x ← sale trans; Some (total + x)%float)
                       transactions 0%float;
      Some (round2 total)
  end.

(** ** [region_wise_sales] *)
Record region_data_entry := mkRegionData {
  total_sales : float;
  transaction_count : Z
}.

Record region_stats := mkRegionStats {
  rs_total_sales : float;
  rs_transaction_count : Z;
  rs_percentage : float
}.

Definition get_region (t : transaction) : string :=
  default "Unknown" (Region t).

(** The aggregation loop. *)
Definition region_loop (transactions : list transaction)
    : option (list (string * region_data_entry)) :=
  for_each
    (fun region_data trans =>
       sales ← sale trans;
       Some (dict_update (get_region trans)
               (fun data =>
                  {| total_sales := (total_sales data + sales)%float;
                     transaction_count := transaction_count data + 1 |})
               (mkRegionData 0%float 0) region_data))
    transactions [].

Definition region_result (total_revenue : float)
    (item : string * region_data_entry) : string * region_stats :=
  let '(region, data) := item in
  let percentage :=
    if (0 <? total_revenue)%float
    then (total_sales data / total_revenue * 100)%float
    else 0%float in
  (region,
   {| rs_total_sales := round2 (total_sales data);
      rs_transaction_count := transaction_count data;
      rs_percentage := round2 percentage |}).

Definition region_wise_sales (transactions : list transaction)
    : option (list (string * region_stats)) :=
  match transactions with
  | [] => Some []
  | _ =>
      total_revenue ← calculate_total_revenue transactions;
      region_data ← region_loop transactions;
      let result := map (region_result total_revenue) region_data in
      Some (stable_sort
              (fun y x =>
                 (rs_total_sales (snd x) <? rs_total_sales (snd y))%float)
              result)
  end.

(** ** [top_selling_products] *)
Record product_data_entry := mkProductData {
  pd_quantity : Z;
  pd_revenue : float
}.

Definition get_product_name (t : transaction) : string :=
  default "Unknown" (ProductName t).

Definition product_loop (transactions : list transaction)
    : option (list (string * product_data_entry)) :=
  for_each
    (fun product_data trans =>
       let quantity := default 0 (Quantity trans) in
       revenue ← sale trans;
       Some (dict_update (get_product_name trans)
               (fun data =>
                  {| pd_quantity := pd_quantity data + quantity;
                     pd_revenue := (pd_revenue data + revenue)%float |})
               (mkProductData 0 0%float) product_data))
    transactions [].

Definition product_tuple (item : string * product_data_entry)
    : string * Z * float :=
  let '(product, data) := item in
  (product, pd_quantity data, round2 (pd_revenue data)).

Definition top_selling_products (transactions : list transaction) (n : Z)
    : option (list (string * Z * float)) :=
  match transactions with
  | [] => Some []
  | _ =>
      product_data ← product_loop transactions;
      let product_list := map product_tuple product_data in
      let sorted_list :=
        stable_sort (fun y x => snd (fst x) <? snd (fst y)) product_list in
      Some (slice_to n sorted_list)
  end.

(** ** [daily_sales_trend] *)
Record daily_data_entry := mkDailyData {
  dd_revenue : float;
  dd_transaction_count : Z;
  dd_customers : gset string
}.

Record daily_stats := mkDailyStats {
  revenue : float;
  ds_transaction_count : Z;
  unique_customers : Z
}.

Definition get_date (t : transaction) : string := default "Unknown" (Date t).
Definition get_customer (t : transaction) : string :=
  default "Unknown" (CustomerID t).

Definition daily_loop (transactions : list transaction)
    : option (list (string * daily_data_entry)) :=
  for_each
    (fun daily_data trans =>
       rev ← sale trans;
       Some (dict_update (get_date trans)
               (fun data =>
                  {| dd_revenue := (dd_revenue data + rev)%float;
                     dd_transaction_count := dd_transaction_count data + 1;
                     dd_customers :=
                       {[ get_customer trans ]} ∪ dd_customers data |})
               (mkDailyData 0%float 0 ∅) daily_data))
    transactions [].

Definition daily_result (item : string * daily_data_entry)
    : string * daily_stats :=
  let '(date, data) := item in
  (date,
   {| revenue := round2 (dd_revenue data);
      ds_transaction_count := dd_transaction_count data;
      unique_customers := Z.of_nat (size (dd_customers data)) |}).

(** The items are sorted as tuples; the dates, being keys, are distinct,
    so the comparison is the one of the date strings. *)
Definition daily_sales_trend (transactions : list transaction)
    : option (list (string * daily_stats)) :=
  match transactions with
  | [] => Some []
  | _ =>
      daily_data ← daily_loop transactions;
      let result := map daily_result daily_data in
      Some (stable_sort (fun y x => String.ltb (fst y) (fst x)) result)
  end.

(** ** [find_peak_sales_day] *)
Definition find_peak_sales_day (transactions : list transaction)
    : option (option string * float * Z) :=
  match transactions with
  | [] => Some (None, 0%float, 0)
  | _ =>
      daily_trend ← daily_sales_trend transactions;
      match daily_trend with
      | [] => Some (None, 0%float, 0)
      | first :: rest =>
          let peak_date := max_by (fun x => revenue (snd x)) first rest in
          Some (Some (fst peak_date), revenue (snd peak_date),
                ds_transaction_count (snd peak_date))
      end
  end.

(** [x / n] for a float [x] and an int [n]; [None] is an exception
    ([ZeroDivisionError], or [OverflowError] from the conversion). *)
Definition float_div_int (x : float) (n : Z) : option float :=
  if n =? 0 then None
  else nf ← float_of_int n; Some (x / nf)%float.

(** The items of a dictionary comprehension whose body may raise. *)
Fixpoint for_items {K V W} (body : K -> V -> option W) (items : list (K * V))
    : option (list (K * W)) :=
  match items with
  | [] => Some []
  | (k, v) :: rest =>
      w ← body k v; ws ← for_items body rest; Some ((k, w) :: ws)
  end.

(** [sorted(list(s))] for a set of strings. The strings of a set are
    distinct and their order is total, so the result does not depend on
    the order in which the set is iterated. *)
Definition sorted_strings (s : gset string) : list string :=
  stable_sort String.ltb (elements s).

(** ** [customer_analysis] *)
Record customer_data_entry := mkCustomerData {
  cd_total_spent : float;
  cd_purchase_count : Z;
  cd_products : gset string
}.

Record customer_stats := mkCustomerStats {
  total_spent : float;
  purchase_count : Z;
  avg_order_value : float;
  products_bought : list string
}.

Definition customer_loop (transactions : list transaction)
    : option (list (string * customer_data_entry)) :=
  for_each
    (fun customer_data trans =>
       let product_name := get_product_name trans in
       amount_spent ← sale trans;
       Some (dict_update (get_customer trans)
               (fun data =>
                  {| cd_total_spent := (cd_total_spent data + amount_spent)%float;
                     cd_purchase_count := cd_purchase_count data + 1;
                     cd_products := {[ product_name ]} ∪ cd_products data |})
               (mkCustomerData 0%float 0 ∅) customer_data))
    transactions [].

Definition customer_result (customer_id : string) (data : customer_data_entry)
    : option customer_stats :=
  avg_order ←
    (if 0 <? cd_purchase_count data
     then float_div_int (cd_total_spent data) (cd_purchase_count data)
     else Some 0%float);
  Some {| total_spent := round2 (cd_total_spent data);
          purchase_count := cd_purchase_count data;
          avg_order_value := round2 avg_order;
          products_bought := sorted_strings (cd_products data) |}.

Definition customer_analysis (transactions : list transaction)
    : option (list (string * customer_stats)) :=
  match transactions with
  | [] => Some []
  | _ =>
      customer_data ← customer_loop transactions;
      result ← for_items customer_result customer_data;
      Some (stable_sort
              (fun y x => (total_spent (snd x) <? total_spent (snd y))%float)
              result)
  end.

(** ** [low_performing_products] *)
Definition low_performing_products (transactions : list transaction)
    (threshold : Z) : option (list (string * Z * float)) :=
  match transactions with
  | [] => Some []
  | _ =>
      product_data ← product_loop transactions;
      let low_performers :=
        map product_tuple
          (List.filter (fun item => pd_quantity (snd item) <? threshold)
                       product_data) in
      Some (stable_sort (fun y x => snd (fst y) <? snd (fst x)) low_performers)
  end.

(* ===================================================================== *)
(** * utils/api_handler.py *)
(* ===================================================================== *)

(** An entry of the product mapping; a field the catalogue did not give
    is [None]. *)
Record product_info := mkProductInfo {
  title : option string;
  category : option string;
  brand : option string;
  rating : option float
}.

(** An enriched dictionary: a copy of the transaction with the four API
    keys; [None] in the first three is Python's [None]. *)
Record enriched_transaction := mkEnriched {
  base : transaction;
  API_Category : option string;
  API_Brand : option string;
  API_Rating : option float;
  API_Match : bool
}.

Definition no_match (trans : transaction) : enriched_transaction :=
  {| base := trans; API_Category := None; API_Brand := None;
     API_Rating := None; API_Match := false |}.

(** The body of the loop for one transaction. The mapping is keyed by
    ints. A failure of [int] is caught by the [except] clause of the body. *)
Definition enrich_one (product_mapping : gmap Z product_info)
    (trans : transaction) : enriched_transaction :=
  let product_id_str := default EmptyString (ProductID trans) in
  match re_search_digits product_id_str with
  | Some digits =>
      match py_int digits with
      | Some numeric_id =>
          match product_mapping !! numeric_id with
          | Some info =>
              {| base := trans;
                 API_Category := category info;
                 API_Brand := brand info;
                 API_Rating := rating info;
                 API_Match := true |}
          | None => no_match trans
          end
      | None => no_match trans
      end
  | None => no_match trans
  end.

(** The two counters of the loop only feed the printed summary. *)
Definition enrich_sales_data (transactions : list transaction)
    (product_mapping : gmap Z product_info) : list enriched_transaction :=
  match transactions with
  | [] => []
  | _ =>
      fold_left
        (fun enriched_transactions trans =>
           enriched_transactions ++ [enrich_one product_mapping trans])
        transactions []
  end.

(** ** [create_product_mapping] *)

(** A JSON number. *)
Inductive number := NInt (n : Z) | NFloat (x : float).

(** A product dictionary as [fetch_all_products] formats it; a field
    that is [None] holds Python's [None]. *)
Record api_product := mkApiProduct {
  p_id : option Z;
  p_title : option string;
  p_category : option string;
  p_brand : option string;
  p_price : option number;
  p_rating : option float
}.

Definition create_product_mapping (api_products : list api_product)
    : gmap Z product_info :=
  match api_products with
  | [] => ∅
  | _ =>
      fold_left
        (fun product_mapping product =>
           match p_id product with
           | Some product_id =>
               <[product_id :=
                   {| title := p_title product;
                      category := p_category product;
                      brand := p_brand product;
                      rating := p_rating product |}]> product_mapping
           | None => product_mapping
           end)
        api_products ∅
  end.

(* ===================================================================== *)
(** * data_cleaning.py *)
(* ===================================================================== *)

(** The checks of the loop body on the eight stripped fields: the record
    to keep, or [None] when a rule fails. Every rule is evaluated. *)
Definition clean_fields (transaction_id date product_id product_name
    quantity_str unit_price_str customer_id region : string)
    : option transaction :=
  let rule1 := startswith "T" transaction_id in
  let rule2 := negb (String.eqb customer_id EmptyString) in
  let rule3 := negb (String.eqb region EmptyString) in
  let quantity := py_int (remove_char "," quantity_str) in
  let rule4 :=
    match quantity with
    | Some q => negb (q <=? 0)
    | None => false
    end in
  let unit_price := py_float (remove_char "," unit_price_str) in
  let rule5 :=
    match unit_price with
    | Some p => negb (p <=? 0)%float
    | None => false
    end in
  if rule1 && rule2 && rule3 && rule4 && rule5 then
    Some {| TransactionID := Some transaction_id;
            Date := Some date;
            ProductID := Some product_id;
            ProductName := Some (replace_char "," " " product_name);
            Quantity := quantity;
            UnitPrice := unit_price;
            CustomerID := Some customer_id;
            Region := Some region;
            Amount := None |}
  else None.

(** The state of the loop: [(total_parsed, invalid_removed,
    valid_records)]. *)
Definition clean_step (st : Z * Z * list transaction) (line : string)
    : Z * Z * list transaction :=
  let '(total_parsed, invalid_removed, valid_records) := st in
  let line := strip line in
  if String.eqb line EmptyString then st
  else
    let total_parsed := total_parsed + 1 in
    match split "|" line with
    | [f0; f1; f2; f3; f4; f5; f6; f7] =>
        match clean_fields (strip f0) (strip f1) (strip f2) (strip f3)
                (strip f4) (strip f5) (strip f6) (strip f7) with
        | Some record =>
            (total_parsed, invalid_removed, valid_records ++ [record])
        | None => (total_parsed, invalid_removed + 1, valid_records)
        end
    | _ => (total_parsed, invalid_removed + 1, valid_records)
    end.

Definition clean_loop (lines : list string) : Z * Z * list transaction :=
  fold_left clean_step (drop 1 lines) (0, 0, []).

(** [clean_sales_data] on the lines [file.readlines()] gave: the rows of
    the data frame it returns, [None] when there is no valid record.
    Reading the file and writing the CSV are outside. *)
Definition clean_sales_data (lines : list string) : option (list transaction) :=
  match (clean_loop lines).2 with
  | [] => None
  | valid_records => Some valid_records
  end.

(* ===================================================================== *)
(** * main.py *)
(* ===================================================================== *)

(** [c.lower()] for one character. *)
Definition str_lower_char (c : ascii) : ascii :=
  let n := nat_of_ascii c in
  if ((65 <=? n)%nat && (n <=? 90)%nat) ||
     ((192 <=? n)%nat && (n <=? 222)%nat && negb (n =? 215)%nat)
  then ascii_of_nat (n + 32) else c.

(** [s.lower()] *)
Fixpoint str_lower (s : string) : string :=
  match s with
  | EmptyString => EmptyString
  | String c s' => String (str_lower_char c) (str_lower s')
  end.

(** [x in options] for a list of strings. *)
Definition str_in (x : string) (options : list string) : bool :=
  existsb (String.eqb x) options.

(** The terminal is outside the program: [stdin] holds the lines the user
    will type, and a call of [input] takes the first; with none left it
    raises [EOFError], the result [None]. *)
Fixpoint get_user_input (valid_options : option (list string))
    (stdin : list string) : option (string * list string) :=
  match stdin with
  | [] => None
  | typed :: rest =>
      let response := str_lower (strip typed) in
      match valid_options with
      | None => Some (response, rest)
      | Some options =>
          if str_in response options then Some (response, rest)
          else get_user_input valid_options rest
      end
  end.

(** [sorted(set(t['Region'] for t in transactions if t.get('Region')))] *)
Definition available_regions (h : heap) (transactions : list loc)
    : list string :=
  sorted_strings
    (list_to_set
       (omap (fun t => match Region (h t) with
                       | Some r => if String.eqb r EmptyString then None
                                   else Some r
                       | None => None
                       end) transactions)).

(** [min_amount = None; try: if s: min_amount = float(s); except
    ValueError: pass] *)
Definition read_bound (s : string) : option float :=
  if String.eqb s EmptyString then None else py_float s.

(** [apply_filters(transactions)]: the returned tuple and what is left of
    [stdin]. *)
Definition apply_filters (h : heap) (transactions : list loc)
    (stdin : list string)
    : option (list loc * option string * option float * option float
              * list string) :=
  '(want_filter, stdin) ← get_user_input (Some ["y"; "n"]) stdin;
  if String.eqb want_filter "n" then
    Some (transactions, None, None, None, stdin)
  else
    let regions := available_regions h transactions in
    match stdin with
    | [] => None
    | typed :: stdin =>
        let filter_region := strip typed in
        let filter_region :=
          if negb (String.eqb filter_region EmptyString)
             && negb (str_in filter_region regions)
          then None else Some filter_region in
        match stdin with
        | [] => None
        | typed :: stdin =>
            let filter_min := strip typed in
            match stdin with
            | [] => None
            | typed :: stdin =>
                let filter_max := strip typed in
                let min_amount := read_bound filter_min in
                let max_amount := read_bound filter_max in
                Some (transactions, filter_region, min_amount, max_amount,
                      stdin)
            end
        end
    end.

(* ===================================================================== *)
(** * Vocabulary of the statements *)
(* ===================================================================== *)

(** ** Order of binary64 numbers *)

(** A number that is not NaN has a place in the order: sign class, then
    exponent, then mantissa. *)
Definition rank (x : spec_float) : Z * Z * Z :=
  match x with
  | S754_nan => (0, 0, 0)
  | S754_zero _ => (0, 0, 0)
  | S754_infinity s => (if s then -2 else 2, 0, 0)
  | S754_finite s m e => if s then (-1, - e, Zneg m) else (1, e, Zpos m)
  end.

Definition lex_lt (a b : Z * Z * Z) : Prop :=
  a.1.1 < b.1.1 \/
  (a.1.1 = b.1.1 /\ (a.1.2 < b.1.2 \/ (a.1.2 = b.1.2 /\ a.2 < b.2))).

Definition lex_le (a b : Z * Z * Z) : Prop := lex_lt a b \/ a = b.

Definition frank (x : float) : Z * Z * Z := rank (Prim2SF x).

(** ** Sample data *)

(** A dictionary as [parse_transactions] builds it. *)
Definition tx (id date pid name : string) (q : Z) (p : float)
    (cid region : string) : transaction :=
  mkTransaction (Some id) (Some date) (Some pid) (Some name) (Some q)
    (Some p) (Some cid) (Some region) None.

Definition heap_of (ts : list transaction) : heap := (alloc ts).1.
Definition refs_of (ts : list transaction) : list loc := (alloc ts).2.

(** A record whose only defect is a blank region. *)
Definition blank_region_record : transaction :=
  tx "T001" "2024-12-01" "P101" "Laptop" 2 45000 "C001" " ".

(** A valid record and one with two defects. *)
Definition two_records : list transaction :=
  [tx "T001" "2024-12-01" "P101" "Laptop" 2 45000 "C001" "North";
   tx "X002" "2024-12-02" "P102" "Mouse" 0 500 "C002" "South"].

(** Five parsed records, the fourth invalid. *)
Definition sample_sales : list transaction :=
  [tx "T001" "2024-12-01" "P101" "Laptop" 2 45000 "C001" "North";
   tx "T002" "2024-12-01" "P102" "Mouse" 5 500 "C002" "South";
   tx "T003" "2024-12-02" "P103" "Keyboard" 1 1500 "C003" "North";
   tx "T004" "2024-12-02" "P104" "Monitor" 0 12000 "C001" "North";
   tx "T005" "2024-12-03" "P105" "Webcam" 40 3000 "C004" "North"].

(** An admitted set in which two products tie on quantity and two days
    tie on revenue. *)
Definition admitted_sales : list transaction :=
  [tx "T001" "2024-12-02" "P101" "Laptop" 2 45000 "C001" "North";
   tx "T002" "2024-12-01" "P102" "Mouse" 5 600 "C002" "South";
   tx "T003" "2024-12-01" "P103" "Keyboard" 6 14500 "C003" "North";
   tx "T004" "2024-12-03" "P102" "Mouse" 1 600 "C001" "East"].

(** One sale of an eighth of a rupee. *)
Definition pen_sale : list transaction :=
  [tx "T001" "2024-12-01" "P101" "Pen" 1 0.125 "C001" "North"].

Definition laptop_line : string :=
  "T001|2024-12-01|P101|Laptop|2|45,000|C001|North".

(** ** Validation and filtering *)

Definition valid_in (h : heap) (l : loc) : bool := is_valid (h l).

(** The outcome of the two filter steps on the valid records. *)
Definition filtered (h' : heap) (region : option string)
    (min_amount max_amount : option float) (valid : list loc) : list loc :=
  (filter_amount h' min_amount max_amount
     (filter_region h' region valid).1).1.

(** What the call returns, without the store. *)
Definition returned (r : option (heap * (list loc * Z * FilterSummary)))
    : option (list loc * Z * FilterSummary) := snd <$> r.

(** The six rules in the words of the documentation.
    "Present and non-empty after string coercion": *)
Definition nonempty_field (f : option string) : bool :=
  match f with
  | Some s => negb (String.eqb s EmptyString)
  | None => false
  end.

(** "Present and not blank": non-empty once surrounding whitespace is
    stripped. *)
Definition nonblank_field (f : option string) : bool :=
  match f with
  | Some s => negb (String.eqb (strip s) EmptyString)
  | None => false
  end.

(** "Quantity > 0" *)
Definition quantity_positive (t : transaction) : bool :=
  match Quantity t with
  | Some q => 0 <? q
  | None => false
  end.

(** "UnitPrice > 0" *)
Definition unit_price_positive (t : transaction) : bool :=
  match UnitPrice t with
  | Some p => (0 <? p)%float
  | None => false
  end.

(** "starts with [c]" *)
Definition field_startswith (c : ascii) (f : option string) : bool :=
  match f with
  | Some s => startswith c s
  | None => false
  end.

(** The six rules with rule 1 read on a field test [field_ok]. *)
Definition six_rules_with (field_ok : option string -> bool)
    (t : transaction) : bool :=
  (field_ok (TransactionID t) && field_ok (Date t) &&
   field_ok (ProductID t) && field_ok (ProductName t) &&
   bool_decide (is_Some (Quantity t)) && bool_decide (is_Some (UnitPrice t)) &&
   field_ok (CustomerID t) && field_ok (Region t)) &&
  quantity_positive t &&
  unit_price_positive t &&
  field_startswith "T" (TransactionID t) &&
  field_startswith "P" (ProductID t) &&
  field_startswith "C" (CustomerID t).

Definition six_rules_as_stated : transaction -> bool :=
  six_rules_with nonempty_field.

Definition six_rules : transaction -> bool := six_rules_with nonblank_field.

Definition price_not_nan (t : transaction) : Prop :=
  forall p, UnitPrice t = Some p -> is_nan p = false.

(** What each filter step asks of a record. *)
Definition region_ok (region : option string) (t : transaction) : bool :=
  match region with
  | Some r => if String.eqb r EmptyString then true else region_is r t
  | None => true
  end.

Definition min_ok (min_amount : option float) (t : transaction) : bool :=
  match min_amount with
  | Some m => amount_ge m t
  | None => true
  end.

Definition max_ok (max_amount : option float) (t : transaction) : bool :=
  match max_amount with
  | Some m => amount_le m t
  | None => true
  end.

(** ** Parsing *)

(** Number of occurrences of a character. *)
Fixpoint count_char (c : ascii) (s : string) : nat :=
  match s with
  | EmptyString => 0%nat
  | String c' s' => ((if Ascii.eqb c' c then 1 else 0) + count_char c s')%nat
  end.

(** What a line contributes to the parsed list. *)
Definition parsed_of (line : string) : list transaction :=
  match parse_line line with
  | inl t => [t]
  | inr _ => []
  end.

Fixpoint all_space (s : string) : bool :=
  match s with
  | EmptyString => true
  | String c s' => is_space c && all_space s'
  end.

Definition last_char (s : string) : option ascii :=
  last (list_ascii_of_string s).

(** ** The first run of digits *)

Fixpoint no_digit (s : string) : bool :=
  match s with
  | EmptyString => true
  | String c s' => negb (is_digit c) && no_digit s'
  end.

Definition starts_with_digit (s : string) : bool :=
  match s with
  | String c _ => is_digit c
  | EmptyString => false
  end.

(** [run] is the first maximal run of decimal digits of [s]: nothing
    before it is a digit, it is not empty, and no digit follows it. *)
Definition first_digit_run (s run : string) : Prop :=
  exists pre post,
    s = pre +:+ run +:+ post /\
    no_digit pre = true /\
    all_digits run = true /\ run <> EmptyString /\
    starts_with_digit post = false.

(** ** Grouping, sorting, maximum *)

(** One turn of a grouping loop. *)
Definition group_step {T V} (key : T -> string) (step : T -> V -> V)
    (dflt : V) (d : list (string * V)) (t : T) : list (string * V) :=
  dict_update (key t) (step t) dflt d.

(** The value accumulated for [k]: the steps of its own records, in the
    order of the input. *)
Definition group_value {T V} (key : T -> string) (step : T -> V -> V)
    (k : string) (ts : list T) (v : V) : V :=
  fold_left (fun v t => if String.eqb (key t) k then step t v else v) ts v.

(** [t] falls under the key [k]. *)
Definition has_key {T} (key : T -> string) (k : string) (t : T) : bool :=
  String.eqb (key t) k.

(** Position of the first element that [sel] selects (the length of the
    list when there is none). *)
Fixpoint first_index {T} (sel : T -> bool) (ts : list T) : nat :=
  match ts with
  | [] => 0%nat
  | t :: ts' => if sel t then 0%nat else S (first_index sel ts')
  end.

(** How two elements stand in a sorted list: the later one does not sort
    strictly before the earlier one, and of two that tie the earlier one
    came first ([before]) in the list that was sorted. *)
Definition in_order {A} (prec : A -> A -> bool) (before : A -> A -> Prop)
    (a b : A) : Prop :=
  prec b a = false /\ (prec a b = false -> before a b).

(** One turn of [max_by]. *)
Definition max_step {A} (key : A -> float) (best x : A) : A :=
  if (key best <? key x)%float then x else best.

(** ** Aggregates *)

(** Every product [Quantity * UnitPrice] of the set can be computed. *)
Definition sales_defined (ts : list transaction) : Prop :=
  Forall (fun t => is_Some (sale t)) ts.

Definition sale_value (t : transaction) : float := default 0%float (sale t).

(** The running sum, in input order and at full precision, of the sales
    of the records that [sel] selects. *)
Definition running_sum (sel : transaction -> bool) (ts : list transaction)
    : float :=
  fold_left (fun acc t => if sel t then (acc + sale_value t)%float else acc)
            ts 0%float.

Definition count_of (sel : transaction -> bool) (ts : list transaction) : Z :=
  fold_left (fun acc t => if sel t then acc + 1 else acc) ts 0.

Definition everything (t : transaction) : bool := true.

Definition in_region (r : string) (t : transaction) : bool :=
  String.eqb (get_region t) r.

Definition of_product (p : string) (t : transaction) : bool :=
  String.eqb (get_product_name t) p.

Definition on_date (d : string) (t : transaction) : bool :=
  String.eqb (get_date t) d.

Definition total_quantity (p : string) (ts : list transaction) : Z :=
  fold_left (fun acc t => if of_product p t
                          then acc + default 0 (Quantity t) else acc) ts 0.

(** Where a product name is first seen in the input. *)
Definition first_seen (p : string) (ts : list transaction) : nat :=
  first_index (of_product p) ts.

(** The bodies of the three aggregation loops once the sale is known. *)
Definition region_step (t : transaction) (data : region_data_entry)
    : region_data_entry :=
  {| total_sales := (total_sales data + sale_value t)%float;
     transaction_count := transaction_count data + 1 |}.

Definition product_step (t : transaction) (data : product_data_entry)
    : product_data_entry :=
  {| pd_quantity := pd_quantity data + default 0 (Quantity t);
     pd_revenue := (pd_revenue data + sale_value t)%float |}.

Definition daily_step (t : transaction) (data : daily_data_entry)
    : daily_data_entry :=
  {| dd_revenue := (dd_revenue data + sale_value t)%float;
     dd_transaction_count := dd_transaction_count data + 1;
     dd_customers := {[ get_customer t ]} ∪ dd_customers data |}.

(** What [region_wise_sales] holds for a region. *)
Definition region_entry (total_revenue : float) (r : string)
    (ts : list transaction) : region_stats :=
  {| rs_total_sales := round2 (running_sum (in_region r) ts);
     rs_transaction_count := count_of (in_region r) ts;
     rs_percentage :=
       round2 (if (0 <? total_revenue)%float
               then (running_sum (in_region r) ts / total_revenue * 100)%float
               else 0%float) |}.

(** The whole ranking of products, before the slice. *)
Definition product_ranking (ts : list transaction)
    : list (string * Z * float) :=
  stable_sort (fun y x => snd (fst x) <? snd (fst y))
    (map product_tuple
       (fold_left
          (group_step get_product_name product_step (mkProductData 0 0%float))
          ts [])).

(** Two entries of a ranking, the first standing before the second. *)
Definition ranked (ts : list transaction) (a b : string * Z * float) : Prop :=
  a.1.2 >= b.1.2 /\
  (a.1.2 = b.1.2 -> (first_seen a.1.1 ts < first_seen b.1.1 ts)%nat).

(** The daily trend when no sale raises. *)
Definition trend_of (ts : list transaction) : list (string * daily_stats) :=
  stable_sort (fun y x => String.ltb (fst y) (fst x))
    (map daily_result
       (fold_left
          (group_step get_date daily_step (mkDailyData 0%float 0 ∅)) ts [])).

(** ** Reading and parsing *)

(** The shape of a parsed record. *)
Definition parsed_shape (t : transaction) : Prop :=
  exists tid d pid pn q p cid r,
    t = mkTransaction (Some tid) (Some d) (Some pid) (Some pn) (Some q)
          (Some p) (Some cid) (Some r) None /\
    strip tid = tid /\ strip d = d /\ strip pid = pid /\
    strip cid = cid /\ strip r = r /\
    count_char "," pn = 0%nat.

(** A file that is not UTF-8: a header, one record, blank lines. *)
Definition latin_file (enc : encoding) : read_attempt :=
  match enc with
  | utf_8 => RaisesUnicodeDecodeError
  | _ => ReadLines ["TransactionID|Date"; " " +:+ laptop_line; ""; "  "]
  end.

(** ** Sums over the entries of a result *)

Definition sum_of {A} (f : A -> Z) (l : list A) : Z :=
  fold_right (fun x acc => f x + acc) 0 l.

(** Two entries of the list of low performers, the first standing before
    the second. *)
Definition low_ranked (ts : list transaction) (a b : string * Z * float)
    : Prop :=
  a.1.2 <= b.1.2 /\
  (a.1.2 = b.1.2 -> (first_seen a.1.1 ts < first_seen b.1.1 ts)%nat).

(** ** Regions, days and customers *)

(** Two entries of the regional result, the first standing before the
    second. *)
Definition region_ranked (ts : list transaction)
    (a b : string * region_stats) : Prop :=
  (rs_total_sales b.2 <=? rs_total_sales a.2)%float = true /\
  ((rs_total_sales a.2 =? rs_total_sales b.2)%float = true ->
   (first_index (in_region a.1) ts < first_index (in_region b.1) ts)%nat).

(** The customers who bought on the date [d]. *)
Definition customers_on (d : string) (ts : list transaction) : gset string :=
  list_to_set (map get_customer (List.filter (on_date d) ts)).

Definition by_customer (c : string) (t : transaction) : bool :=
  String.eqb (get_customer t) c.

(** The product names a customer bought. *)
Definition products_of (c : string) (ts : list transaction) : gset string :=
  list_to_set (map get_product_name (List.filter (by_customer c) ts)).

(** The body of the customer loop once the sale is known. *)
Definition customer_step (t : transaction) (data : customer_data_entry)
    : customer_data_entry :=
  {| cd_total_spent := (cd_total_spent data + sale_value t)%float;
     cd_purchase_count := cd_purchase_count data + 1;
     cd_products := {[ get_product_name t ]} ∪ cd_products data |}.

(** Two entries of the customer analysis, the first standing before the
    second. *)
Definition customer_ranked (ts : list transaction)
    (a b : string * customer_stats) : Prop :=
  (total_spent b.2 <=? total_spent a.2)%float = true /\
  ((total_spent a.2 =? total_spent b.2)%float = true ->
   (first_index (by_customer a.1) ts < first_index (by_customer b.1) ts)%nat).

(** What [customer_analysis] holds for a customer whose purchases can be
    counted in a float. *)
Definition customer_stats_of (data : customer_data_entry) : customer_stats :=
  {| total_spent := round2 (cd_total_spent data);
     purchase_count := cd_purchase_count data;
     avg_order_value :=
       round2 (cd_total_spent data
               / default 0%float (float_of_int (cd_purchase_count data)));
     products_bought := sorted_strings (cd_products data) |}.

Definition customer_entry (c : string) (ts : list transaction)
    : customer_stats :=
  customer_stats_of
    {| cd_total_spent := running_sum (by_customer c) ts;
       cd_purchase_count := count_of (by_customer c) ts;
       cd_products := products_of c ts |}.

(** The customer analysis when nothing raises. *)
Definition customers_of (ts : list transaction)
    : list (string * customer_stats) :=
  stable_sort
    (fun y x => (total_spent (snd x) <? total_spent (snd y))%float)
    (map (fun kv : string * customer_data_entry =>
            (kv.1, customer_stats_of kv.2))
       (fold_left
          (group_step get_customer customer_step (mkCustomerData 0%float 0 ∅))
          ts [])).

(** ** The product catalogue *)

(** The entry of the mapping made from a product. *)
Definition info_of (product : api_product) : product_info :=
  {| title := p_title product; category := p_category product;
     brand := p_brand product; rating := p_rating product |}.

Definition has_id (id : Z) (product : api_product) : bool :=
  bool_decide (p_id product = Some id).

(** The last product of the catalogue that carries the id. *)
Definition last_with_id (id : Z) (api_products : list api_product)
    : option api_product :=
  last (List.filter (has_id id) api_products).

(** A catalogue in which the id 101 occurs twice and one product has no
    id. *)
Definition sample_catalogue : list api_product :=
  [mkApiProduct (Some 101) (Some "Laptop A") (Some "laptops") (Some "Acme")
     (Some (NInt 549)) (Some 4.5%float);
   mkApiProduct None (Some "Nameless") None None None None;
   mkApiProduct (Some 101) (Some "Laptop B") (Some "notebooks") None
     (Some (NFloat 99.5%float)) (Some 3.5%float)].

(** ** The stand-alone cleaner *)

(** What the cleaner makes of one line of the file. *)
Definition cleaned_of (line : string) : list transaction :=
  match split "|" (strip line) with
  | [f0; f1; f2; f3; f4; f5; f6; f7] =>
      match clean_fields (strip f0) (strip f1) (strip f2) (strip f3)
              (strip f4) (strip f5) (strip f6) (strip f7) with
      | Some record => [record]
      | None => []
      end
  | _ => []
  end.

Definition nonblank (line : string) : bool :=
  negb (String.eqb (strip line) EmptyString).

(** What the cleaner asks of a record it keeps. *)
Definition clean_record (t : transaction) : Prop :=
  exists tid d pid pn q p cid r,
    t = mkTransaction (Some tid) (Some d) (Some pid) (Some pn) (Some q)
          (Some p) (Some cid) (Some r) None /\
    startswith "T" tid = true /\ cid <> EmptyString /\ r <> EmptyString /\
    0 < q /\ (p <=? 0)%float = false.

(** A file of a header and five lines: a good record, a blank line, a
    record whose product id and customer id have the wrong letter, a
    record with quantity zero, a line of three fields. *)
Definition sample_file : list string :=
  ["TransactionID|Date|ProductID|ProductName|Quantity|UnitPrice|CustomerID|Region";
   laptop_line;
   "   ";
   "T002|2024-12-02|X102|Mouse, wireless|5|500|K002|South";
   "T003|2024-12-02|P103|Keyboard|0|1,500|C003|North";
   "T004|2024-12-03|P104"].

(** ** The prompts *)

(** What [input(...).strip().lower()] makes of a typed line. *)
Definition answer (typed : string) : string := str_lower (strip typed).

(** Four typed lines: yes, a region, no lower bound, an upper bound. *)
Definition typed_filters : list string :=
  ["maybe"; " Y "; "North"; ""; "1e5"; "left over"].

(** ** Numerals *)

(** Where a character first stands in a string, counting from 0. *)
Fixpoint place_in (s : string) (c : ascii) : option Z :=
  match s with
  | EmptyString => None
  | String x s' => if Ascii.eqb x c then Some 0 else Z.succ <$> place_in s' c
  end.

(** The digit a character writes: its place among the ten digits. *)
Definition digit_of (c : ascii) : option Z := place_in "0123456789" c.

(** [decimal_number s n]: the decimal numeral [s] writes the number [n].
    A numeral is a digit, or a numeral followed by a digit, which then
    counts the units and makes the numeral before it count tens. *)
Inductive decimal_number : string -> Z -> Prop :=
  | decimal_digit c d :
      digit_of c = Some d -> decimal_number (String c EmptyString) d
  | decimal_more s n c d :
      decimal_number s n -> digit_of c = Some d ->
      decimal_number (s +:+ String c EmptyString) (10 * n + d).

(** [int] reads the run of digits [run] as [n]: the run is a numeral of
    [n] and is not longer than the interpreter lets a numeral be. *)
Definition int_reads (run : string) (n : Z) : Prop :=
  Z.of_nat (String.length run) <= 4300 /\ decimal_number run n.

(** A record with the product id [pid]. *)
Definition with_product_id (pid : string) : transaction :=
  tx "T001" "2024-12-01" pid "Laptop" 2 45000 "C001" "North".

(** A mapping with the keys 101 and 5. *)
Definition sample_mapping : gmap Z product_info :=
  <[101 := mkProductInfo (Some "Laptop A") (Some "laptops") (Some "Acme")
             (Some 4.5%float)]>
    (<[5 := mkProductInfo (Some "Mouse") (Some "mice") None None]> ∅).

(** What a test on enrichment looks at. *)
Definition api_fields (e : enriched_transaction)
    : bool * option string * option string * option float :=
  (API_Match e, API_Category e, API_Brand e, API_Rating e).

(** ** Fields of a line *)

(** [sep.join(fields)] *)
Fixpoint join_with (sep : ascii) (fields : list string) : string :=
  match fields with
  | [] => EmptyString
  | [f] => f
  | f :: fs => f +:+ String sep (join_with sep fs)
  end.

(** [s] is [f] without the whitespace before and after it: [f] is [s]
    between two runs of whitespace, and [s] neither begins nor ends with
    a whitespace character. *)
Definition trimmed (f s : string) : Prop :=
  exists pre post,
    f = pre +:+ s +:+ post /\
    all_space pre = true /\ all_space post = true /\
    (forall c r, s = String c r -> is_space c = false) /\
    (forall c, last_char s = Some c -> is_space c = false).

(** The laptop line with a tab, blanks and a line feed around its
    fields, and a comma in the product name. *)
Definition spaced_line : string :=
  String "009"
    " T001 | 2024-12-01|P101 |Laptop, 15 inch| 2 | 45,000 |C001 | North "
  +:+ String "010" EmptyString.

(** ** The amount *)

(** The binary64 number nearest to the integer [q] (ties to even): the
    float that stands for [q] in a product with a float. *)
Definition nearest_float (q : Z) : float :=
  SF2Prim (binary_normalize prec emax q 0 false).

(** [Quantity * UnitPrice] as the interpreter computes it: the product,
    correctly rounded, of the float nearest to the quantity and the
    price. *)
Definition quantity_times_price (q : Z) (p : float) : float :=
  (nearest_float q * p)%float.

(** ** The peak day *)

(** The revenue [daily_sales_trend] reports for the date [d]: the sum of
    the sales of that date, in input order, rounded to two decimals. *)
Definition daily_revenue (d : string) (ts : list transaction) : float :=
  round2 (running_sum (on_date d) ts).

(** A date of the input. *)
Definition is_date_of (ts : list transaction) (d : string) : Prop :=
  exists t, In t ts /\ get_date t = d.

(** Three days, the first with a price that is not a number. *)
Definition nan_day_sales : list transaction :=
  [tx "T001" "2024-12-01" "P101" "Pen" 1 nan "C001" "North";
   tx "T002" "2024-12-02" "P102" "Mouse" 1 100 "C002" "South";
   tx "T003" "2024-12-03" "P102" "Mouse" 1 100 "C003" "East"].

(* ===================================================================== *)
(** * Lemmas and theorems *)
(* ===================================================================== *)

(** * Order of binary64 numbers *)

Lemma Prim2SF_not_nan x : is_nan x = false -> Prim2SF x <> S754_nan.
Proof.
  intros H. unfold Prim2SF. rewrite H.
  destruct (is_zero x); [discriminate|].
  destruct (is_infinity x); [discriminate|].
  destruct (Z.frexp x) as [r ex].
  destruct (shr_fexp _ _ _ _ _) as [sh e'].
  destruct (shr_m sh); discriminate.
Qed.

Lemma Prim2SF_nan x : is_nan x = true -> Prim2SF x = S754_nan.
Proof. intros H. unfold Prim2SF. now rewrite H. Qed.

Lemma SFcompare_rank x y :
  x <> S754_nan -> y <> S754_nan ->
  SFcompare x y = Some (match (rank x).1.1 ?= (rank y).1.1 with
                        | Eq => match (rank x).1.2 ?= (rank y).1.2 with
                                | Eq => (rank x).2 ?= (rank y).2
                                | c => c
                                end
                        | c => c
                        end).
Proof.
  intros Hx Hy.
  destruct x as [sx|sx| |sx mx ex], y as [sy|sy| |sy my ey];
    try congruence; try (destruct sx); try (destruct sy); try reflexivity.
  cbn. rewrite Z.compare_opp, (Z.compare_antisym ex ey).
  destruct (ex ?= ey); reflexivity.
Qed.

Lemma rank_compare_lt a b :
  match a.1.1 ?= b.1.1 with
  | Eq => match a.1.2 ?= b.1.2 with Eq => a.2 ?= b.2 | c => c end
  | c => c
  end = Lt <-> lex_lt a b.
Proof.
  unfold lex_lt.
  destruct (Z.compare_spec a.1.1 b.1.1); [|intuition (lia || congruence)..].
  destruct (Z.compare_spec a.1.2 b.1.2); [|intuition (lia || congruence)..].
  destruct (Z.compare_spec a.2 b.2); intuition (lia || congruence).
Qed.

Lemma rank_compare_eq a b :
  match a.1.1 ?= b.1.1 with
  | Eq => match a.1.2 ?= b.1.2 with Eq => a.2 ?= b.2 | c => c end
  | c => c
  end = Eq <-> a = b.
Proof.
  destruct a as [[a1 a2] a3], b as [[b1 b2] b3]; cbn.
  destruct (Z.compare_spec a1 b1);
    [|split; intros; (congruence || (simplify_eq; lia))..].
  destruct (Z.compare_spec a2 b2);
    [|split; intros; (congruence || (simplify_eq; lia))..].
  destruct (Z.compare_spec a3 b3); split; intros;
    (congruence || (simplify_eq; lia)).
Qed.

Lemma lex_lt_trans a b c : lex_lt a b -> lex_lt b c -> lex_lt a c.
Proof. unfold lex_lt. lia. Qed.

Lemma lex_lt_irrefl a : ~ lex_lt a a.
Proof. unfold lex_lt. lia. Qed.

Lemma lex_total a b : lex_lt a b \/ a = b \/ lex_lt b a.
Proof.
  destruct a as [[a1 a2] a3], b as [[b1 b2] b3]. unfold lex_lt. cbn.
  destruct (Z.lt_total a1 b1) as [?|[->|?]]; [lia| |lia].
  destruct (Z.lt_total a2 b2) as [?|[->|?]]; [lia| |lia].
  destruct (Z.lt_total a3 b3) as [?|[->|?]]; [lia| |lia].
  right. now left.
Qed.

(** The three comparisons of floats, read on ranks. *)
Lemma ltb_true_iff x y :
  (x <? y)%float = true <->
  is_nan x = false /\ is_nan y = false /\ lex_lt (frank x) (frank y).
Proof.
  rewrite FloatAxioms.ltb_spec. unfold SFltb, frank.
  destruct (is_nan x) eqn:Hx.
  { rewrite (Prim2SF_nan x Hx). cbn. intuition discriminate. }
  destruct (is_nan y) eqn:Hy.
  { rewrite (Prim2SF_nan y Hy).
    destruct (Prim2SF x); cbn; intuition discriminate. }
  rewrite SFcompare_rank by now apply Prim2SF_not_nan.
  rewrite <- rank_compare_lt.
  destruct (match _ ?= _ with Eq => _ | _ => _ end); intuition discriminate.
Qed.

Lemma leb_true_iff x y :
  (x <=? y)%float = true <->
  is_nan x = false /\ is_nan y = false /\ lex_le (frank x) (frank y).
Proof.
  rewrite FloatAxioms.leb_spec. unfold SFleb, frank, lex_le.
  destruct (is_nan x) eqn:Hx.
  { rewrite (Prim2SF_nan x Hx). cbn. intuition discriminate. }
  destruct (is_nan y) eqn:Hy.
  { rewrite (Prim2SF_nan y Hy).
    destruct (Prim2SF x); cbn; intuition discriminate. }
  rewrite SFcompare_rank by now apply Prim2SF_not_nan.
  rewrite <- rank_compare_lt, <- rank_compare_eq.
  destruct (match _ ?= _ with Eq => _ | _ => _ end); intuition discriminate.
Qed.

Lemma eqb_true_iff x y :
  (x =? y)%float = true <->
  is_nan x = false /\ is_nan y = false /\ frank x = frank y.
Proof.
  rewrite FloatAxioms.eqb_spec. unfold SFeqb, frank.
  destruct (is_nan x) eqn:Hx.
  { rewrite (Prim2SF_nan x Hx). cbn. intuition discriminate. }
  destruct (is_nan y) eqn:Hy.
  { rewrite (Prim2SF_nan y Hy).
    destruct (Prim2SF x); cbn; intuition discriminate. }
  rewrite SFcompare_rank by now apply Prim2SF_not_nan.
  rewrite <- rank_compare_eq.
  destruct (match _ ?= _ with Eq => _ | _ => _ end); intuition discriminate.
Qed.

(** For a number that is not NaN, "not [<= 0]" is "[> 0]". *)
Lemma not_leb_zero_is_pos p :
  is_nan p = false -> negb (p <=? 0)%float = (0 <? p)%float.
Proof.
  intros Hp.
  destruct (0 <? p)%float eqn:Hlt.
  - apply ltb_true_iff in Hlt as (_ & _ & Hlt).
    apply negb_true_iff. apply not_true_is_false. intros Hle.
    apply leb_true_iff in Hle as (_ & _ & [Hle | Hle]).
    + exact (lex_lt_irrefl _ (lex_lt_trans _ _ _ Hlt Hle)).
    + rewrite Hle in Hlt. exact (lex_lt_irrefl _ Hlt).
  - apply negb_false_iff. apply leb_true_iff. repeat split; [done..|].
    destruct (lex_total (frank p) (frank 0%float)) as [H|[H|H]].
    + now left.
    + now right.
    + exfalso. apply not_true_iff_false in Hlt. apply Hlt.
      apply ltb_true_iff. repeat split; done.
Qed.

(** * The validation loop *)

Lemma len_app {A} (l1 l2 : list A) : len (l1 ++ l2) = len l1 + len l2.
Proof. unfold len. rewrite length_app. lia. Qed.

Lemma len_nonneg {A} (l : list A) : 0 <= len l.
Proof. unfold len. lia. Qed.

Lemma len_filter_split {A} (f : A -> bool) (l : list A) :
  len (List.filter f l) + len (List.filter (fun x => negb (f x)) l) = len l.
Proof.
  unfold len. induction l as [|x l IH]; cbn; [done|].
  destruct (f x); cbn; lia.
Qed.

Lemma validation_loop_spec h ts v c :
  validation_loop h ts (v, c) =
  (v ++ List.filter (valid_in h) ts,
   c + len (List.filter (fun l => negb (valid_in h l)) ts)).
Proof.
  unfold validation_loop, valid_in. revert v c.
  induction ts as [|t ts IH]; intros v c; cbn.
  - now rewrite app_nil_r, Z.add_0_r.
  - destruct (is_valid (h t)); cbn; rewrite IH.
    + now rewrite <- app_assoc.
    + f_equal. unfold len. cbn [length]. lia.
Qed.

(** * The store after the amounts are set *)

Lemma compute_amount_set_Amount a t :
  compute_amount (set_Amount a t) = compute_amount t.
Proof. reflexivity. Qed.

Lemma is_valid_set_Amount a t : is_valid (set_Amount a t) = is_valid t.
Proof. reflexivity. Qed.

Lemma set_Amount_twice a b t : set_Amount a (set_Amount b t) = set_Amount a t.
Proof. reflexivity. Qed.

Lemma store_same h l t : store h l t l = t.
Proof. unfold store. now rewrite Nat.eqb_refl. Qed.

Lemma store_other h l t l' : l' <> l -> store h l t l' = h l'.
Proof. unfold store. intros H. apply Nat.eqb_neq in H. now rewrite H. Qed.

Lemma set_amounts_spec ls : forall h h',
  set_amounts h ls = Some h' ->
  forall l,
    (In l ls ->
     exists a, compute_amount (h l) = Some a /\ h' l = set_Amount a (h l)) /\
    (~ In l ls -> h' l = h l).
Proof.
  induction ls as [|x ls IH]; intros h h' Hs l; cbn in Hs.
  - simplify_eq. split; [intros []|done].
  - destruct (compute_amount (h x)) as [a|] eqn:Ha; [|done]. cbn in Hs.
    specialize (IH _ _ Hs l) as [IHin IHout].
    destruct (decide (l = x)) as [->|Hne].
    + split; [intros _|intros []; now left].
      exists a. split; [done|].
      destruct (in_dec Nat.eq_dec x ls) as [Hin|Hnin].
      * destruct (IHin Hin) as (a' & Ha' & ->).
        rewrite store_same in *. rewrite compute_amount_set_Amount in Ha'.
        now simplify_eq.
      * rewrite (IHout Hnin). apply store_same.
    + rewrite store_other in * by done.
      split.
      * intros [Heq|Hin]; [congruence|]. exact (IHin Hin).
      * intros Hn. apply IHout. intros Hin. apply Hn. now right.
Qed.

Lemma set_amounts_returns ls : forall h,
  (forall l, In l ls -> is_Some (compute_amount (h l))) <->
  is_Some (set_amounts h ls).
Proof.
  induction ls as [|x ls IH]; intros h; cbn.
  - split; [eauto|intros _ l []].
  - split.
    + intros H. destruct (H x (or_introl eq_refl)) as [a Ha]. rewrite Ha. cbn.
      apply IH. intros l Hl.
      destruct (decide (l = x)) as [->|Hne].
      * rewrite store_same. rewrite compute_amount_set_Amount. eauto.
      * rewrite store_other by done. apply H. now right.
    + intros H l [<-|Hl].
      * destruct (compute_amount (h x)); [eauto|]. cbn in H. now destruct H.
      * destruct (compute_amount (h x)) as [a|] eqn:Ha;
          [|cbn in H; now destruct H].
        cbn in H. apply IH with (l := l) in H; [|done].
        destruct (decide (l = x)) as [->|Hne]; [eauto|].
        now rewrite store_other in H.
Qed.

(** * The whole call *)

Lemma validate_and_filter_unfold h ts region mn mx :
  validate_and_filter h ts region mn mx =
  h' ← set_amounts h (List.filter (valid_in h) ts);
  let valid := List.filter (valid_in h) ts in
  let invalid_count := len (List.filter (fun l => negb (valid_in h l)) ts) in
  Some (h', (filtered h' region mn mx valid, invalid_count,
             {| total_input := len ts;
                invalid := invalid_count;
                filtered_by_region := (filter_region h' region valid).2;
                filtered_by_amount :=
                  (filter_amount h' mn mx (filter_region h' region valid).1).2;
                final_count := len (filtered h' region mn mx valid) |})).
Proof.
  unfold validate_and_filter, filtered.
  rewrite validation_loop_spec. cbn [app].
  destruct (set_amounts h _) as [h'|]; [|done]. cbn.
  destruct (filter_region h' region _) as [br nr]. cbn.
  destruct (filter_amount h' mn mx br) as [fa na]. cbn.
  reflexivity.
Qed.

(** The call returns exactly when the amount of every valid record can be
    computed. *)
Lemma validate_and_filter_returns h ts region mn mx :
  (forall l, In l ts -> is_valid (h l) = true -> is_Some (compute_amount (h l)))
  <-> is_Some (validate_and_filter h ts region mn mx).
Proof.
  rewrite validate_and_filter_unfold.
  split.
  - intros H.
    assert (Hs : is_Some (set_amounts h (List.filter (valid_in h) ts))).
    { apply set_amounts_returns. intros l Hl. apply filter_In in Hl as [Hl Hv].
      now apply H. }
    destruct Hs as [h' ->]. cbn. eauto.
  - intros H l Hl Hv.
    destruct (set_amounts h (List.filter (valid_in h) ts)) as [h'|] eqn:Hs;
      [|cbn in H; now destruct H].
    assert (Hs' : is_Some (set_amounts h (List.filter (valid_in h) ts))) by eauto.
    apply set_amounts_returns with (l := l) in Hs'; [done|].
    apply filter_In. now split.
Qed.

(** * The six rules *)

Lemma is_valid_six_rules t : price_not_nan t -> is_valid t = six_rules t.
Proof.
  intros Hp.
  unfold is_valid, six_rules, six_rules_with, rule1, rule2, rule3, rule4,
    rule5, rule6, quantity_positive, unit_price_positive.
  destruct t as [tid d pid pn q p cid r a]; cbn in *.
  destruct q as [q|]; cbn;
    [|now rewrite !andb_false_r].
  destruct p as [p|]; cbn; [|now rewrite !andb_false_r].
  rewrite (not_leb_zero_is_pos p) by now apply Hp.
  replace (negb (q <=? 0)) with (0 <? q) by lia.
  destruct tid, pid, cid; cbn; rewrite ?andb_false_r; reflexivity.
Qed.

Lemma filter_ext_In {A} (f g : A -> bool) (l : list A) :
  (forall x, In x l -> f x = g x) -> List.filter f l = List.filter g l.
Proof.
  induction l as [|x l IH]; intros H; cbn; [done|].
  rewrite (H x (or_introl eq_refl)), IH; [done|].
  intros y Hy. apply H. now right.
Qed.

Lemma filter_all {A} (f : A -> bool) (l : list A) :
  (forall x, In x l -> f x = true) -> List.filter f l = l.
Proof.
  induction l as [|x l IH]; intros H; cbn; [done|].
  rewrite (H x (or_introl eq_refl)), IH; [done|].
  intros y Hy. apply H. now right.
Qed.

Lemma filter_none {A} (f : A -> bool) (l : list A) :
  (forall x, In x l -> f x = true) -> List.filter (fun x => negb (f x)) l = [].
Proof.
  induction l as [|x l IH]; intros H; cbn; [done|].
  rewrite (H x (or_introl eq_refl)). cbn. apply IH.
  intros y Hy. apply H. now right.
Qed.

(** * The filters *)

Lemma filter_region_spec h region l :
  filter_region h region l =
  (List.filter (fun x => region_ok region (h x)) l,
   len l - len (List.filter (fun x => region_ok region (h x)) l)).
Proof.
  unfold filter_region, region_ok.
  destruct region as [r|]; [destruct (String.eqb r EmptyString)|];
    rewrite ?filter_all by done; try done; f_equal; lia.
Qed.

Lemma filter_min_spec h mn l :
  filter_min h mn l = List.filter (fun x => min_ok mn (h x)) l.
Proof. destruct mn; cbn; [done|]. now rewrite filter_all. Qed.

Lemma filter_max_spec h mx l :
  filter_max h mx l = List.filter (fun x => max_ok mx (h x)) l.
Proof. destruct mx; cbn; [done|]. now rewrite filter_all. Qed.

Lemma filter_amount_spec h mn mx l :
  filter_amount h mn mx l =
  (List.filter (fun x => max_ok mx (h x))
     (List.filter (fun x => min_ok mn (h x)) l),
   len l - len (List.filter (fun x => max_ok mx (h x))
                  (List.filter (fun x => min_ok mn (h x)) l))).
Proof.
  unfold filter_amount. rewrite filter_max_spec, filter_min_spec.
  destruct mn, mx; try done.
  cbn. rewrite !filter_all by done. f_equal. lia.
Qed.

Lemma filtered_spec h region mn mx l :
  filtered h region mn mx l =
  List.filter (fun x => max_ok mx (h x))
    (List.filter (fun x => min_ok mn (h x))
       (List.filter (fun x => region_ok region (h x)) l)).
Proof.
  unfold filtered. now rewrite filter_region_spec, filter_amount_spec.
Qed.

Lemma filtered_In h region mn mx l x :
  In x (filtered h region mn mx l) <->
  In x l /\ region_ok region (h x) = true /\ min_ok mn (h x) = true /\
  max_ok mx (h x) = true.
Proof. rewrite filtered_spec, !filter_In. tauto. Qed.

(** * What validation admits *)

(** C1, as stated, fails: a region of one space is non-empty after string
    coercion, so the six rules as worded hold, yet the record is rejected
    and counted. *)
Lemma blank_region_is_rejected :
  six_rules_as_stated blank_region_record = true /\
  returned (validate_and_filter (heap_of [blank_region_record])
              (refs_of [blank_region_record]) None None None)
  = Some ([], 1, mkFilterSummary 1 1 0 0 0).
Proof. split; vm_compute; reflexivity. Qed.

(** A NaN price is not [<= 0], so rule 3 lets it through. *)
Lemma nan_price_is_admitted :
  let t := tx "T001" "2024-12-01" "P101" "Laptop" 2 nan "C001" "North" in
  unit_price_positive t = false /\
  returned (validate_and_filter (heap_of [t]) (refs_of [t]) None None None)
  = Some ([0%nat], 0, mkFilterSummary 1 0 0 0 1).
Proof. split; vm_compute; reflexivity. Qed.

(** C1 (amended): on records whose price is not NaN, the call returns
    when every valid amount can be computed; a record that fails one of
    the six rules, rule 1 read as "present and not blank", is never in the
    output and adds exactly one to [invalid_count], however many rules it
    fails; without filters the output is exactly the records that satisfy
    the six rules, in input order. *)
Theorem validate_and_filter_admits_six_rules (h : heap) (ts : list loc)
    (region : option string) (min_amount max_amount : option float) :
  (forall l, In l ts -> price_not_nan (h l)) ->
  (forall l, In l ts -> is_valid (h l) = true ->
             is_Some (compute_amount (h l))) ->
  exists h' out inv s,
    validate_and_filter h ts region min_amount max_amount
      = Some (h', (out, inv, s)) /\
    (forall l, In l out -> In l ts /\ six_rules (h l) = true) /\
    inv = len (List.filter (fun l => negb (six_rules (h l))) ts) /\
    invalid s = inv /\
    total_input s = len ts /\
    (region = None -> min_amount = None -> max_amount = None ->
     out = List.filter (fun l => six_rules (h l)) ts /\
     (forall l, In l out <-> In l ts /\ six_rules (h l) = true) /\
     len out + inv = len ts).
Proof.
  intros Hnan Hret.
  apply (validate_and_filter_returns h ts region min_amount max_amount)
    in Hret as [[h' [[out inv] s]] Hvf].
  exists h', out, inv, s. split; [exact Hvf|].
  rewrite validate_and_filter_unfold in Hvf.
  destruct (set_amounts h _) as [h1|]; [|done].
  cbn [mbind option_bind] in Hvf. injection Hvf as <- <- <- <-.
  cbn [invalid total_input].
  assert (Hv : List.filter (valid_in h) ts
               = List.filter (fun l => six_rules (h l)) ts).
  { apply filter_ext_In. intros l Hl. apply is_valid_six_rules. now apply Hnan. }
  assert (Hi : List.filter (fun l => negb (valid_in h l)) ts
               = List.filter (fun l => negb (six_rules (h l))) ts).
  { apply filter_ext_In. intros l Hl. f_equal. apply is_valid_six_rules.
    now apply Hnan. }
  rewrite Hv, Hi.
  split.
  { intros l Hl. apply filtered_In in Hl as [Hl _]. now apply filter_In in Hl. }
  split; [reflexivity|]. split; [reflexivity|]. split; [reflexivity|].
  intros -> -> ->. rewrite filtered_spec. cbn [region_ok min_ok max_ok].
  rewrite !(filter_all (fun _ => true)) by done.
  split; [reflexivity|].
  split; [intros l; rewrite filter_In; tauto|].
  apply len_filter_split.
Qed.

Lemma validate_and_filter_admits_six_rules_witness :
  exists h' out inv s,
    validate_and_filter (heap_of two_records) (refs_of two_records)
      None None None = Some (h', (out, inv, s)) /\
    out = List.filter (fun l => six_rules (heap_of two_records l))
            (refs_of two_records) /\
    inv = len (List.filter (fun l => negb (six_rules (heap_of two_records l)))
                 (refs_of two_records)) /\
    invalid s = inv /\
    len out + inv = len (refs_of two_records).
Proof.
  destruct (validate_and_filter_admits_six_rules
              (heap_of two_records) (refs_of two_records) None None None)
    as (h' & out & inv & s & Hvf & _ & Hinv & Hs & _ & Hall).
  - intros l [<-|[<-|[]]] p Hp; vm_compute in Hp; simplify_eq; reflexivity.
  - intros l [<-|[<-|[]]] Hv; vm_compute in Hv; [|discriminate].
    vm_compute. eauto.
  - destruct (Hall eq_refl eq_refl eq_refl) as (Hout & _ & Hlen).
    exists h', out, inv, s. repeat split; assumption.
Defined.

(** * Filtering, idempotence, mutation in place *)

Lemma validate_and_filter_inv h ts region mn mx h' out inv s :
  validate_and_filter h ts region mn mx = Some (h', (out, inv, s)) ->
  set_amounts h (List.filter (valid_in h) ts) = Some h' /\
  out = filtered h' region mn mx (List.filter (valid_in h) ts) /\
  inv = len (List.filter (fun l => negb (valid_in h l)) ts) /\
  s = {| total_input := len ts;
         invalid := inv;
         filtered_by_region :=
           (filter_region h' region (List.filter (valid_in h) ts)).2;
         filtered_by_amount :=
           (filter_amount h' mn mx
              (filter_region h' region (List.filter (valid_in h) ts)).1).2;
         final_count := len out |}.
Proof.
  rewrite validate_and_filter_unfold.
  destruct (set_amounts h _) as [h1|]; [|done].
  cbn [mbind option_bind]. intros H. injection H as <- <- <- <-. done.
Qed.

(** C4: the admitted records are filtered by region first (when a
    non-empty region is given), then by the minimum and then by the
    maximum amount, each step on what the previous one kept; the summary
    counts what the region step removed, what the two amount steps removed
    together, and the length of the returned list. *)
Theorem validate_and_filter_filters_in_order (h : heap) (ts : list loc)
    (region : option string) (min_amount max_amount : option float)
    (h' : heap) (out : list loc) (inv : Z) (s : FilterSummary) :
  validate_and_filter h ts region min_amount max_amount
    = Some (h', (out, inv, s)) ->
  let admitted := List.filter (fun l => is_valid (h l)) ts in
  let by_region :=
    match region with
    | Some r =>
        if String.eqb r EmptyString then admitted
        else List.filter (fun l => bool_decide (Region (h l) = Some r)) admitted
    | None => admitted
    end in
  let by_min :=
    match min_amount with
    | Some m =>
        List.filter
          (fun l => match Amount (h' l) with
                    | Some a => (m <=? a)%float
                    | None => false
                    end) by_region
    | None => by_region
    end in
  let by_max :=
    match max_amount with
    | Some m =>
        List.filter
          (fun l => match Amount (h' l) with
                    | Some a => (a <=? m)%float
                    | None => false
                    end) by_min
    | None => by_min
    end in
  out = by_max /\
  filtered_by_region s = len admitted - len by_region /\
  filtered_by_amount s = len by_region - len out /\
  final_count s = len out /\
  (forall l, In l admitted -> Amount (h' l) = compute_amount (h l)).
Proof.
  intros Hvf. apply validate_and_filter_inv in Hvf as (Hs & Hout & _ & Hsum).
  intros admitted by_region by_min by_max.
  change (List.filter (valid_in h) ts) with admitted in *.
  assert (Hamt : forall l, In l admitted ->
                           Amount (h' l) = compute_amount (h l)).
  { intros l Hl. destruct (set_amounts_spec _ _ _ Hs l) as [Hin _].
    destruct (Hin Hl) as (a & Ha & ->). now rewrite Ha. }
  assert (Hreg : (filter_region h' region admitted).1 = by_region).
  { rewrite filter_region_spec. cbn [fst]. subst by_region.
    unfold region_ok. destruct region as [r|]; [|now apply filter_all].
    destruct (String.eqb r EmptyString); [now apply filter_all|].
    apply filter_ext_In. intros l Hl.
    destruct (set_amounts_spec _ _ _ Hs l) as [Hin _].
    destruct (Hin Hl) as (a & _ & ->). unfold region_is. cbn.
    destruct (Region (h l)) as [r'|]; [|done].
    destruct (String.eqb_spec r' r) as [->|Hne].
    - now rewrite bool_decide_eq_true_2.
    - rewrite bool_decide_eq_false_2; [done|congruence]. }
  assert (Hout' : out = by_max).
  { rewrite Hout, filtered_spec.
    rewrite filter_region_spec in Hreg. cbn [fst] in Hreg. rewrite Hreg.
    subst by_max by_min. unfold max_ok, min_ok, amount_le, amount_ge.
    destruct min_amount, max_amount;
      rewrite ?(filter_all (fun _ => true)) by done; reflexivity. }
  split; [exact Hout'|].
  rewrite Hsum. cbn [filtered_by_region filtered_by_amount final_count].
  rewrite filter_amount_spec. cbn [snd].
  rewrite (filter_region_spec h' region admitted) at 1. cbn [snd].
  rewrite Hreg.
  pose proof (filter_region_spec h' region admitted) as Hfr.
  rewrite Hfr in Hreg. cbn [fst] in Hreg. rewrite Hreg.
  repeat split; try done.
  rewrite Hout at 1. rewrite filtered_spec, Hreg. reflexivity.
Qed.

Lemma validate_and_filter_filters_in_order_witness :
  exists h' out inv s,
    validate_and_filter (heap_of sample_sales) (refs_of sample_sales)
      (Some "North") (Some 1000%float) (Some 100000%float)
    = Some (h', (out, inv, s)) /\
    out = [0%nat; 2%nat] /\
    filtered_by_region s = 4 - 3 /\
    filtered_by_amount s = 3 - 2 /\
    final_count s = 2.
Proof.
  eexists _, _, _, _. split; [reflexivity|].
  pose proof (validate_and_filter_filters_in_order
                (heap_of sample_sales) (refs_of sample_sales)
                (Some "North") (Some 1000%float) (Some 100000%float)
                _ _ _ _ eq_refl) as H.
  cbv zeta in H. destruct H as (H1 & H2 & H3 & H4 & _).
  split; [exact H1|]. split; [exact H2|]. split; [exact H3|exact H4].
Defined.

(** C6: run again on the list it returned, with the same parameters, the
    call returns the same list, rejects nothing, filters nothing, and
    leaves every dictionary as it was. *)
Theorem validate_and_filter_idempotent (h : heap) (ts : list loc)
    (region : option string) (min_amount max_amount : option float)
    (h1 : heap) (out1 : list loc) (inv1 : Z) (s1 : FilterSummary) :
  validate_and_filter h ts region min_amount max_amount
    = Some (h1, (out1, inv1, s1)) ->
  exists h2,
    validate_and_filter h1 out1 region min_amount max_amount
    = Some (h2, (out1, 0,
                 {| total_input := len out1;
                    invalid := 0;
                    filtered_by_region := 0;
                    filtered_by_amount := 0;
                    final_count := len out1 |})) /\
    forall l, h2 l = h1 l.
Proof.
  intros Hvf. apply validate_and_filter_inv in Hvf as (Hs & Hout & _ & _).
  set (valid := List.filter (valid_in h) ts) in *.
  assert (Hmem : forall l, In l out1 ->
            In l valid /\ region_ok region (h1 l) = true /\
            min_ok min_amount (h1 l) = true /\ max_ok max_amount (h1 l) = true).
  { intros l. rewrite Hout. apply filtered_In. }
  assert (Hst : forall l, In l valid ->
            exists a, compute_amount (h l) = Some a /\ h1 l = set_Amount a (h l)).
  { intros l Hl. now apply (set_amounts_spec _ _ _ Hs l). }
  assert (Hv1 : forall l, In l out1 -> valid_in h1 l = true).
  { intros l Hl. destruct (Hmem l Hl) as (Hl' & _).
    destruct (Hst l Hl') as (a & _ & Heq). unfold valid_in. rewrite Heq.
    rewrite is_valid_set_Amount. now apply filter_In in Hl'. }
  assert (Hc1 : forall l, In l out1 ->
            exists a, compute_amount (h1 l) = Some a /\ h1 l = set_Amount a (h1 l)).
  { intros l Hl. destruct (Hmem l Hl) as (Hl' & _).
    destruct (Hst l Hl') as (a & Ha & Heq). exists a.
    rewrite Heq, compute_amount_set_Amount. split; [done|reflexivity]. }
  assert (Hret : is_Some (set_amounts h1 out1)).
  { apply set_amounts_returns. intros l Hl.
    destruct (Hc1 l Hl) as (a & -> & _). eauto. }
  destruct Hret as [h2 Hs2].
  assert (Hh2 : forall l, h2 l = h1 l).
  { intros l. destruct (set_amounts_spec _ _ _ Hs2 l) as [Hin Hnin].
    destruct (in_dec Nat.eq_dec l out1) as [Hl|Hl]; [|now apply Hnin].
    destruct (Hin Hl) as (a & Ha & ->).
    destruct (Hc1 l Hl) as (a' & Ha' & Heq). congruence. }
  exists h2. split; [|exact Hh2].
  rewrite validate_and_filter_unfold.
  rewrite (filter_all (valid_in h1) out1 Hv1), (filter_none _ out1 Hv1), Hs2.
  cbn [mbind option_bind].
  assert (Hr : List.filter (fun x => region_ok region (h2 x)) out1 = out1).
  { apply filter_all. intros l Hl. rewrite Hh2. now apply Hmem. }
  assert (Hmn : List.filter (fun x => min_ok min_amount (h2 x)) out1 = out1).
  { apply filter_all. intros l Hl. rewrite Hh2. now apply Hmem. }
  assert (Hmx : List.filter (fun x => max_ok max_amount (h2 x)) out1 = out1).
  { apply filter_all. intros l Hl. rewrite Hh2. now apply Hmem. }
  rewrite filtered_spec, filter_region_spec. cbn [fst snd].
  rewrite filter_amount_spec. cbn [snd].
  rewrite !Hr, !Hmn, !Hmx, Z.sub_diag. reflexivity.
Qed.

Lemma validate_and_filter_idempotent_witness :
  exists h1 out1 inv1 s1 h2,
    validate_and_filter (heap_of sample_sales) (refs_of sample_sales)
      (Some "North") (Some 1000%float) (Some 100000%float)
    = Some (h1, (out1, inv1, s1)) /\
    validate_and_filter h1 out1
      (Some "North") (Some 1000%float) (Some 100000%float)
    = Some (h2, (out1, 0,
                 {| total_input := len out1;
                    invalid := 0;
                    filtered_by_region := 0;
                    filtered_by_amount := 0;
                    final_count := len out1 |})) /\
    forall l, h2 l = h1 l.
Proof.
  eexists _, _, _, _.
  destruct (validate_and_filter_idempotent
              (heap_of sample_sales) (refs_of sample_sales)
              (Some "North") (Some 1000%float) (Some 100000%float)
              _ _ _ _ eq_refl) as (h2 & H2 & Hh).
  exists h2. split; [reflexivity|]. split; [exact H2|exact Hh].
Defined.

Lemma int_mul_float_product q p a :
  int_mul_float q p = Some a -> a = quantity_times_price q p.
Proof.
  unfold int_mul_float, float_of_int, quantity_times_price, nearest_float.
  destruct (binary_normalize prec emax q 0 false); cbn; congruence.
Qed.

(** C9: the call writes ['Amount'] into the caller's own dictionaries:
    every valid record of the input list now carries the product of its
    quantity and its price (2 times 45000.0 makes 90000.0), its other
    keys as they were; nothing else in the store changes; and the
    returned list holds references out of the input list, so a later
    write through a returned reference is read back through the input
    list, and the other way round. *)
Theorem validate_and_filter_mutates_in_place (h : heap) (ts : list loc)
    (region : option string) (min_amount max_amount : option float)
    (h' : heap) (out : list loc) (inv : Z) (s : FilterSummary) :
  validate_and_filter h ts region min_amount max_amount
    = Some (h', (out, inv, s)) ->
  (forall l, In l ts -> is_valid (h l) = true ->
     exists q p, Quantity (h l) = Some q /\ UnitPrice (h l) = Some p /\
                 Amount (h' l) = Some (quantity_times_price q p) /\
                 h' l = set_Amount (quantity_times_price q p) (h l)) /\
  (forall l, ~ (In l ts /\ is_valid (h l) = true) -> h' l = h l) /\
  (forall j r, out !! j = Some r ->
     is_Some (Amount (h' r)) /\
     exists i, ts !! i = Some r /\
       forall t, (store h' r t <$> ts !! i) = Some t /\
                 (store h' r t <$> out !! j) = Some t) /\
  quantity_times_price 2 45000 = 90000%float /\
  quantity_times_price 40 0.125 = 5%float.
Proof.
  intros Hvf. apply validate_and_filter_inv in Hvf as (Hs & Hout & _ & _).
  assert (Hgain : forall l, In l ts -> is_valid (h l) = true ->
     exists q p, Quantity (h l) = Some q /\ UnitPrice (h l) = Some p /\
                 Amount (h' l) = Some (quantity_times_price q p) /\
                 h' l = set_Amount (quantity_times_price q p) (h l)).
  { intros l Hl Hv.
    destruct (set_amounts_spec _ _ _ Hs l) as [Hin _].
    destruct Hin as (a & Ha & Heq); [apply filter_In; now split|].
    unfold compute_amount in Ha.
    destruct (Quantity (h l)) as [q|]; [|done].
    destruct (UnitPrice (h l)) as [p|]; [|done].
    cbn in Ha. apply int_mul_float_product in Ha as ->.
    exists q, p. rewrite Heq. done. }
  split; [exact Hgain|]. split; [|split].
  - intros l Hn. apply (set_amounts_spec _ _ _ Hs l).
    intros Hin. apply filter_In in Hin. now apply Hn.
  - intros j r Hj.
    assert (Hr : In r out) by (apply list_elem_of_In; eapply list_elem_of_lookup_2; eauto).
    rewrite Hout in Hr. apply filtered_In in Hr as (Hr & _).
    apply filter_In in Hr as [Hr Hv].
    destruct (Hgain r Hr Hv) as (q & p & _ & _ & Ha & _).
    split; [rewrite Ha; eauto|].
    apply list_elem_of_In, list_elem_of_lookup_1 in Hr as [i Hi].
    exists i. split; [exact Hi|]. intros t.
    rewrite Hi, Hj. cbn. now rewrite store_same.
  - split; vm_compute; reflexivity.
Qed.

Lemma validate_and_filter_mutates_in_place_witness :
  exists h' out,
    out = [0%nat; 2%nat] /\
    (forall l, In l (refs_of sample_sales) ->
       is_valid (heap_of sample_sales l) = true ->
       exists q p, Quantity (heap_of sample_sales l) = Some q /\
                   UnitPrice (heap_of sample_sales l) = Some p /\
                   Amount (h' l) = Some (quantity_times_price q p) /\
                   h' l = set_Amount (quantity_times_price q p)
                            (heap_of sample_sales l)) /\
    map (fun l => Amount (h' l)) (refs_of sample_sales)
    = [Some 90000%float; Some 2500%float; Some 1500%float; None;
       Some 120000%float] /\
    (forall j r, out !! j = Some r ->
       is_Some (Amount (h' r)) /\
       exists i, refs_of sample_sales !! i = Some r /\
         forall t, (store h' r t <$> refs_of sample_sales !! i) = Some t /\
                   (store h' r t <$> out !! j) = Some t).
Proof.
  eexists _, _.
  destruct (validate_and_filter_mutates_in_place
              (heap_of sample_sales) (refs_of sample_sales)
              (Some "North") (Some 1000%float) (Some 100000%float)
              _ _ _ _ eq_refl) as (H1 & _ & H3 & _).
  split; [reflexivity|]. split; [exact H1|].
  split; [vm_compute; reflexivity|exact H3].
Defined.

(** * Parsing *)

Lemma split_length sep s : length (split sep s) = S (count_char sep s).
Proof.
  induction s as [|c s IH]; cbn; [done|].
  destruct (Ascii.eqb c sep); cbn; [now rewrite IH|].
  destruct (split sep s) as [|f fs]; cbn in *; [done|lia].
Qed.

Lemma parse_loop_spec lines : forall acc k,
  parse_loop lines (acc, k) =
  (acc ++ concat (map parsed_of lines),
   k + len (List.filter (fun l => negb (bool_decide (is_Some (head (parsed_of l))))) lines)).
Proof.
  unfold parse_loop, parsed_of.
  induction lines as [|l lines IH]; intros acc k; cbn.
  - now rewrite app_nil_r, Z.add_0_r.
  - destruct (parse_line l) as [t|r]; cbn; rewrite IH.
    + now rewrite <- app_assoc.
    + f_equal. unfold len. cbn [length]. lia.
Qed.

Lemma parse_transactions_concat lines :
  parse_transactions lines = concat (map parsed_of lines).
Proof. unfold parse_transactions. now rewrite parse_loop_spec. Qed.

Lemma parse_line_field_count line :
  count_char "|" line <> 7%nat ->
  parse_line line = inr (IncorrectFieldCount (S (count_char "|" line))).
Proof.
  intros H. unfold parse_line.
  pose proof (split_length "|" line) as Hlen.
  destruct (split "|" line) as [|f0 [|f1 [|f2 [|f3 [|f4 [|f5 [|f6 [|f7 [|f8 fs]]]]]]]]];
    cbn in Hlen; try (now rewrite <- Hlen).
  lia.
Qed.

Lemma split_eight line :
  count_char "|" line = 7%nat ->
  exists f0 f1 f2 f3 f4 f5 f6 f7,
    split "|" line = [f0; f1; f2; f3; f4; f5; f6; f7].
Proof.
  intros H. pose proof (split_length "|" line) as Hlen. rewrite H in Hlen.
  destruct (split "|" line) as [|f0 [|f1 [|f2 [|f3 [|f4 [|f5 [|f6 [|f7 [|f8 fs]]]]]]]]];
    cbn in Hlen; try lia.
  now exists f0, f1, f2, f3, f4, f5, f6, f7.
Qed.

(** The characters of a string. *)
Lemma remove_char_chars c s :
  list_ascii_of_string (remove_char c s) =
  List.filter (fun x => negb (Ascii.eqb x c)) (list_ascii_of_string s).
Proof.
  induction s as [|x s IH]; cbn; [done|].
  destruct (Ascii.eqb x c); cbn; now rewrite IH.
Qed.

Lemma replace_char_chars c d s :
  list_ascii_of_string (replace_char c d s) =
  map (fun x => if Ascii.eqb x c then d else x) (list_ascii_of_string s).
Proof. induction s as [|x s IH]; cbn; [done|]. now rewrite IH. Qed.

Lemma append_cons c a b : String c a +:+ b = String c (a +:+ b).
Proof. reflexivity. Qed.

Lemma append_empty_l b : EmptyString +:+ b = b.
Proof. reflexivity. Qed.

Lemma lstrip_spec s :
  exists pre, s = pre +:+ lstrip s /\ all_space pre = true /\
              forall c r, lstrip s = String c r -> is_space c = false.
Proof.
  induction s as [|c s (pre & Hs & Hp & Hh)]; cbn.
  - exists EmptyString. repeat split; intros; discriminate.
  - destruct (is_space c) eqn:Hc.
    + exists (String c pre). rewrite append_cons. cbn. rewrite Hc, Hp.
      repeat split; [congruence|done].
    + exists EmptyString. repeat split. intros c' r Heq. now simplify_eq.
Qed.

Lemma rstrip_spec s :
  exists post, s = rstrip s +:+ post /\ all_space post = true /\
               forall c, last_char (rstrip s) = Some c -> is_space c = false.
Proof.
  unfold last_char.
  induction s as [|c s (post & Hs & Hp & Hl)]; cbn.
  - exists EmptyString. repeat split; intros; discriminate.
  - destruct (rstrip s) as [|c' r] eqn:Hr.
    + destruct (is_space c) eqn:Hc.
      * exists (String c post). rewrite append_empty_l in *. cbn in *.
        rewrite Hc, Hp. repeat split; [congruence|done].
      * exists post. rewrite append_cons, append_empty_l in *. cbn in *.
        repeat split; [congruence|done|].
        intros c0 H0. now simplify_eq.
    + exists post. rewrite !append_cons in *. cbn in *.
      repeat split; [congruence|done|].
      intros c0 H0. apply Hl. rewrite <- H0.
      now destruct (list_ascii_of_string r).
Qed.

Lemma rstrip_head s c r :
  rstrip s = String c r -> exists r', s = String c r'.
Proof.
  destruct s as [|c0 s]; cbn; [done|].
  destruct (rstrip s); [destruct (is_space c0)|]; intros H; simplify_eq; eauto.
Qed.

Lemma strip_spec s :
  exists pre post,
    s = pre +:+ strip s +:+ post /\
    all_space pre = true /\ all_space post = true /\
    (forall c r, strip s = String c r -> is_space c = false) /\
    (forall c, last_char (strip s) = Some c -> is_space c = false).
Proof.
  unfold strip.
  destruct (lstrip_spec s) as (pre & Hs & Hp & Hh).
  destruct (rstrip_spec (lstrip s)) as (post & Hs' & Hp' & Hl).
  exists pre, post. repeat split; try done.
  - now rewrite <- Hs'.
  - intros c r Heq. apply rstrip_head in Heq as [r' Heq]. eauto.
Qed.

Lemma parse_line_wrong_count line :
  length (split "|" line) <> 8%nat ->
  parse_line line = inr (IncorrectFieldCount (length (split "|" line))).
Proof.
  intros H. unfold parse_line.
  destruct (split "|" line) as [|f0 [|f1 [|f2 [|f3 [|f4 [|f5 [|f6 [|f7 [|f8 fs]]]]]]]]];
    try reflexivity.
  now cbn in H.
Qed.

Lemma strip_trimmed f : trimmed f (strip f).
Proof. exact (strip_spec f). Qed.

(** The fields that [split] gives are the pieces of the line between its
    separators. *)
Lemma split_join sep s :
  join_with sep (split sep s) = s /\
  Forall (fun f => count_char sep f = 0%nat) (split sep s).
Proof.
  induction s as [|c s [IHj IHc]]; cbn [split].
  - split; [done|]. now repeat constructor.
  - destruct (Ascii.eqb c sep) eqn:E.
    + apply Ascii.eqb_eq in E as ->. split.
      * cbn [join_with]. destruct (split sep s) as [|f fs] eqn:Es.
        { pose proof (split_length sep s) as Hl. now rewrite Es in Hl. }
        now rewrite append_empty_l, IHj.
      * now constructor.
    + destruct (split sep s) as [|f fs] eqn:Es.
      { pose proof (split_length sep s) as Hl. now rewrite Es in Hl. }
      apply Forall_cons in IHc as [Hf Hfs]. split.
      * destruct fs as [|g gs]; cbn [join_with] in *; [now rewrite IHj|].
        now rewrite append_cons, IHj.
      * constructor; [|done]. cbn. now rewrite E.
Qed.

(** C5: a line that does not split into eight fields is skipped and the
    other lines of the batch are parsed as before, the fields being the
    pieces of the line between its pipes. Of an eight-field line every
    field is trimmed of the whitespace around it, the commas of the
    quantity and of the price are removed before [int] and [float] read
    them, and the commas of the product name become spaces. The laptop
    line parses to quantity 2 and price 45000.0, also with whitespace
    around its fields, and is admitted with amount 90000.0. *)
Theorem parse_transactions_skips_and_cleans :
  (forall before line after,
     parse_transactions (before ++ line :: after) =
     parse_transactions before ++ parsed_of line ++ parse_transactions after) /\
  (forall line,
     join_with "|" (split "|" line) = line /\
     Forall (fun f => count_char "|" f = 0%nat) (split "|" line)) /\
  (forall line,
     length (split "|" line) <> 8%nat ->
     parsed_of line = [] /\
     parse_line line = inr (IncorrectFieldCount (length (split "|" line)))) /\
  (forall line f0 f1 f2 f3 f4 f5 f6 f7,
     split "|" line = [f0; f1; f2; f3; f4; f5; f6; f7] ->
     exists t0 t1 t2 t3 t4 t5 t6 t7,
       trimmed f0 t0 /\ trimmed f1 t1 /\ trimmed f2 t2 /\ trimmed f3 t3 /\
       trimmed f4 t4 /\ trimmed f5 t5 /\ trimmed f6 t6 /\ trimmed f7 t7 /\
       match py_int (remove_char "," t4),
             py_float (remove_char "," t5) with
       | Some q, Some p =>
           parse_line line =
           inl {| TransactionID := Some t0;
                  Date := Some t1;
                  ProductID := Some t2;
                  ProductName := Some (replace_char "," " " t3);
                  Quantity := Some q;
                  UnitPrice := Some p;
                  CustomerID := Some t6;
                  Region := Some t7;
                  Amount := None |}
       | None, _ => parse_line line = inr (InvalidQuantity t4)
       | Some _, None => parse_line line = inr (InvalidUnitPrice t5)
       end) /\
  (forall s,
     list_ascii_of_string (remove_char "," s) =
     List.filter (fun c => negb (Ascii.eqb c ",")) (list_ascii_of_string s)) /\
  (forall s,
     list_ascii_of_string (replace_char "," " " s) =
     map (fun c => if Ascii.eqb c "," then " "%char else c)
         (list_ascii_of_string s)) /\
  parse_transactions [laptop_line] =
    [tx "T001" "2024-12-01" "P101" "Laptop" 2 45000 "C001" "North"] /\
  parse_transactions ["T001|P101"; spaced_line; "T003|d|P1|Pen|two|5|C1|N"] =
    [tx "T001" "2024-12-01" "P101" "Laptop  15 inch" 2 45000 "C001" "North"] /\
  exists h',
    validate_and_filter (heap_of (parse_transactions [laptop_line]))
      (refs_of (parse_transactions [laptop_line])) None None None
    = Some (h', ([0%nat], 0, mkFilterSummary 1 0 0 0 1)) /\
    Amount (h' 0%nat) = Some 90000%float.
Proof.
  split.
  { intros before line after.
    rewrite !parse_transactions_concat, map_app, concat_app. cbn.
    reflexivity. }
  split; [intros line; apply split_join|].
  split.
  { intros line H. pose proof (parse_line_wrong_count line H) as Hp.
    unfold parsed_of. now rewrite Hp. }
  split.
  { intros line f0 f1 f2 f3 f4 f5 f6 f7 Hsplit.
    exists (strip f0), (strip f1), (strip f2), (strip f3),
           (strip f4), (strip f5), (strip f6), (strip f7).
    repeat (split; [apply strip_trimmed|]).
    unfold parse_line. rewrite Hsplit.
    destruct (py_int _) as [q|]; [|reflexivity].
    destruct (py_float _) as [p|]; reflexivity. }
  split; [intros s; apply remove_char_chars|].
  split; [intros s; apply replace_char_chars|].
  split; [vm_compute; reflexivity|].
  split; [vm_compute; reflexivity|].
  eexists. split; vm_compute; reflexivity.
Qed.

(** * Enrichment *)

Lemma enrich_loop_spec m ts : forall acc,
  fold_left (fun enriched_transactions trans =>
               enriched_transactions ++ [enrich_one m trans]) ts acc
  = acc ++ map (enrich_one m) ts.
Proof.
  induction ts as [|t ts IH]; intros acc; cbn.
  - now rewrite app_nil_r.
  - rewrite IH. now rewrite <- app_assoc.
Qed.

Lemma enrich_sales_data_map ts m :
  enrich_sales_data ts m = map (enrich_one m) ts.
Proof.
  unfold enrich_sales_data. destruct ts as [|t ts]; [done|].
  now rewrite enrich_loop_spec.
Qed.

(** C2: the enriched list is as long as the input list. *)
Theorem enrich_sales_data_length (ts : list transaction)
    (m : gmap Z product_info) :
  length (enrich_sales_data ts m) = length ts /\
  map base (enrich_sales_data ts m) = ts.
Proof.
  rewrite enrich_sales_data_map. split.
  - apply length_map.
  - rewrite map_map. induction ts as [|t ts IH]; cbn; [done|].
    f_equal; [|exact IH].
    unfold enrich_one.
    destruct (re_search_digits _); [|done].
    destruct (py_int _); [|done].
    now destruct (m !! _).
Qed.

(** * The first run of digits *)

Lemma span_digits_spec s :
  s = (span_digits s).1 +:+ (span_digits s).2 /\
  all_digits (span_digits s).1 = true /\
  starts_with_digit (span_digits s).2 = false.
Proof.
  induction s as [|c s (Hs & Hd & Hr)]; cbn; [done|].
  destruct (is_digit c) eqn:Hc; cbn.
  - destruct (span_digits s) as [d r]. cbn in *. rewrite append_cons, Hc.
    repeat split; [congruence|done..].
  - rewrite append_empty_l. cbn. now rewrite Hc.
Qed.

Lemma span_digits_app run post :
  all_digits run = true -> starts_with_digit post = false ->
  span_digits (run +:+ post) = (run, post).
Proof.
  intros Hd Hp. induction run as [|c run IH].
  - rewrite append_empty_l. destruct post as [|c post]; cbn in *; [done|].
    now rewrite Hp.
  - rewrite append_cons. cbn in *. apply andb_true_iff in Hd as [Hc Hd].
    now rewrite Hc, IH.
Qed.

Lemma re_search_digits_Some s run :
  re_search_digits s = Some run <-> first_digit_run s run.
Proof.
  split.
  - induction s as [|c s IH]; cbn; [done|].
    destruct (is_digit c) eqn:Hc.
    + intros [= <-].
      pose proof (span_digits_spec (String c s)) as (Hs & Hd & Hr).
      cbn in Hs, Hd, Hr. rewrite Hc in Hs, Hd, Hr.
      eexists EmptyString, _. rewrite append_empty_l.
      split; [exact Hs|]. split; [done|]. split; [exact Hd|].
      split; [|exact Hr].
      now destruct (span_digits s).
    + intros H. destruct (IH H) as (pre & post & -> & Hp & Hd & Hne & Hr).
      exists (String c pre), post. rewrite append_cons. cbn. rewrite Hc.
      repeat split; done.
  - intros (pre & post & -> & Hp & Hd & Hne & Hr).
    induction pre as [|c pre IH].
    + rewrite append_empty_l. destruct run as [|c run]; [done|].
      rewrite append_cons. cbn in *.
      apply andb_true_iff in Hd as [Hc Hd]. rewrite Hc.
      now rewrite span_digits_app.
    + rewrite append_cons. cbn in *.
      apply andb_true_iff in Hp as [Hc Hp]. apply negb_true_iff in Hc.
      rewrite Hc. now apply IH.
Qed.

Lemma re_search_digits_None s run :
  re_search_digits s = None -> ~ first_digit_run s run.
Proof.
  intros Hn Hr. apply re_search_digits_Some in Hr. congruence.
Qed.

(** * [int] on a run of digits *)

Lemma digit_facts c :
  is_digit c = true ->
  is_space c = false /\ Ascii.eqb c "_" = false /\
  c <> "-"%char /\ c <> "+"%char.
Proof.
  destruct c as [[] [] [] [] [] [] [] []]; cbn; intros H;
    try discriminate H; repeat split; discriminate.
Qed.

Lemma lstrip_digits s : all_digits s = true -> lstrip s = s.
Proof.
  destruct s as [|c s]; cbn; [done|]. intros H.
  apply andb_true_iff in H as [Hc _].
  now destruct (digit_facts c Hc) as (-> & _).
Qed.

Lemma rstrip_digits s : all_digits s = true -> rstrip s = s.
Proof.
  induction s as [|c s IH]; cbn; [done|]. intros H.
  apply andb_true_iff in H as [Hc Hs]. rewrite (IH Hs).
  destruct (digit_facts c Hc) as (-> & _). now destruct s.
Qed.

Lemma drop_underscores_digits s : forall prev,
  all_digits s = true ->
  prev <> Some "_"%char ->
  drop_underscores prev s = Some s.
Proof.
  induction s as [|c s IH]; intros prev H Hprev; cbn.
  - destruct prev as [p|]; [|done].
    destruct (Ascii.eqb_spec p "_") as [->|Hne]; [done|].
    destruct p as [[] [] [] [] [] [] [] []]; done.
  - cbn in H. apply andb_true_iff in H as [Hc Hs].
    destruct (digit_facts c Hc) as (_ & -> & _).
    assert (Hrec : drop_underscores (Some c) s = Some s).
    { apply IH; [done|]. intros Heq. simplify_eq. }
    rewrite Hrec. cbn.
    destruct prev as [p|]; [|done].
    destruct p as [[] [] [] [] [] [] [] []]; try done.
Qed.

Lemma py_int_digits s :
  all_digits s = true -> s <> EmptyString ->
  py_int s = if Z.of_nat (String.length s) <=? max_str_digits
             then Some (decimal_value s) else None.
Proof.
  intros Hd Hne. unfold py_int, strip.
  rewrite lstrip_digits, rstrip_digits, drop_underscores_digits by done.
  cbn. destruct s as [|c s]; [done|].
  pose proof Hd as Hd'. cbn in Hd'. apply andb_true_iff in Hd' as [Hc _].
  destruct (digit_facts c Hc) as (_ & _ & Hm & Hp).
  assert (Hsign : take_sign (String c s) = (false, String c s)).
  { unfold take_sign.
    destruct c as [[] [] [] [] [] [] [] []]; try done. }
  rewrite Hsign, Hd. reflexivity.
Qed.

(** A quantity of more digits than [int] takes is an invalid quantity:
    the line is skipped, as one whose quantity is not a number. *)
Lemma long_quantity_is_skipped digits :
  all_digits digits = true ->
  4300 < Z.of_nat (String.length digits) ->
  py_int digits = None.
Proof.
  intros Hd Hlen. rewrite py_int_digits; [|done|now destruct digits].
  unfold max_str_digits.
  now destruct (Z.leb_spec (Z.of_nat (String.length digits)) 4300); [lia|].
Qed.

(** ** The number a run of digits writes *)

Lemma digit_of_Some c d :
  digit_of c = Some d -> is_digit c = true /\ digit_val c = d.
Proof.
  destruct c as [[] [] [] [] [] [] [] []]; vm_compute; intros H;
    try discriminate H; injection H as <-; split; reflexivity.
Qed.

Lemma is_digit_digit_of c :
  is_digit c = true -> digit_of c = Some (digit_val c).
Proof.
  destruct c as [[] [] [] [] [] [] [] []]; vm_compute; intros H;
    try discriminate H; reflexivity.
Qed.

Lemma append_empty_r s : s +:+ EmptyString = s.
Proof.
  induction s as [|x s IH]; [apply append_empty_l|].
  now rewrite append_cons, IH.
Qed.

Lemma append_assoc_one s c r :
  (s +:+ String c EmptyString) +:+ r = s +:+ String c r.
Proof.
  induction s as [|x s IH].
  - now rewrite !append_empty_l, append_cons, append_empty_l.
  - now rewrite !append_cons, IH.
Qed.

Lemma decimal_from_snoc s c : forall acc,
  decimal_from acc (s +:+ String c EmptyString)
  = 10 * decimal_from acc s + digit_val c.
Proof.
  induction s as [|x s IH]; intros acc.
  - now rewrite append_empty_l.
  - rewrite append_cons. cbn [decimal_from]. apply IH.
Qed.

Lemma all_digits_snoc s c :
  all_digits (s +:+ String c EmptyString) = all_digits s && is_digit c.
Proof.
  induction s as [|x s IH].
  - rewrite append_empty_l. cbn. now rewrite andb_true_r.
  - rewrite append_cons. cbn [all_digits]. rewrite IH. now rewrite andb_assoc.
Qed.

(** A numeral writes one number, the one [int] computes. *)
Lemma decimal_number_value s n :
  decimal_number s n ->
  n = decimal_value s /\ all_digits s = true /\ s <> EmptyString.
Proof.
  unfold decimal_value.
  induction 1 as [c d Hc|s n c d Hs (-> & Hall & Hne) Hc].
  - apply digit_of_Some in Hc as [Hc <-]. cbn. rewrite Hc. done.
  - apply digit_of_Some in Hc as [Hc <-].
    rewrite decimal_from_snoc, all_digits_snoc, Hall, Hc.
    repeat split. destruct s; [done|]. now rewrite append_cons.
Qed.

Lemma decimal_number_from s : forall pre n,
  decimal_number pre n -> all_digits s = true ->
  decimal_number (pre +:+ s) (decimal_from n s).
Proof.
  induction s as [|c s IH]; intros pre n Hpre Hs; cbn [decimal_from].
  - now rewrite append_empty_r.
  - cbn in Hs. apply andb_true_iff in Hs as [Hc Hs].
    rewrite <- append_assoc_one. apply IH; [|done].
    constructor; [done|]. now apply is_digit_digit_of.
Qed.

Lemma decimal_value_number s :
  all_digits s = true -> s <> EmptyString ->
  decimal_number s (decimal_value s).
Proof.
  destruct s as [|c s]; [done|]. intros Hs _. cbn in Hs.
  apply andb_true_iff in Hs as [Hc Hs]. unfold decimal_value. cbn.
  rewrite <- (append_empty_l s), <- append_cons.
  apply decimal_number_from; [|done].
  constructor. now apply is_digit_digit_of.
Qed.

(** [int] on a run of digits, in the words of the statements. *)
Lemma py_int_reads run :
  all_digits run = true -> run <> EmptyString ->
  forall n, py_int run = Some n <-> int_reads run n.
Proof.
  intros Hd Hne n. rewrite py_int_digits by done.
  unfold int_reads, max_str_digits.
  destruct (Z.leb_spec (Z.of_nat (String.length run)) 4300) as [Hle|Hgt].
  - split.
    + intros [= <-]. split; [done|]. now apply decimal_value_number.
    + intros [_ Hn]. apply decimal_number_value in Hn as (-> & _). done.
  - split; [done|]. intros [Hle _]. lia.
Qed.

Lemma enrich_one_base m t : base (enrich_one m t) = t.
Proof.
  unfold enrich_one.
  destruct (re_search_digits _); [|done].
  destruct (py_int _); [|done].
  now destruct (m !! _).
Qed.

(** What [enrich_one] does, by the digit run of the product id. *)
Lemma enrich_one_run m t run :
  first_digit_run (default EmptyString (ProductID t)) run ->
  enrich_one m t =
  match py_int run with
  | Some numeric_id =>
      match m !! numeric_id with
      | Some info =>
          {| base := t; API_Category := category info; API_Brand := brand info;
             API_Rating := rating info; API_Match := true |}
      | None => no_match t
      end
  | None => no_match t
  end.
Proof.
  intros Hr. apply re_search_digits_Some in Hr.
  unfold enrich_one. now rewrite Hr.
Qed.

Lemma first_digit_run_reads s run n :
  first_digit_run s run -> py_int run = Some n <-> int_reads run n.
Proof.
  intros (pre & post & _ & _ & Hd & Hne & _). now apply py_int_reads.
Qed.

Lemma enrich_one_no_run m t :
  (forall run, ~ first_digit_run (default EmptyString (ProductID t)) run) ->
  enrich_one m t = no_match t.
Proof.
  intros Hn. unfold enrich_one.
  destruct (re_search_digits _) as [run|] eqn:Hr; [|done].
  apply re_search_digits_Some in Hr. now apply Hn in Hr.
Qed.

(** C3: record by record, [API_Match] is true exactly when the product id
    has a first run of digits that [int] reads as a key of the mapping;
    the three API fields are then those of that entry; when [API_Match] is
    false they are [None]. So ["P101"] and ["P0101"] find the key 101 and
    ["P5X"] the key 5, while ["A12B101"], whose first run is 12, ["PXY"]
    and ["P7"] find nothing. *)
Theorem enrich_sales_data_matches_first_digit_run
    (ts : list transaction) (m : gmap Z product_info) :
  Forall2
    (fun t e =>
       let product_id := default EmptyString (ProductID t) in
       base e = t /\
       (API_Match e = true <->
        exists run n, first_digit_run product_id run /\
                      int_reads run n /\ is_Some (m !! n)) /\
       (forall run n info,
          first_digit_run product_id run ->
          int_reads run n ->
          m !! n = Some info ->
          API_Category e = category info /\
          API_Brand e = brand info /\
          API_Rating e = rating info) /\
       (API_Match e = false ->
        API_Category e = None /\ API_Brand e = None /\ API_Rating e = None))
    ts (enrich_sales_data ts m) /\
  map api_fields
    (enrich_sales_data
       (map with_product_id ["P101"; "P5X"; "P0101"; "A12B101"; "PXY"; "P7"])
       sample_mapping)
  = [(true, Some "laptops", Some "Acme", Some 4.5%float);
     (true, Some "mice", None, None);
     (true, Some "laptops", Some "Acme", Some 4.5%float);
     (false, None, None, None);
     (false, None, None, None);
     (false, None, None, None)].
Proof.
  split; [|vm_compute; reflexivity].
  rewrite enrich_sales_data_map.
  induction ts as [|t ts IH]; cbn [map]; constructor; [|exact IH].
  cbv zeta. split; [apply enrich_one_base|].
  destruct (re_search_digits (default EmptyString (ProductID t)))
    as [run|] eqn:Hrun.
  - apply re_search_digits_Some in Hrun.
    assert (Huniq : forall run', first_digit_run
                      (default EmptyString (ProductID t)) run' -> run' = run).
    { intros run' H'. apply re_search_digits_Some in H', Hrun. congruence. }
    assert (Hreads : forall n, py_int run = Some n <-> int_reads run n).
    { intros n. exact (first_digit_run_reads _ run n Hrun). }
    rewrite (enrich_one_run m t run Hrun).
    destruct (py_int run) as [id|] eqn:Hint.
    + assert (Hn : forall n, int_reads run n -> n = id).
      { intros n Hn. apply (Hreads n) in Hn. congruence. }
      destruct (m !! id) as [info|] eqn:Hm; cbn.
      * split; [|split].
        -- split; [|done]. intros _. exists run, id.
           split; [done|]. split; [now apply (Hreads id)|].
           rewrite Hm. eauto.
        -- intros run' n info' H' Hn' Hm'. apply Huniq in H' as ->.
           apply Hn in Hn' as ->. now simplify_eq.
        -- done.
      * split; [|split].
        -- split; [done|]. intros (run' & n & H' & Hn' & Hs).
           apply Huniq in H' as ->. apply Hn in Hn' as ->.
           rewrite Hm in Hs. now destruct Hs.
        -- intros run' n info' H' Hn' Hm'. apply Huniq in H' as ->.
           apply Hn in Hn' as ->. congruence.
        -- done.
    + assert (Hn : forall n, ~ int_reads run n).
      { intros n Hn. apply (Hreads n) in Hn. congruence. }
      cbn. split; [|split].
      * split; [done|]. intros (run' & n & H' & Hn' & _).
        apply Huniq in H' as ->. now apply Hn in Hn'.
      * intros run' n info' H' Hn'. apply Huniq in H' as ->.
        now apply Hn in Hn'.
      * done.
  - rewrite enrich_one_no_run
      by (intros run; now apply re_search_digits_None).
    cbn. split; [|split].
    + split; [done|]. intros (run & n & H' & _).
      now apply re_search_digits_None in H'.
    + intros run n info H'. now apply re_search_digits_None in H'.
    + done.
Qed.

(** A run of more than 4300 digits is not read, whatever number it
    writes: the record stays unmatched. *)
Lemma long_run_is_unmatched m t run :
  first_digit_run (default EmptyString (ProductID t)) run ->
  4300 < Z.of_nat (String.length run) ->
  enrich_one m t = no_match t.
Proof.
  intros Hr Hlen. rewrite (enrich_one_run m t run Hr).
  pose proof Hr as (pre & post & _ & _ & Hd & Hne & _).
  rewrite py_int_digits by done. unfold max_str_digits.
  now destruct (Z.leb_spec (Z.of_nat (String.length run)) 4300); [lia|].
Qed.

(** * Loops that do not raise *)

Lemma for_each_pure {S T} (body : S -> T -> option S) (g : S -> T -> S)
    (xs : list T) :
  (forall x, In x xs -> forall s, body s x = Some (g s x)) ->
  forall s, for_each body xs s = Some (fold_left g xs s).
Proof.
  induction xs as [|x xs IH]; intros H s; cbn; [done|].
  rewrite (H x (or_introl eq_refl)). cbn. apply IH.
  intros y Hy. apply H. now right.
Qed.

(** * Dictionaries in insertion order *)

Section Dict.
Context {V : Type}.
Implicit Types (d : list (string * V)) (k : string) (f : V -> V).

Lemma dict_get_update_same k f dflt d :
  dict_get k (dict_update k f dflt d)
  = Some (f (default dflt (dict_get k d))).
Proof.
  induction d as [|[k' v] d IH]; cbn.
  - now rewrite String.eqb_refl.
  - destruct (String.eqb k' k) eqn:E; cbn; rewrite E; [done|exact IH].
Qed.

Lemma dict_get_update_other k k' f dflt d :
  k' <> k -> dict_get k' (dict_update k f dflt d) = dict_get k' d.
Proof.
  intros Hne. induction d as [|[k0 v] d IH]; cbn.
  - destruct (String.eqb_spec k k'); [congruence|done].
  - destruct (String.eqb_spec k0 k) as [->|Hk]; cbn.
    + destruct (String.eqb_spec k k'); [congruence|done].
    + now rewrite IH.
Qed.

Lemma dict_keys_update k f dflt d :
  map fst (dict_update k f dflt d) =
  if bool_decide (k ∈ map fst d) then map fst d else map fst d ++ [k].
Proof.
  induction d as [|[k' v] d IH]; cbn.
  - rewrite bool_decide_eq_false_2; [done|]. apply not_elem_of_nil.
  - destruct (String.eqb_spec k' k) as [->|Hk]; cbn.
    + rewrite bool_decide_eq_true_2; [done|]. apply list_elem_of_here.
    + rewrite IH. destruct (bool_decide (k ∈ map fst d)) eqn:E.
      * apply bool_decide_eq_true_1 in E.
        rewrite bool_decide_eq_true_2; [done|]. now apply list_elem_of_further.
      * apply bool_decide_eq_false_1 in E.
        rewrite bool_decide_eq_false_2; [done|].
        intros H. apply elem_of_cons in H as [H|H]; congruence.
Qed.

Lemma dict_get_In k v d : dict_get k d = Some v -> In (k, v) d.
Proof.
  induction d as [|[k' v'] d IH]; cbn; [done|].
  destruct (String.eqb_spec k' k) as [->|Hk].
  - intros [= ->]. now left.
  - intros H. right. now apply IH.
Qed.

Lemma dict_In_get k v d :
  NoDup (map fst d) -> In (k, v) d -> dict_get k d = Some v.
Proof.
  induction d as [|[k' v'] d IH]; cbn; [done|].
  intros Hnd [Heq|Hin].
  - simplify_eq. now rewrite String.eqb_refl.
  - apply NoDup_cons in Hnd as [Hk Hnd].
    destruct (String.eqb_spec k' k) as [->|Hne].
    + exfalso. apply Hk. apply list_elem_of_In, in_map_iff. now exists (k, v).
    + now apply IH.
Qed.

Lemma dict_get_None k d : dict_get k d = None <-> ~ In k (map fst d).
Proof.
  induction d as [|[k' v'] d IH]; cbn; [tauto|].
  destruct (String.eqb_spec k' k) as [->|Hne]; [|rewrite IH]; split;
    intros H; try done; try tauto.
Qed.
End Dict.

(** * Grouping loops *)

Section Grouping.
Context {T V : Type} (key : T -> string) (step : T -> V -> V) (dflt : V).

Lemma group_get_present k ts : forall d v,
  dict_get k d = Some v ->
  dict_get k (fold_left (group_step key step dflt) ts d) = Some (group_value key step k ts v).
Proof.
  induction ts as [|t ts IH]; intros d v Hd; cbn; [done|].
  unfold group_step at 2.
  destruct (String.eqb_spec (key t) k) as [->|Hne].
  - apply IH. now rewrite dict_get_update_same, Hd.
  - apply IH. rewrite dict_get_update_other by done. exact Hd.
Qed.

Lemma group_get_absent k ts : forall d,
  dict_get k d = None ->
  dict_get k (fold_left (group_step key step dflt) ts d) =
  if existsb (fun t => String.eqb (key t) k) ts
  then Some (group_value key step k ts dflt) else None.
Proof.
  induction ts as [|t ts IH]; intros d Hd; cbn; [done|].
  unfold group_step at 2.
  destruct (String.eqb_spec (key t) k) as [->|Hne]; cbn.
  - apply group_get_present. now rewrite dict_get_update_same, Hd.
  - apply IH. rewrite dict_get_update_other by done. exact Hd.
Qed.

Lemma group_keys_NoDup ts : forall d,
  NoDup (map fst d) -> NoDup (map fst (fold_left (group_step key step dflt) ts d)).
Proof.
  induction ts as [|t ts IH]; intros d Hd; cbn; [done|].
  apply IH. unfold group_step. rewrite dict_keys_update.
  destruct (bool_decide _) eqn:E; [done|].
  apply bool_decide_eq_false_1 in E.
  apply NoDup_app. split; [done|]. split; [|apply NoDup_singleton].
  intros x Hx Hk. apply list_elem_of_singleton in Hk as ->. done.
Qed.

(** The items of the grouped dictionary: one per key that occurs, with
    the value accumulated over the records of that key. *)
Lemma group_items ts k v :
  In (k, v) (fold_left (group_step key step dflt) ts []) <->
  (exists t, In t ts /\ key t = k) /\ v = group_value key step k ts dflt.
Proof.
  pose proof (group_get_absent k ts [] eq_refl) as Hget.
  pose proof (group_keys_NoDup ts [] (NoDup_nil_2 (A:=string))) as Hnd.
  split.
  - intros Hin. apply dict_In_get in Hin; [|done].
    rewrite Hin in Hget.
    destruct (existsb _ ts) eqn:E; [|done].
    apply existsb_exists in E as (t & Ht & Hk).
    apply String.eqb_eq in Hk. split; [eauto|congruence].
  - intros [(t & Ht & Hk) ->]. apply dict_get_In. rewrite Hget.
    assert (E : existsb (fun t => String.eqb (key t) k) ts = true).
    { apply existsb_exists. exists t. split; [done|].
      now apply String.eqb_eq. }
    now rewrite E.
Qed.
End Grouping.

(** * The stable sort *)

Section StableSort.
Context {A : Type} (prec : A -> A -> bool).

Lemma insert_sorted_In x y l :
  In y (insert_sorted prec x l) <-> y = x \/ In y l.
Proof.
  induction l as [|z l IH]; cbn; [intuition|].
  destruct (prec z x); cbn; [rewrite IH|]; intuition.
Qed.

Lemma stable_sort_cons x l :
  stable_sort prec (x :: l) = insert_sorted prec x (stable_sort prec l).
Proof. reflexivity. Qed.

Lemma stable_sort_In y l : In y (stable_sort prec l) <-> In y l.
Proof.
  induction l as [|x l IH]; [done|].
  rewrite stable_sort_cons, insert_sorted_In, IH. cbn. intuition.
Qed.

Lemma insert_sorted_length x l :
  length (insert_sorted prec x l) = S (length l).
Proof.
  induction l as [|z l IH]; cbn; [done|].
  destruct (prec z x); cbn; [now rewrite IH|done].
Qed.

Lemma stable_sort_length l : length (stable_sort prec l) = length l.
Proof.
  induction l as [|x l IH]; [done|].
  rewrite stable_sort_cons, insert_sorted_length, IH. done.
Qed.

Lemma insert_sorted_Permutation x l : insert_sorted prec x l ≡ₚ x :: l.
Proof.
  induction l as [|z l IH]; cbn; [done|].
  destruct (prec z x); [|done]. rewrite IH. apply perm_swap.
Qed.

Lemma stable_sort_Permutation l : stable_sort prec l ≡ₚ l.
Proof.
  induction l as [|x l IH]; [done|].
  now rewrite stable_sort_cons, insert_sorted_Permutation, IH.
Qed.

(** [prec] is a strict weak order. *)
Hypothesis prec_asym : forall a b, prec a b = true -> prec b a = false.
Hypothesis prec_negtrans :
  forall a b c, prec a b = false -> prec b c = false -> prec a c = false.

(** [before a b]: [a] came before [b] in the list that was sorted. *)
Variable before : A -> A -> Prop.

Lemma insert_sorted_sorted x l :
  Forall (before x) l ->
  StronglySorted (in_order prec before) l ->
  StronglySorted (in_order prec before) (insert_sorted prec x l).
Proof.
  induction l as [|y l IH]; intros Hx Hs; cbn.
  - repeat constructor.
  - apply Forall_cons in Hx as [Hxy Hx].
    apply StronglySorted_inv in Hs as [Hs Hy].
    destruct (prec y x) eqn:E.
    + constructor; [now apply IH|].
      apply List.Forall_forall. intros z Hz.
      apply insert_sorted_In in Hz as [->|Hz].
      * split; [now apply prec_asym|congruence].
      * rewrite List.Forall_forall in Hy. now apply Hy.
    + constructor; [now constructor|].
      constructor; [now split|].
      apply List.Forall_forall. intros z Hz.
      rewrite List.Forall_forall in Hy, Hx.
      destruct (Hy z Hz) as [Hzy _].
      split; [now apply (prec_negtrans z y x)|]. intros _. now apply Hx.
Qed.

Lemma stable_sort_sorted l :
  StronglySorted before l -> StronglySorted (in_order prec before) (stable_sort prec l).
Proof.
  induction l as [|x l IH]; intros Hs; [constructor|].
  apply StronglySorted_inv in Hs as [Hs Hx].
  rewrite stable_sort_cons.
  apply insert_sorted_sorted; [|now apply IH].
  apply List.Forall_forall. intros z Hz.
  apply (proj1 (stable_sort_In z l)) in Hz.
  rewrite List.Forall_forall in Hx. now apply Hx.
Qed.
End StableSort.

Lemma StronglySorted_lookup {A} (R : A -> A -> Prop) (l : list A) :
  StronglySorted R l ->
  forall i j a b, (i < j)%nat -> l !! i = Some a -> l !! j = Some b -> R a b.
Proof.
  induction 1 as [|x l Hs IH Hx]; intros i j a b Hij Hi Hj; [done|].
  destruct j as [|j]; [lia|]. cbn in Hj.
  destruct i as [|i]; cbn in Hi.
  - simplify_eq. rewrite List.Forall_forall in Hx. apply Hx.
    apply list_elem_of_In. eapply list_elem_of_lookup_2; eauto.
  - apply (IH i j); [lia|done..].
Qed.

(** * The order of strings *)

Lemma ascii_compare_Lt_trans a b c :
  Ascii.compare a b = Lt -> Ascii.compare b c = Lt -> Ascii.compare a c = Lt.
Proof.
  unfold Ascii.compare. rewrite !N.compare_lt_iff. lia.
Qed.

Lemma string_compare_Lt_trans s1 : forall s2 s3,
  String.compare s1 s2 = Lt -> String.compare s2 s3 = Lt ->
  String.compare s1 s3 = Lt.
Proof.
  induction s1 as [|c1 s1 IH]; intros [|c2 s2] [|c3 s3]; cbn; try done.
  destruct (Ascii.compare c1 c2) eqn:E12; [|
    |done].
  - apply Ascii.compare_eq_iff in E12 as ->.
    destruct (Ascii.compare c2 c3); [apply IH|done..].
  - intros _. destruct (Ascii.compare c2 c3) eqn:E23; [| |done].
    + apply Ascii.compare_eq_iff in E23 as <-. now rewrite E12.
    + intros _. now rewrite (ascii_compare_Lt_trans _ _ _ E12 E23).
Qed.

Lemma string_ltb_asym a b : String.ltb a b = true -> String.ltb b a = false.
Proof.
  unfold String.ltb. rewrite (String.compare_antisym b a).
  now destruct (String.compare a b).
Qed.

Lemma string_ltb_negtrans a b c :
  String.ltb a b = false -> String.ltb b c = false -> String.ltb a c = false.
Proof.
  unfold String.ltb. intros Hab Hbc.
  destruct (String.compare a c) eqn:Hac; try done. exfalso.
  destruct (String.compare a b) eqn:E1; [|done|].
  - apply String.compare_eq_iff in E1 as ->. now rewrite Hac in Hbc.
  - destruct (String.compare b c) eqn:E2; [|done|].
    + apply String.compare_eq_iff in E2 as ->. congruence.
    + rewrite String.compare_antisym in E1, E2.
      apply CompOpp_iff in E1, E2. cbn in E1, E2.
      pose proof (string_compare_Lt_trans _ _ _ E2 E1) as H.
      rewrite String.compare_antisym, Hac in H. done.
Qed.

Lemma string_ltb_false_leb a b :
  String.ltb b a = false -> String.leb a b = true.
Proof.
  unfold String.ltb, String.leb. rewrite (String.compare_antisym a b).
  now destruct (String.compare b a).
Qed.

(** * [max] with a float key *)

Section MaxBy.
Context {A : Type} (key : A -> float).

Lemma max_by_scan rest : forall pre best post,
  is_nan (key best) = false ->
  (forall x, In x rest -> is_nan (key x) = false) ->
  (forall x, In x pre -> lex_lt (frank (key x)) (frank (key best))) ->
  (forall x, In x post -> lex_le (frank (key x)) (frank (key best))) ->
  exists pre' post',
    pre ++ best :: post ++ rest
    = pre' ++ fold_left (max_step key) rest best :: post' /\
    (forall x, In x pre' ->
       lex_lt (frank (key x)) (frank (key (fold_left (max_step key) rest best)))) /\
    (forall x, In x post' ->
       lex_le (frank (key x)) (frank (key (fold_left (max_step key) rest best)))).
Proof.
  induction rest as [|y rest IH]; intros pre best post Hb Hr Hpre Hpost.
  - exists pre, post. now rewrite app_nil_r.
  - cbn [fold_left]. unfold max_step at 2 4 6.
    assert (Hy : is_nan (key y) = false) by (apply Hr; now left).
    assert (Hr' : forall x, In x rest -> is_nan (key x) = false)
      by (intros x Hx; apply Hr; now right).
    destruct (key best <? key y)%float eqn:E.
    + apply ltb_true_iff in E as (_ & _ & E).
      destruct (IH (pre ++ best :: post) y [] Hy Hr') as (p & q & Heq & Hp & Hq).
      * intros x Hx. apply in_app_iff in Hx as [Hx|[<-|Hx]]; [|done|].
        -- eapply lex_lt_trans; eauto.
        -- destruct (Hpost x Hx) as [H|H]; [|now rewrite H].
           eapply lex_lt_trans; eauto.
      * intros x [].
      * exists p, q. split; [|done]. rewrite <- Heq.
        rewrite <- !app_assoc. cbn. done.
    + destruct (IH pre best (post ++ [y]) Hb Hr' Hpre) as (p & q & Heq & Hp & Hq).
      * intros x Hx. apply in_app_iff in Hx as [Hx|[Hx|[]]]; [now apply Hpost|].
        subst x.
        destruct (lex_total (frank (key y)) (frank (key best))) as [H|[H|H]];
          [now left|now right|].
        exfalso. apply not_true_iff_false in E. apply E.
        apply ltb_true_iff. done.
      * exists p, q. split; [|done]. rewrite <- Heq.
        rewrite <- !app_assoc. cbn. done.
Qed.

(** When some key is at least every key, [max_by] returns the first
    element whose key equals it. *)
Lemma max_by_first first rest m :
  In m (first :: rest) ->
  (forall x, In x (first :: rest) -> (key x <=? key m)%float = true) ->
  exists pre post,
    first :: rest = pre ++ max_by key first rest :: post /\
    (key (max_by key first rest) =? key m)%float = true /\
    (forall x, In x pre -> (key x =? key m)%float = false).
Proof.
  intros Hm Hmax.
  assert (Hnan : forall x, In x (first :: rest) -> is_nan (key x) = false).
  { intros x Hx. now apply Hmax, leb_true_iff in Hx as (? & _). }
  destruct (max_by_scan rest [] first [])
    as (pre & post & Heq & Hpre & Hpost).
  { apply Hnan. now left. }
  { intros x Hx. apply Hnan. now right. }
  { intros x []. }
  { intros x []. }
  cbn in Heq. fold (max_by key first rest) in *.
  set (b := max_by key first rest) in *.
  assert (Hb : In b (first :: rest)).
  { rewrite Heq. apply in_app_iff. right. now left. }
  assert (Hbm : frank (key b) = frank (key m)).
  { apply Hmax, leb_true_iff in Hb as (_ & _ & [Hlt|Heq']); [|done].
    exfalso. rewrite Heq in Hm.
    apply in_app_iff in Hm as [Hm|[Hm|Hm]].
    - apply Hpre in Hm.
      exact (lex_lt_irrefl _ (lex_lt_trans _ _ _ Hlt Hm)).
    - subst m. exact (lex_lt_irrefl _ Hlt).
    - apply Hpost in Hm as [Hm|Hm].
      + exact (lex_lt_irrefl _ (lex_lt_trans _ _ _ Hlt Hm)).
      + rewrite Hm in Hlt. exact (lex_lt_irrefl _ Hlt). }
  exists pre, post. split; [done|]. split.
  - apply eqb_true_iff. repeat split; [apply Hnan..|]; done.
  - intros x Hx. apply not_true_iff_false. intros Hxe.
    apply eqb_true_iff in Hxe as (_ & _ & Hxe).
    apply Hpre in Hx. rewrite Hxe, <- Hbm in Hx.
    exact (lex_lt_irrefl _ Hx).
Qed.
End MaxBy.

(** * Aggregation *)

Lemma sales_defined_sale ts t :
  sales_defined ts -> In t ts -> sale t = Some (sale_value t).
Proof.
  intros H Ht. unfold sales_defined in H. rewrite List.Forall_forall in H.
  destruct (H t Ht) as [x Hx]. unfold sale_value. now rewrite Hx.
Qed.

Lemma calculate_total_revenue_spec ts :
  ts <> [] -> sales_defined ts ->
  calculate_total_revenue ts = Some (round2 (running_sum everything ts)).
Proof.
  intros Hne Hs. unfold calculate_total_revenue.
  destruct ts as [|t0 ts0]; [done|]. set (ts := t0 :: ts0) in *.
  rewrite (for_each_pure _ (fun total t => (total + sale_value t)%float)).
  - reflexivity.
  - intros t Ht s. now rewrite (sales_defined_sale ts t Hs Ht).
Qed.

(** ** Regions *)

Lemma region_loop_spec ts :
  sales_defined ts ->
  region_loop ts =
  Some (fold_left (group_step get_region region_step (mkRegionData 0%float 0))
                  ts []).
Proof.
  intros Hs. unfold region_loop.
  apply (for_each_pure _ (group_step get_region region_step _)).
  intros t Ht d. now rewrite (sales_defined_sale ts t Hs Ht).
Qed.

Lemma region_group_value r ts : forall v,
  group_value get_region region_step r ts v =
  {| total_sales :=
       fold_left (fun acc t => if in_region r t
                               then (acc + sale_value t)%float else acc)
                 ts (total_sales v);
     transaction_count :=
       fold_left (fun acc t => if in_region r t then acc + 1 else acc)
                 ts (transaction_count v) |}.
Proof.
  unfold group_value, in_region.
  induction ts as [|t ts IH]; intros v; cbn; [now destruct v|].
  rewrite IH. now destruct (String.eqb (get_region t) r).
Qed.

Lemma region_wise_sales_items ts :
  ts <> [] -> sales_defined ts ->
  exists stats,
    region_wise_sales ts = Some stats /\
    forall r st,
      In (r, st) stats <->
      (exists t, In t ts /\ get_region t = r) /\
      st = region_entry (round2 (running_sum everything ts)) r ts.
Proof.
  intros Hne Hs. unfold region_wise_sales.
  rewrite calculate_total_revenue_spec, region_loop_spec by done.
  destruct ts as [|t0 ts0]; [done|]. set (ts := t0 :: ts0) in *.
  cbn [mbind option_bind]. eexists. split; [reflexivity|].
  intros r st. rewrite stable_sort_In, in_map_iff. split.
  - intros ([r' data] & Heq & Hin). cbn in Heq. simplify_eq.
    apply group_items in Hin as [Hex ->]. split; [done|].
    rewrite (region_group_value r ts (mkRegionData 0%float 0)). reflexivity.
  - intros [Hex ->].
    exists (r, group_value get_region region_step r ts (mkRegionData 0%float 0)).
    split.
    + unfold region_result.
      rewrite (region_group_value r ts (mkRegionData 0%float 0)).
      reflexivity.
    + apply group_items. now split.
Qed.

(** C7, as stated, fails: one sale of 0.125 in one region is the whole
    revenue, 100 percent, but the percentage is taken against the total
    rounded to 0.12 and comes out as 104.17. *)
Lemma rounded_total_skews_percentage :
  (0 <? running_sum everything pen_sale)%float = true /\
  (running_sum (in_region "North") pen_sale
   / running_sum everything pen_sale * 100)%float = 100%float /\
  calculate_total_revenue pen_sale = py_float "0.12" /\
  (rs_percentage <$> (region_wise_sales pen_sale ≫= dict_get "North"))
  = py_float "104.17".
Proof. repeat split; vm_compute; reflexivity. Qed.

(** C7 (amended): the percentage of a region is
    [round(group_revenue / total_revenue * 100, 2)], where [group_revenue]
    is the region's running sum at full precision and [total_revenue] is
    what [calculate_total_revenue] returns, the running sum of all sales
    rounded to two decimals; it is 0.0 when that rounded total is not
    positive. *)
Theorem region_wise_sales_percentage (ts : list transaction) :
  ts <> [] -> sales_defined ts ->
  exists total_revenue stats,
    calculate_total_revenue ts = Some total_revenue /\
    total_revenue = round2 (running_sum everything ts) /\
    region_wise_sales ts = Some stats /\
    (forall r, (exists t, In t ts /\ get_region t = r) <->
               (exists st, In (r, st) stats)) /\
    forall r st,
      In (r, st) stats ->
      rs_percentage st =
        round2 (if (0 <? total_revenue)%float
                then (running_sum (in_region r) ts / total_revenue * 100)%float
                else 0%float) /\
      rs_total_sales st = round2 (running_sum (in_region r) ts) /\
      rs_transaction_count st = count_of (in_region r) ts.
Proof.
  intros Hne Hs.
  destruct (region_wise_sales_items ts Hne Hs) as (stats & Hst & Hitems).
  exists (round2 (running_sum everything ts)), stats.
  split; [now apply calculate_total_revenue_spec|].
  split; [reflexivity|]. split; [exact Hst|]. split.
  - intros r. split.
    + intros Hex. eexists. apply Hitems. split; [exact Hex|reflexivity].
    + intros [st Hin]. now apply Hitems in Hin as [Hex _].
  - intros r st Hin. apply Hitems in Hin as [_ ->]. done.
Qed.

Lemma region_wise_sales_percentage_witness :
  exists total_revenue stats,
    calculate_total_revenue sample_sales = Some total_revenue /\
    total_revenue = round2 (running_sum everything sample_sales) /\
    region_wise_sales sample_sales = Some stats /\
    (forall r, (exists t, In t sample_sales /\ get_region t = r) <->
               (exists st, In (r, st) stats)) /\
    forall r st,
      In (r, st) stats ->
      rs_percentage st =
        round2 (if (0 <? total_revenue)%float
                then (running_sum (in_region r) sample_sales
                      / total_revenue * 100)%float
                else 0%float) /\
      rs_total_sales st = round2 (running_sum (in_region r) sample_sales) /\
      rs_transaction_count st = count_of (in_region r) sample_sales.
Proof.
  apply (region_wise_sales_percentage sample_sales).
  - discriminate.
  - repeat constructor; vm_compute; eauto.
Defined.

Lemma first_index_app_found {T} (sel : T -> bool) ts l :
  existsb sel ts = true ->
  first_index sel (ts ++ l) = first_index sel ts /\
  (first_index sel ts < length ts)%nat.
Proof.
  induction ts as [|t ts IH]; cbn; [done|].
  destruct (sel t); cbn; [lia|]. intros H. destruct (IH H). lia.
Qed.

Lemma first_index_app_absent {T} (sel : T -> bool) ts l :
  existsb sel ts = false ->
  first_index sel (ts ++ l) = (length ts + first_index sel l)%nat.
Proof.
  induction ts as [|t ts IH]; cbn; [done|].
  destruct (sel t); cbn; [done|]. intros H. now rewrite IH.
Qed.

Lemma StronglySorted_snoc {A} (R : A -> A -> Prop) l y :
  StronglySorted R l -> Forall (fun x => R x y) l ->
  StronglySorted R (l ++ [y]).
Proof.
  induction 1 as [|x l Hs IH Hx]; intros Hy; cbn.
  - repeat constructor.
  - apply Forall_cons in Hy as [Hxy Hy]. constructor; [now apply IH|].
    apply Forall_app. split; [done|]. now constructor.
Qed.

Lemma StronglySorted_impl_In {A} (R R' : A -> A -> Prop) l :
  (forall a b, In a l -> In b l -> R a b -> R' a b) ->
  StronglySorted R l -> StronglySorted R' l.
Proof.
  intros Himp Hs. induction Hs as [|x l Hs IH Hx]; [constructor|].
  constructor.
  - apply IH. intros a b Ha Hb. apply Himp; now right.
  - rewrite List.Forall_forall in *. intros y Hy.
    apply Himp; [now left|now right|now apply Hx].
Qed.

Lemma StronglySorted_map {A B} (f : A -> B) (R : B -> B -> Prop) l :
  StronglySorted R (map f l) ->
  StronglySorted (fun a b => R (f a) (f b)) l.
Proof.
  induction l as [|x l IH]; cbn; intros Hs; [constructor|].
  apply StronglySorted_inv in Hs as [Hs Hx].
  constructor; [now apply IH|].
  rewrite List.Forall_forall in *. intros y Hy. apply Hx.
  now apply in_map.
Qed.

Section GroupOrder.
Context {T V : Type} (key : T -> string) (step : T -> V -> V) (dflt : V).

Lemma group_keys_In ts k :
  In k (map fst (fold_left (group_step key step dflt) ts [])) <->
  existsb (has_key key k) ts = true.
Proof.
  rewrite in_map_iff. split.
  - intros ([k' v] & Hk & Hin). cbn in Hk. subst k'.
    apply group_items in Hin as [(t & Ht & Hkey) _].
    apply existsb_exists. exists t. split; [done|].
    now apply String.eqb_eq.
  - intros H. apply existsb_exists in H as (t & Ht & Hkey).
    apply String.eqb_eq in Hkey.
    exists (k, group_value key step k ts dflt). split; [done|].
    apply group_items. split; [eauto|done].
Qed.

(** The keys of a grouped dictionary stand in first-seen order. *)
Lemma group_keys_first_seen ts :
  StronglySorted
    (fun k1 k2 => (first_index (has_key key k1) ts
                   < first_index (has_key key k2) ts)%nat)
    (map fst (fold_left (group_step key step dflt) ts [])).
Proof.
  induction ts as [|t ts IH] using rev_ind; [constructor|].
  rewrite fold_left_app. cbn [fold_left]. unfold group_step at 1.
  rewrite dict_keys_update.
  set (keys := map fst (fold_left (group_step key step dflt) ts [])) in *.
  assert (Hold : forall k, In k keys ->
            first_index (has_key key k) (ts ++ [t]) = first_index (has_key key k) ts
            /\ (first_index (has_key key k) ts < length ts)%nat).
  { intros k Hk. apply first_index_app_found. now apply group_keys_In. }
  assert (Hkeep : StronglySorted
            (fun k1 k2 => (first_index (has_key key k1) (ts ++ [t])
                           < first_index (has_key key k2) (ts ++ [t]))%nat) keys).
  { eapply StronglySorted_impl_In; [|exact IH].
    intros a b Ha Hb Hab. cbn beta.
    destruct (Hold a Ha) as [-> _], (Hold b Hb) as [-> _]. exact Hab. }
  destruct (bool_decide (key t ∈ keys)) eqn:E; [exact Hkeep|].
  apply bool_decide_eq_false_1 in E.
  apply StronglySorted_snoc; [exact Hkeep|].
  apply List.Forall_forall. intros k Hk.
  destruct (Hold k Hk) as [-> Hlt].
  rewrite first_index_app_absent.
  - lia.
  - apply not_true_iff_false. intros Hex. apply E.
    apply list_elem_of_In. now apply group_keys_In.
Qed.
End GroupOrder.

(** ** Products *)

Lemma product_loop_spec ts :
  sales_defined ts ->
  product_loop ts =
  Some (fold_left
          (group_step get_product_name product_step (mkProductData 0 0%float))
          ts []).
Proof.
  intros Hs. unfold product_loop.
  apply (for_each_pure _ (group_step get_product_name product_step _)).
  intros t Ht d. now rewrite (sales_defined_sale ts t Hs Ht).
Qed.

Lemma product_group_value p ts : forall v,
  group_value get_product_name product_step p ts v =
  {| pd_quantity :=
       fold_left (fun acc t => if of_product p t
                               then acc + default 0 (Quantity t) else acc)
                 ts (pd_quantity v);
     pd_revenue :=
       fold_left (fun acc t => if of_product p t
                               then (acc + sale_value t)%float else acc)
                 ts (pd_revenue v) |}.
Proof.
  unfold group_value, of_product.
  induction ts as [|t ts IH]; intros v; cbn; [now destruct v|].
  rewrite IH. now destruct (String.eqb (get_product_name t) p).
Qed.

Lemma top_selling_products_spec ts n :
  sales_defined ts ->
  top_selling_products ts n = Some (slice_to n (product_ranking ts)).
Proof.
  intros Hs. unfold top_selling_products, product_ranking.
  rewrite product_loop_spec by done.
  destruct ts as [|t ts]; [|reflexivity].
  cbn. unfold slice_to. destruct (n <? 0); now rewrite firstn_nil.
Qed.

Lemma product_ranking_In ts p q r :
  In (p, q, r) (product_ranking ts) <->
  (exists t, In t ts /\ get_product_name t = p) /\
  q = total_quantity p ts /\
  r = round2 (running_sum (of_product p) ts).
Proof.
  unfold product_ranking. rewrite stable_sort_In, in_map_iff. split.
  - intros ([p' data] & Heq & Hin). cbn in Heq. simplify_eq.
    apply group_items in Hin as [Hex ->]. split; [done|].
    rewrite (product_group_value p ts (mkProductData 0 0%float)). done.
  - intros (Hex & -> & ->).
    exists (p, group_value get_product_name product_step p ts
                 (mkProductData 0 0%float)).
    split.
    + unfold product_tuple.
      rewrite (product_group_value p ts (mkProductData 0 0%float)). done.
    + apply group_items. now split.
Qed.

Lemma product_ranking_sorted ts :
  StronglySorted (ranked ts) (product_ranking ts).
Proof.
  unfold product_ranking.
  set (groups := fold_left _ ts []).
  assert (Hb : StronglySorted
                 (fun a b => (first_seen a.1.1 ts < first_seen b.1.1 ts)%nat)
                 (map product_tuple groups)).
  { apply (StronglySorted_map (fun x : string * Z * float => x.1.1)
             (fun k1 k2 => (first_seen k1 ts < first_seen k2 ts)%nat)).
    rewrite map_map.
    rewrite (map_ext _ fst) by (now intros [k v]).
    apply (group_keys_first_seen get_product_name product_step
             (mkProductData 0 0%float) ts). }
  eapply StronglySorted_impl_In; [|apply (stable_sort_sorted
    (fun y x : string * Z * float => x.1.2 <? y.1.2)
    ltac:(intros a b H; cbn beta in *; lia)
    ltac:(intros a b c H1 H2; cbn beta in *; lia) _ _ Hb)].
  intros a b _ _ [H1 H2]. cbn beta in *. unfold ranked. split; [lia|].
  intros Heq. apply H2. lia.
Qed.

Lemma product_ranking_NoDup ts :
  NoDup (map (fun x : string * Z * float => x.1.1) (product_ranking ts)).
Proof.
  unfold product_ranking.
  rewrite stable_sort_Permutation, map_map.
  rewrite (map_ext _ fst) by (now intros [k v]).
  apply group_keys_NoDup. constructor.
Qed.

Lemma In_take {A} (x : A) n l : In x (take n l) -> In x l.
Proof.
  intros H. apply list_elem_of_In, elem_of_take in H as (i & Hi & _).
  apply list_elem_of_In. eapply list_elem_of_lookup_2; eauto.
Qed.

Lemma NoDup_take_of {A} n (l : list A) : NoDup l -> NoDup (take n l).
Proof.
  intros H. rewrite <- (take_drop n l) in H.
  now apply NoDup_app in H as (H & _).
Qed.

(** C8, as stated, fails for a negative [n]: the slice [[:n]] then drops
    the last entries, and more than [n] are returned. *)
Lemma negative_n_returns_more_than_n :
  exists out,
    top_selling_products admitted_sales (-1) = Some out /\
    len out = 2 /\ ~ len out <= -1.
Proof.
  eexists. split; [vm_compute; reflexivity|].
  unfold len. cbn [length]. lia.
Qed.

(** C8 (amended): for [n >= 0] the call returns at most [n] entries, one
    per product name, each with the summed quantity of that name and its
    summed revenue rounded to two decimals; earlier entries have the
    larger quantity, and of two with the same quantity the one whose
    name was seen first comes first. *)
Theorem top_selling_products_ranked (ts : list transaction) (n : Z) :
  0 <= n -> sales_defined ts ->
  exists out,
    top_selling_products ts n = Some out /\
    len out <= n /\
    (forall p q r,
       In (p, q, r) out ->
       (exists t, In t ts /\ get_product_name t = p) /\
       q = total_quantity p ts /\
       r = round2 (running_sum (of_product p) ts)) /\
    NoDup (map (fun x : string * Z * float => x.1.1) out) /\
    (forall i j a b,
       (i < j)%nat -> out !! i = Some a -> out !! j = Some b ->
       a.1.2 >= b.1.2 /\
       (a.1.2 = b.1.2 -> (first_seen a.1.1 ts < first_seen b.1.1 ts)%nat)).
Proof.
  intros Hn Hs. exists (slice_to n (product_ranking ts)).
  split; [now apply top_selling_products_spec|].
  unfold slice_to. replace (n <? 0) with false by lia.
  split.
  { unfold len. pose proof (firstn_le_length (Z.to_nat n) (product_ranking ts)).
    lia. }
  split.
  { intros p q r Hin. apply In_take in Hin. now apply product_ranking_In. }
  split.
  { rewrite <- firstn_map. apply NoDup_take_of, product_ranking_NoDup. }
  intros i j a b Hij Hi Hj.
  apply lookup_take_Some in Hi as [Hi _], Hj as [Hj _].
  exact (StronglySorted_lookup _ _ (product_ranking_sorted ts) i j a b Hij Hi Hj).
Qed.

Lemma top_selling_products_ranked_witness :
  exists out,
    top_selling_products admitted_sales 2 = Some out /\
    len out <= 2 /\
    (forall p q r,
       In (p, q, r) out ->
       (exists t, In t admitted_sales /\ get_product_name t = p) /\
       q = total_quantity p admitted_sales /\
       r = round2 (running_sum (of_product p) admitted_sales)) /\
    NoDup (map (fun x : string * Z * float => x.1.1) out) /\
    (forall i j a b,
       (i < j)%nat -> out !! i = Some a -> out !! j = Some b ->
       a.1.2 >= b.1.2 /\
       (a.1.2 = b.1.2 ->
        (first_seen a.1.1 admitted_sales < first_seen b.1.1 admitted_sales)%nat)).
Proof.
  apply (top_selling_products_ranked admitted_sales 2).
  - lia.
  - repeat constructor; vm_compute; eauto.
Defined.

(** ** Days *)

Lemma daily_loop_spec ts :
  sales_defined ts ->
  daily_loop ts =
  Some (fold_left
          (group_step get_date daily_step (mkDailyData 0%float 0 ∅)) ts []).
Proof.
  intros Hs. unfold daily_loop.
  apply (for_each_pure _ (group_step get_date daily_step _)).
  intros t Ht d. now rewrite (sales_defined_sale ts t Hs Ht).
Qed.

Lemma daily_group_value d ts : forall v,
  dd_revenue (group_value get_date daily_step d ts v) =
    fold_left (fun acc t => if on_date d t
                            then (acc + sale_value t)%float else acc)
              ts (dd_revenue v) /\
  dd_transaction_count (group_value get_date daily_step d ts v) =
    fold_left (fun acc t => if on_date d t then acc + 1 else acc)
              ts (dd_transaction_count v).
Proof.
  unfold group_value, on_date.
  induction ts as [|t ts IH]; intros v; cbn; [done|].
  destruct (String.eqb (get_date t) d); apply IH.
Qed.

Lemma daily_sales_trend_spec ts :
  sales_defined ts -> daily_sales_trend ts = Some (trend_of ts).
Proof.
  intros Hs. unfold daily_sales_trend, trend_of.
  rewrite daily_loop_spec by done. now destruct ts.
Qed.

Lemma trend_of_In ts d s :
  In (d, s) (trend_of ts) ->
  (exists t, In t ts /\ get_date t = d) /\
  revenue s = round2 (running_sum (on_date d) ts) /\
  ds_transaction_count s = count_of (on_date d) ts.
Proof.
  unfold trend_of. rewrite stable_sort_In, in_map_iff.
  intros ([d' data] & Heq & Hin). cbn in Heq. simplify_eq.
  apply group_items in Hin as [Hex ->]. split; [done|]. cbn.
  destruct (daily_group_value d ts (mkDailyData 0%float 0 ∅)) as [-> ->].
  done.
Qed.

Lemma trend_of_nonempty ts : ts <> [] -> trend_of ts <> [].
Proof.
  intros Hne Htr. destruct ts as [|t ts]; [done|].
  assert (Hin : In (get_date t) (map fst (fold_left
            (group_step get_date daily_step (mkDailyData 0%float 0 ∅))
            (t :: ts) []))).
  { apply group_keys_In. cbn. unfold has_key. now rewrite String.eqb_refl. }
  apply in_map_iff in Hin as ([d data] & _ & Hin).
  apply (in_map daily_result) in Hin.
  apply (stable_sort_In (fun y x => String.ltb (fst y) (fst x))) in Hin.
  unfold trend_of in Htr. rewrite Htr in Hin. done.
Qed.

(** The trend is in ascending order of date. *)
Lemma trend_of_sorted ts :
  StronglySorted (fun a b => String.leb (fst a) (fst b) = true) (trend_of ts).
Proof.
  unfold trend_of. set (items := map daily_result _).
  assert (Hb : StronglySorted (fun _ _ : string * daily_stats => True) items).
  { clearbody items. induction items; constructor; [done|].
    now apply List.Forall_forall. }
  eapply StronglySorted_impl_In; [|apply (stable_sort_sorted
    (fun y x : string * daily_stats => String.ltb (fst y) (fst x))
    ltac:(intros a b; apply string_ltb_asym)
    ltac:(intros a b c; apply string_ltb_negtrans) _ _ Hb)].
  intros a b _ _ [H _]. now apply string_ltb_false_leb.
Qed.

(** The trend has an entry for every date of the input. *)
Lemma trend_of_date ts d :
  is_date_of ts d ->
  exists s, In (d, s) (trend_of ts) /\
            revenue s = daily_revenue d ts /\
            ds_transaction_count s = count_of (on_date d) ts.
Proof.
  intros Hd. unfold trend_of.
  set (data := group_value get_date daily_step d ts (mkDailyData 0%float 0 ∅)).
  exists (snd (daily_result (d, data))). split.
  - apply stable_sort_In, in_map_iff. exists (d, data). split; [done|].
    apply group_items. now split.
  - cbn. subst data.
    destruct (daily_group_value d ts (mkDailyData 0%float 0 ∅)) as [-> ->].
    done.
Qed.

Lemma string_leb_refl d : String.leb d d = true.
Proof.
  unfold String.leb. pose proof (String.compare_antisym d d) as Hrefl.
  destruct (String.compare d d); cbn in Hrefl; congruence.
Qed.

(** C10: in a non-empty set whose daily revenues are numbers (none is
    NaN), the trend holds the dates of the input and no others, in
    ascending order, each with the revenue and the count of its records;
    the peak is a date of the input whose revenue is at least that of
    every date, and among the dates that tie with it the peak is the
    smallest in the order of strings, [max] keeping the first maximal
    entry of the trend. *)
Theorem find_peak_sales_day_smallest_tied_date (ts : list transaction) :
  ts <> [] -> sales_defined ts ->
  (forall d, is_date_of ts d -> is_nan (daily_revenue d ts) = false) ->
  (exists trend,
     daily_sales_trend ts = Some trend /\
     trend <> [] /\
     StronglySorted (fun a b => String.leb (fst a) (fst b) = true) trend /\
     (forall d, In d (map fst trend) <-> is_date_of ts d) /\
     (forall d s, In (d, s) trend ->
        revenue s = daily_revenue d ts /\
        ds_transaction_count s = count_of (on_date d) ts)) /\
  exists d0,
    find_peak_sales_day ts
      = Some (Some d0, daily_revenue d0 ts, count_of (on_date d0) ts) /\
    is_date_of ts d0 /\
    (forall d, is_date_of ts d ->
       (daily_revenue d ts <=? daily_revenue d0 ts)%float = true) /\
    (forall d, is_date_of ts d ->
       (daily_revenue d ts =? daily_revenue d0 ts)%float = true ->
       String.leb d0 d = true).
Proof.
  intros Hne Hs Hnan.
  pose proof (trend_of_sorted ts) as Hsorted.
  assert (Hentry : forall d s, In (d, s) (trend_of ts) ->
            is_date_of ts d /\ revenue s = daily_revenue d ts /\
            ds_transaction_count s = count_of (on_date d) ts).
  { intros d s Hin. now apply trend_of_In in Hin. }
  split.
  { exists (trend_of ts). split; [now apply daily_sales_trend_spec|].
    split; [now apply trend_of_nonempty|]. split; [exact Hsorted|]. split.
    - intros d. split.
      + intros Hin. apply in_map_iff in Hin as ([d' s] & <- & Hin).
        now apply Hentry in Hin.
      + intros Hd. destruct (trend_of_date ts d Hd) as (s & Hin & _).
        apply in_map_iff. now exists (d, s).
    - intros d s Hin. now apply Hentry in Hin. }
  unfold find_peak_sales_day. rewrite daily_sales_trend_spec by done.
  destruct ts as [|t0 ts0]; [done|]. set (ts := t0 :: ts0) in *.
  cbn [mbind option_bind].
  destruct (trend_of ts) as [|first rest] eqn:Htr;
    [now apply trend_of_nonempty in Htr|].
  assert (Hnum : forall x, In x (first :: rest) ->
                           is_nan (revenue (snd x)) = false).
  { intros [d s] Hx. cbn [snd]. destruct (Hentry d s Hx) as (Hd & -> & _).
    now apply Hnan. }
  destruct (max_by_scan (fun x : string * daily_stats => revenue (snd x))
              rest [] first [])
    as (pre & post & Heq & Hpre & Hpost).
  { apply Hnum. now left. }
  { intros x Hx. apply Hnum. now right. }
  { intros x []. }
  { intros x []. }
  cbn [app] in Heq.
  change (max_by (fun x : string * daily_stats => revenue (snd x)) first rest)
    with (fold_left
            (max_step (fun x : string * daily_stats => revenue (snd x)))
            rest first).
  destruct (fold_left _ rest first) as [d0 s0] eqn:Eb.
  assert (Hb : In (d0, s0) (first :: rest)).
  { rewrite Heq. apply in_app_iff. right. now left. }
  destruct (Hentry d0 s0 Hb) as (Hd0 & Hrev0 & Hcnt0).
  exists d0. cbn [fst snd]. rewrite Hrev0, Hcnt0.
  split; [reflexivity|]. split; [exact Hd0|].
  assert (Hplace : forall d, is_date_of ts d ->
            exists s, revenue s = daily_revenue d ts /\
                      (In (d, s) pre \/ (d, s) = (d0, s0) \/ In (d, s) post)).
  { intros d Hd. destruct (trend_of_date ts d Hd) as (s & Hin & Hrev & _).
    exists s. split; [done|]. rewrite Htr, Heq in Hin.
    apply in_app_iff in Hin as [Hin|[Hin|Hin]]; [now left| |now right; right].
    right. left. now symmetry. }
  split.
  - intros d Hd. destruct (Hplace d Hd) as (s & Hrev & Hwhere).
    apply leb_true_iff. repeat split; [now apply Hnan..|].
    rewrite <- Hrev, <- Hrev0.
    destruct Hwhere as [Hin|[Hin|Hin]].
    + left. exact (Hpre _ Hin).
    + injection Hin as -> ->. now right.
    + exact (Hpost _ Hin).
  - intros d Hd Htie. destruct (Hplace d Hd) as (s & Hrev & Hwhere).
    apply eqb_true_iff in Htie as (_ & _ & Htie).
    rewrite <- Hrev, <- Hrev0 in Htie.
    destruct Hwhere as [Hin|[Hin|Hin]].
    + apply Hpre in Hin. cbn [snd] in Hin. rewrite Htie in Hin.
      now apply lex_lt_irrefl in Hin.
    + injection Hin as -> ->. apply string_leb_refl.
    + rewrite Heq in Hsorted. clear -Hsorted Hin.
      induction pre as [|p pre IH]; cbn in Hsorted.
      * apply StronglySorted_inv in Hsorted as [_ Hall].
        rewrite List.Forall_forall in Hall. exact (Hall (d, s) Hin).
      * apply StronglySorted_inv in Hsorted as [Hsorted _]. now apply IH.
Qed.

Lemma find_peak_sales_day_smallest_tied_date_witness :
  find_peak_sales_day admitted_sales
    = Some (Some "2024-12-01", 90000%float, 2) /\
  daily_revenue "2024-12-02" admitted_sales = 90000%float /\
  exists d0,
    find_peak_sales_day admitted_sales
      = Some (Some d0, daily_revenue d0 admitted_sales,
              count_of (on_date d0) admitted_sales) /\
    is_date_of admitted_sales d0 /\
    (forall d, is_date_of admitted_sales d ->
       (daily_revenue d admitted_sales
        <=? daily_revenue d0 admitted_sales)%float = true) /\
    (forall d, is_date_of admitted_sales d ->
       (daily_revenue d admitted_sales
        =? daily_revenue d0 admitted_sales)%float = true ->
       String.leb d0 d = true).
Proof.
  split; [vm_compute; reflexivity|]. split; [vm_compute; reflexivity|].
  apply (find_peak_sales_day_smallest_tied_date admitted_sales).
  - discriminate.
  - repeat constructor; vm_compute; eauto.
  - intros d (t & Ht & <-).
    repeat (destruct Ht as [<-|Ht]; [vm_compute; reflexivity|]).
    destruct Ht.
Defined.

(** Outside the theorem: a day whose revenue is NaN and that comes first
    by date stays the peak, no later revenue being greater than it. *)
Lemma nan_day_stays_the_peak :
  (fun r : option string * float * Z => r.1.1)
    <$> find_peak_sales_day nan_day_sales = Some (Some "2024-12-01") /\
  is_nan (daily_revenue "2024-12-01" nan_day_sales) = true /\
  daily_revenue "2024-12-02" nan_day_sales = 100%float /\
  daily_revenue "2024-12-03" nan_day_sales = 100%float.
Proof. repeat split; vm_compute; reflexivity. Qed.

(** On [admitted_sales] the first and the second of December tie at
    90000.0; the peak is the first, though the second was seen first. *)
Lemma peak_of_admitted_sales :
  find_peak_sales_day admitted_sales = Some (Some "2024-12-01", 90000%float, 2) /\
  first_index (on_date "2024-12-02") admitted_sales = 0%nat.
Proof. split; vm_compute; reflexivity. Qed.

(** * More of [utils/file_handler.py] *)

Lemma validate_line_format_count line :
  validate_line_format line = true <-> count_char "|" line = 7%nat.
Proof.
  unfold validate_line_format. rewrite split_length, Nat.eqb_eq. lia.
Qed.

Lemma get_file_statistics_fold lines : forall stats,
  fold_left
    (fun stats line =>
       if validate_line_format line
       then {| total_lines := total_lines stats;
               valid_format := valid_format stats + 1;
               invalid_format := invalid_format stats |}
       else {| total_lines := total_lines stats;
               valid_format := valid_format stats;
               invalid_format := invalid_format stats + 1 |})
    lines stats
  = {| total_lines := total_lines stats;
       valid_format :=
         valid_format stats + len (List.filter validate_line_format lines);
       invalid_format :=
         invalid_format stats
         + len (List.filter (fun l => negb (validate_line_format l)) lines) |}.
Proof.
  induction lines as [|l lines IH]; intros stats; cbn [fold_left List.filter].
  - unfold len. cbn. rewrite !Z.add_0_r. now destruct stats.
  - rewrite IH. destruct (validate_line_format l); cbn;
      f_equal; unfold len; cbn [length]; lia.
Qed.

(** X1: a line has the expected format exactly when it holds seven
    pipes; the statistics count every line once, as valid or as invalid. *)
Theorem get_file_statistics_counts (lines : list string) :
  let stats := get_file_statistics lines in
  total_lines stats = len lines /\
  valid_format stats
    = len (List.filter (fun l => Nat.eqb (count_char "|" l) 7) lines) /\
  valid_format stats + invalid_format stats = total_lines stats /\
  0 <= valid_format stats /\ 0 <= invalid_format stats.
Proof.
  cbv zeta. unfold get_file_statistics. rewrite get_file_statistics_fold.
  cbn [total_lines valid_format invalid_format].
  pose proof (len_filter_split validate_line_format lines) as Hsplit.
  pose proof (len_nonneg (List.filter validate_line_format lines)).
  pose proof (len_nonneg
                (List.filter (fun l => negb (validate_line_format l)) lines)).
  assert (Hf : List.filter validate_line_format lines
               = List.filter (fun l => Nat.eqb (count_char "|" l) 7) lines).
  { apply filter_ext_In. intros l _.
    destruct (Nat.eqb (count_char "|" l) 7) eqn:E.
    - apply validate_line_format_count. now apply Nat.eqb_eq.
    - apply not_true_iff_false. intros Hv.
      apply validate_line_format_count in Hv. apply Nat.eqb_neq in E. done. }
  rewrite <- Hf. repeat split; lia.
Qed.

Lemma parsed_of_length line :
  (length (parsed_of line) <= if validate_line_format line then 1 else 0)%nat.
Proof.
  unfold parsed_of, validate_line_format.
  destruct (Nat.eqb (length (split "|" line)) 8) eqn:E.
  - destruct (parse_line line); cbn; lia.
  - apply Nat.eqb_neq in E. rewrite (parse_line_wrong_count line E). cbn. lia.
Qed.

(** X2: the parser accounts for every line: it is parsed or it is
    skipped; a line of the wrong format is always skipped, so no more
    records are parsed than the statistics count as valid. *)
Theorem parse_transactions_counts (raw_lines : list string) :
  let '(transactions, skipped_count) := parse_loop raw_lines ([], 0) in
  transactions = parse_transactions raw_lines /\
  len transactions + skipped_count = len raw_lines /\
  len transactions <= valid_format (get_file_statistics raw_lines) /\
  invalid_format (get_file_statistics raw_lines) <= skipped_count.
Proof.
  unfold parse_transactions. rewrite parse_loop_spec. cbn [fst app].
  unfold get_file_statistics. rewrite get_file_statistics_fold.
  cbn [total_lines valid_format invalid_format].
  pose proof (len_filter_split validate_line_format raw_lines) as Hsum.
  assert (Hlen : forall lines,
            len (concat (map parsed_of lines))
            + len (List.filter
                     (fun l => negb (bool_decide (is_Some (head (parsed_of l)))))
                     lines) = len lines /\
            len (concat (map parsed_of lines))
            <= len (List.filter validate_line_format lines)).
  { induction lines as [|l lines [IH1 IH2]]; [done|].
    cbn [map concat List.filter]. rewrite len_app.
    pose proof (parsed_of_length l) as Hl.
    unfold parsed_of in *.
    destruct (parse_line l) as [t|r]; destruct (validate_line_format l);
      cbn in Hl |- *; unfold len in *; cbn [length] in *; try lia. }
  destruct (Hlen raw_lines) as [H1 H2].
  split; [reflexivity|]. split; [lia|]. split; lia.
Qed.

(** Stripping twice is stripping once. *)
Lemma lstrip_fixed s :
  (forall c r, s = String c r -> is_space c = false) -> lstrip s = s.
Proof.
  destruct s as [|c s]; cbn; [done|]. intros H.
  now rewrite (H c s eq_refl).
Qed.

Lemma rstrip_fixed s :
  (forall c, last_char s = Some c -> is_space c = false) -> rstrip s = s.
Proof.
  unfold last_char. induction s as [|c s IH]; cbn; [done|]. intros H.
  destruct s as [|c' s'].
  - cbn in *. now rewrite (H c eq_refl).
  - rewrite IH.
    + reflexivity.
    + intros c0 Hc0. apply H. exact Hc0.
Qed.

Lemma strip_strip s : strip (strip s) = strip s.
Proof.
  destruct (strip_spec s) as (pre & post & _ & _ & _ & Hhead & Hlast).
  unfold strip at 1. rewrite (lstrip_fixed (strip s)) by exact Hhead.
  now apply rstrip_fixed.
Qed.

Lemma replace_char_count c d s :
  c <> d -> count_char c (replace_char c d s) = 0%nat.
Proof.
  intros Hne. induction s as [|x s IH]; cbn; [done|].
  rewrite IH. destruct (Ascii.eqb_spec x c) as [->|Hx].
  - destruct (Ascii.eqb_spec d c); [congruence|done].
  - destruct (Ascii.eqb_spec x c); [congruence|done].
Qed.

(** X3: every record the parser builds has the eight keys and no
    ['Amount']; its identifiers, date and region carry no surrounding
    whitespace and its product name no comma. *)
Theorem parse_transactions_shape (raw_lines : list string) :
  Forall parsed_shape (parse_transactions raw_lines).
Proof.
  rewrite parse_transactions_concat. apply List.Forall_forall. intros t Ht.
  apply in_concat in Ht as (ts & Hts & Ht).
  apply in_map_iff in Hts as (line & <- & _).
  unfold parsed_of in Ht.
  destruct (parse_line line) as [t'|] eqn:Hp; [|done].
  destruct Ht as [<-|[]].
  unfold parse_line in Hp.
  destruct (split "|" line)
    as [|f0 [|f1 [|f2 [|f3 [|f4 [|f5 [|f6 [|f7 [|f8 fs]]]]]]]]]; try done.
  destruct (py_int _) as [q|]; [|done].
  destruct (py_float _) as [p|]; [|done].
  injection Hp as <-.
  eexists _, _, _, _, _, _, _, _. split; [reflexivity|].
  rewrite !strip_strip. repeat split; try reflexivity.
  now apply replace_char_count.
Qed.

(** A product name may still end in a blank: the comma of ["Mouse,"]
    becomes a space after the name was stripped. *)
Lemma product_name_keeps_trailing_blank :
  ProductName <$> head (parse_transactions ["T1|d|P1|Mouse,|1|2|C1|N"])
  = Some (Some "Mouse ").
Proof. vm_compute. reflexivity. Qed.

Lemma filter_nothing {A} (f : A -> bool) (l : list A) :
  (forall x, In x l -> f x = false) -> List.filter f l = [].
Proof.
  induction l as [|x l IH]; intros H; cbn; [done|].
  rewrite (H x (or_introl eq_refl)). apply IH.
  intros y Hy. apply H. now right.
Qed.

Lemma keep_lines_spec all_lines lines :
  keep_lines all_lines lines =
  lines ++ List.filter (fun l => negb (String.eqb l EmptyString))
             (map strip (drop 1 all_lines)).
Proof.
  unfold keep_lines. generalize (drop 1 all_lines) as ls. intros ls.
  revert lines. induction ls as [|l ls IH]; intros lines; cbn.
  - now rewrite app_nil_r.
  - rewrite IH. destruct (String.eqb (strip l) EmptyString); cbn; [done|].
    now rewrite <- app_assoc.
Qed.

Lemma try_encodings_spec open_file encs : forall lines kept enc,
  try_encodings open_file encs lines = inr (kept, Some enc) ->
  exists before after all_lines,
    encs = before ++ enc :: after /\
    open_file enc = ReadLines all_lines /\
    kept = keep_lines all_lines lines /\
    Forall (fun e => open_file e = RaisesUnicodeDecodeError \/
                     open_file e = RaisesOtherException) before.
Proof.
  induction encs as [|e encs IH]; intros lines kept enc H; cbn in H; [done|].
  destruct (open_file e) as [all_lines| | |] eqn:He; try done.
  - injection H as <- <-. exists [], encs, all_lines. repeat split; done.
  - destruct (IH _ _ _ H) as (b & a & al & -> & Ho & Hk & Hb).
    exists (e :: b), a, al. repeat split; try done. constructor; auto.
  - destruct (IH _ _ _ H) as (b & a & al & -> & Ho & Hk & Hb).
    exists (e :: b), a, al. repeat split; try done. constructor; auto.
Qed.

(** X4: what [read_sales_data] returns is never empty; it is the lines
    after the header, stripped, without the blank ones, of the first
    encoding under which the file could be read, every earlier one having
    failed to decode it. *)
Theorem read_sales_data_returns (open_file : encoding -> read_attempt)
    (lines : list string) :
  read_sales_data open_file = inr lines ->
  lines <> [] /\
  Forall (fun l => l <> EmptyString /\ strip l = l) lines /\
  exists before enc after all_lines,
    encodings = before ++ enc :: after /\
    open_file enc = ReadLines all_lines /\
    Forall (fun e => open_file e = RaisesUnicodeDecodeError \/
                     open_file e = RaisesOtherException) before /\
    lines = List.filter (fun l => negb (String.eqb l EmptyString))
              (map strip (drop 1 all_lines)).
Proof.
  unfold read_sales_data.
  destruct (try_encodings open_file encodings []) as [e|[kept [enc|]]] eqn:Ht;
    try done.
  destruct kept as [|k kept]; [done|]. intros [= <-].
  apply try_encodings_spec in Ht as (b & a & al & Henc & Ho & Hk & Hb).
  rewrite keep_lines_spec in Hk. cbn [app] in Hk.
  split; [done|]. split.
  - rewrite Hk. apply List.Forall_forall. intros l Hl.
    apply filter_In in Hl as [Hl Hne]. apply in_map_iff in Hl as (l0 & <- & _).
    split; [|apply strip_strip].
    intros Heq. rewrite Heq in Hne. done.
  - exists b, enc, a, al. done.
Qed.

Lemma read_sales_data_returns_witness :
  [laptop_line] <> [] /\
  Forall (fun l => l <> EmptyString /\ strip l = l) [laptop_line] /\
  exists before enc after all_lines,
    encodings = before ++ enc :: after /\
    latin_file enc = ReadLines all_lines /\
    Forall (fun e => latin_file e = RaisesUnicodeDecodeError \/
                     latin_file e = RaisesOtherException) before /\
    [laptop_line] = List.filter (fun l => negb (String.eqb l EmptyString))
                      (map strip (drop 1 all_lines)).
Proof.
  apply (read_sales_data_returns latin_file [laptop_line]).
  vm_compute. reflexivity.
Defined.

(** X5: the ways [read_sales_data] fails: a file that is missing at the
    first attempt is reported as not found; a file that no encoding
    reads is a [ValueError]; and so is a file that holds nothing below
    its header but blank lines. *)
Theorem read_sales_data_raises (open_file : encoding -> read_attempt) :
  (open_file utf_8 = RaisesFileNotFoundError ->
   read_sales_data open_file = inl FileNotFoundError) /\
  ((forall enc, open_file enc = RaisesUnicodeDecodeError \/
                open_file enc = RaisesOtherException) ->
   read_sales_data open_file = inl ValueError) /\
  (forall all_lines,
     open_file utf_8 = ReadLines all_lines ->
     Forall (fun l => strip l = EmptyString) (drop 1 all_lines) ->
     read_sales_data open_file = inl ValueError).
Proof.
  unfold read_sales_data, encodings. split; [|split].
  - intros H. cbn. now rewrite H.
  - intros H. cbn.
    destruct (H utf_8) as [-> | ->], (H latin_1) as [-> | ->],
      (H cp1252) as [-> | ->], (H iso_8859_1) as [-> | ->]; reflexivity.
  - intros all_lines Ho Hblank. cbn. rewrite Ho, keep_lines_spec. cbn [app].
    rewrite filter_nothing; [done|]. intros l Hl.
    apply in_map_iff in Hl as (l0 & <- & Hl0).
    rewrite List.Forall_forall in Hblank. now rewrite (Hblank l0 Hl0).
Qed.

(** * More of [validate_and_filter] *)

Lemma len_filter_le {A} (f : A -> bool) (l : list A) :
  0 <= len (List.filter f l) <= len l.
Proof.
  pose proof (len_filter_split f l).
  pose proof (len_nonneg (List.filter f l)).
  pose proof (len_nonneg (List.filter (fun x => negb (f x)) l)). lia.
Qed.

Lemma filter_sublist {A} (f : A -> bool) (l : list A) :
  sublist (List.filter f l) l.
Proof.
  induction l as [|x l IH]; cbn; [constructor|].
  destruct (f x); now constructor.
Qed.

(** X6: the summary adds up: every input record is counted once, as
    invalid, as removed by the region filter, as removed by the amount
    filters, or as kept; and the records kept are records of the input,
    in the order of the input. *)
Theorem validate_and_filter_summary_adds_up (h : heap) (ts : list loc)
    (region : option string) (min_amount max_amount : option float)
    (h' : heap) (out : list loc) (inv : Z) (s : FilterSummary) :
  validate_and_filter h ts region min_amount max_amount
    = Some (h', (out, inv, s)) ->
  total_input s
    = invalid s + filtered_by_region s + filtered_by_amount s + final_count s /\
  0 <= invalid s /\ 0 <= filtered_by_region s /\
  0 <= filtered_by_amount s /\ 0 <= final_count s /\
  inv = invalid s /\
  sublist out ts.
Proof.
  intros Hvf. apply validate_and_filter_inv in Hvf as (_ & Hout & Hinv & ->).
  cbn [total_input invalid filtered_by_region filtered_by_amount final_count].
  rewrite filter_amount_spec, filter_region_spec. cbn [fst snd].
  rewrite Hout, filtered_spec, Hinv.
  set (valid := List.filter (valid_in h) ts).
  set (by_region := List.filter (fun x => region_ok region (h' x)) valid).
  set (by_min := List.filter (fun x => min_ok min_amount (h' x)) by_region).
  pose proof (len_filter_split (valid_in h) ts).
  pose proof (len_filter_le (valid_in h) ts).
  pose proof (len_filter_le (fun x => region_ok region (h' x)) valid).
  pose proof (len_filter_le (fun x => min_ok min_amount (h' x)) by_region).
  pose proof (len_filter_le (fun x => max_ok max_amount (h' x)) by_min).
  fold valid in H, H0. fold by_region in H1, H2. fold by_min in H2, H3.
  repeat split; try lia.
  etrans; [apply filter_sublist|]. etrans; [apply filter_sublist|].
  etrans; [apply filter_sublist|]. apply filter_sublist.
Qed.

Lemma validate_and_filter_summary_adds_up_witness :
  5 = 1 + 1 + 1 + 2 /\ sublist [0%nat; 2%nat] (refs_of sample_sales).
Proof.
  destruct (validate_and_filter_summary_adds_up
              (heap_of sample_sales) (refs_of sample_sales)
              (Some "North") (Some 1000%float) (Some 100000%float)
              _ _ _ _ eq_refl) as (H1 & _ & _ & _ & _ & _ & H2).
  split; [exact H1|exact H2].
Defined.

Lemma is_valid_has_numbers t :
  is_valid t = true -> is_Some (Quantity t) /\ is_Some (UnitPrice t).
Proof.
  unfold is_valid, rule1, present_num.
  destruct (Quantity t), (UnitPrice t); cbn; rewrite ?andb_false_r; eauto;
    try done.
Qed.

Lemma sales_defined_aggregators ts :
  sales_defined ts ->
  is_Some (calculate_total_revenue ts) /\
  is_Some (region_wise_sales ts) /\
  (forall n, is_Some (top_selling_products ts n)) /\
  is_Some (daily_sales_trend ts) /\
  is_Some (find_peak_sales_day ts) /\
  (forall threshold, is_Some (low_performing_products ts threshold)).
Proof.
  intros Hs. destruct ts as [|t0 ts0]; [cbn; eauto 10|].
  set (ts := t0 :: ts0) in *.
  assert (Hne : ts <> []) by done.
  split; [rewrite calculate_total_revenue_spec by done; eauto|].
  split; [destruct (region_wise_sales_items ts Hne Hs) as (st & -> & _); eauto|].
  split; [intros n; rewrite top_selling_products_spec by done; eauto|].
  split; [rewrite daily_sales_trend_spec by done; eauto|].
  split.
  - unfold find_peak_sales_day. fold ts.
    change (is_Some (daily_trend ← daily_sales_trend ts;
                     match daily_trend with
                     | [] => Some (None, 0%float, 0)
                     | first :: rest =>
                         let peak_date :=
                           max_by (fun x => revenue (snd x)) first rest in
                         Some (Some (fst peak_date), revenue (snd peak_date),
                               ds_transaction_count (snd peak_date))
                     end)).
    rewrite daily_sales_trend_spec by done. cbn [mbind option_bind].
    destruct (trend_of ts); eauto.
  - intros threshold. unfold low_performing_products. fold ts.
    change (is_Some (product_data ← product_loop ts;
                     Some (stable_sort (fun y x => snd (fst y) <? snd (fst x))
                             (map product_tuple
                                (List.filter
                                   (fun item => pd_quantity (snd item) <? threshold)
                                   product_data))))).
    rewrite product_loop_spec by done. cbn. eauto.
Qed.

(** X7: the pipeline composes: on the list [validate_and_filter] returns,
    read through the store it leaves, every record carries the amount the
    aggregators compute for it, so none of them raises, and the total
    revenue is the rounded sum of the stored amounts. *)
Theorem validate_and_filter_feeds_aggregators (h : heap) (ts : list loc)
    (region : option string) (min_amount max_amount : option float)
    (h' : heap) (out : list loc) (inv : Z) (s : FilterSummary) :
  validate_and_filter h ts region min_amount max_amount
    = Some (h', (out, inv, s)) ->
  let sales := map h' out in
  Forall (fun t => is_valid t = true /\ is_Some (Amount t) /\
                   Amount t = sale t) sales /\
  calculate_total_revenue sales
    = Some (round2 (fold_left
                      (fun total t => (total + default 0%float (Amount t))%float)
                      sales 0%float)) /\
  is_Some (region_wise_sales sales) /\
  (forall n, is_Some (top_selling_products sales n)) /\
  is_Some (daily_sales_trend sales) /\
  is_Some (find_peak_sales_day sales) /\
  (forall threshold, is_Some (low_performing_products sales threshold)).
Proof.
  intros Hvf sales.
  apply validate_and_filter_inv in Hvf as (Hset & Hout & _ & _).
  assert (Hall : Forall (fun t => is_valid t = true /\ is_Some (Amount t) /\
                                  Amount t = sale t) sales).
  { apply List.Forall_forall. intros t Ht.
    apply in_map_iff in Ht as (l & <- & Hl). rewrite Hout in Hl.
    apply filtered_In in Hl as (Hl & _). pose proof Hl as Hl'.
    apply filter_In in Hl' as [_ Hv]. unfold valid_in in Hv.
    destruct (set_amounts_spec _ _ _ Hset l) as [Hin _].
    destruct (Hin Hl) as (a & Ha & ->).
    rewrite is_valid_set_Amount. split; [exact Hv|]. split; [cbn; eauto|].
    destruct (is_valid_has_numbers _ Hv) as [[q Hq] [p Hp]].
    unfold sale. cbn [Amount Quantity UnitPrice set_Amount].
    unfold compute_amount in Ha. rewrite Hq, Hp in *. cbn in *. congruence. }
  split; [exact Hall|].
  assert (Hs : sales_defined sales).
  { unfold sales_defined. eapply Forall_impl; [exact Hall|].
    cbn. intros t (_ & Ha & <-). exact Ha. }
  split; [|now apply sales_defined_aggregators].
  assert (Hsum : forall acc,
            fold_left (fun a t => if everything t
                                  then (a + sale_value t)%float else a)
                      sales acc
            = fold_left (fun total t =>
                           (total + default 0%float (Amount t))%float)
                        sales acc).
  { clear Hs. induction Hall as [|t l (_ & _ & Ht) _ IH]; intros acc; cbn;
      [done|].
    rewrite IH. unfold sale_value. now rewrite Ht. }
  destruct (decide (sales = [])) as [->|Hne]; [reflexivity|].
  rewrite calculate_total_revenue_spec by done.
  unfold running_sum. now rewrite Hsum.
Qed.

Lemma validate_and_filter_feeds_aggregators_witness :
  exists h' out inv s,
    validate_and_filter (heap_of sample_sales) (refs_of sample_sales)
      None None None = Some (h', (out, inv, s)) /\
    calculate_total_revenue (map h' out) = Some 214000%float.
Proof.
  eexists _, _, _, _. split; [reflexivity|].
  destruct (validate_and_filter_feeds_aggregators
              (heap_of sample_sales) (refs_of sample_sales) None None None
              _ _ _ _ eq_refl) as (_ & H & _).
  rewrite H. vm_compute. reflexivity.
Defined.

(** * Integers that convert to a float *)

Lemma digits2_pos_bound p : 2 ^ (Z.pos (digits2_pos p) - 1) <= Z.pos p.
Proof.
  induction p as [p IH|p IH|]; cbn [digits2_pos]; [| |cbn; lia].
  - rewrite Pos2Z.inj_succ.
    replace (Z.succ (Z.pos (digits2_pos p)) - 1)
      with (Z.succ (Z.pos (digits2_pos p) - 1)) by lia.
    rewrite Z.pow_succ_r by lia. lia.
  - rewrite Pos2Z.inj_succ.
    replace (Z.succ (Z.pos (digits2_pos p)) - 1)
      with (Z.succ (Z.pos (digits2_pos p) - 1)) by lia.
    rewrite Z.pow_succ_r by lia. lia.
Qed.

Lemma digits2_pos_small p k :
  0 <= k -> Z.pos p < 2 ^ k -> Z.pos (digits2_pos p) <= k.
Proof.
  intros Hk Hp. pose proof (digits2_pos_bound p) as Hb.
  destruct (Z.le_gt_cases (Z.pos (digits2_pos p)) k) as [|Hgt]; [done|].
  exfalso.
  assert (2 ^ k <= 2 ^ (Z.pos (digits2_pos p) - 1))
    by (apply Z.pow_le_mono_r; lia).
  lia.
Qed.

Lemma digits2_pos_iter p d :
  Z.pos (digits2_pos (Pos.iter xO p d)) = Z.pos (digits2_pos p) + Z.pos d.
Proof.
  induction d as [|d IH] using Pos.peano_ind.
  - cbn. lia.
  - rewrite Pos.iter_succ. cbn [digits2_pos]. lia.
Qed.

(** An integer below [2 ^ 53] needs no rounding. *)
Lemma binary_normalize_small p :
  Z.pos p < 2 ^ 53 ->
  exists m e, binary_normalize prec emax (Z.pos p) 0 false
              = S754_finite false m e.
Proof.
  intros Hp. pose proof (digits2_pos_small p 53 ltac:(lia) Hp) as Hd.
  cbn [binary_normalize]. unfold binary_round, shl_align, fexp.
  change (SpecFloat.emin prec emax) with (-1074). change prec with 53.
  change emax with 1024.
  rewrite Z.add_0_r, Z.sub_0_r.
  rewrite Z.max_l by lia.
  destruct (Z.pos (digits2_pos p) - 53) as [|q|q] eqn:E; [|lia|].
  - unfold binary_round_aux, shr_fexp, fexp.
    change (SpecFloat.emin 53 1024) with (-1074).
    cbn [shr_record_of_loc Zdigits2 shr_m loc_of_shr_record round_nearest_even
           shr_r shr_s].
    rewrite Z.add_0_r, Z.sub_0_r, Z.max_l, E by lia.
    cbn [shr shr_m loc_of_shr_record round_nearest_even shr_r shr_s Zdigits2].
    rewrite Z.add_0_r, Z.sub_0_r, Z.max_l, E by lia.
    cbn. eauto.
  - unfold binary_round_aux, shr_fexp, fexp.
    change (SpecFloat.emin 53 1024) with (-1074).
    cbn [shr_record_of_loc Zdigits2 shr_m loc_of_shr_record round_nearest_even
           shr_r shr_s].
    rewrite digits2_pos_iter.
    replace (Z.pos (digits2_pos p) + Z.pos q + Z.neg q)
      with (Z.pos (digits2_pos p)) by lia.
    rewrite Z.max_l, E by lia.
    replace (Z.neg q - Z.neg q) with 0 by lia.
    cbn [shr shr_m loc_of_shr_record round_nearest_even shr_r shr_s Zdigits2].
    rewrite digits2_pos_iter.
    replace (Z.pos (digits2_pos p) + Z.pos q + Z.neg q)
      with (Z.pos (digits2_pos p)) by lia.
    rewrite Z.max_l, E by lia.
    replace (Z.neg q - Z.neg q) with 0 by lia.
    cbn [shr shr_m].
    rewrite (proj2 (Z.leb_le (Z.neg q) (1024 - 53))) by lia. eauto.
Qed.

Lemma float_of_int_small n : 0 <= n < 2 ^ 53 -> is_Some (float_of_int n).
Proof.
  intros [H0 Hn]. unfold float_of_int. destruct n as [|p|p]; [cbn; eauto| |lia].
  destruct (binary_normalize_small p Hn) as (m & e & ->). eauto.
Qed.

(** * Comparisons without NaN *)

Lemma ltb_false_iff x y :
  is_nan x = false -> is_nan y = false ->
  (x <? y)%float = false <-> (y <=? x)%float = true.
Proof.
  intros Hx Hy. rewrite leb_true_iff. split.
  - intros Hlt. repeat split; [done..|].
    destruct (lex_total (frank x) (frank y)) as [H|[H|H]].
    + exfalso. apply not_true_iff_false in Hlt. apply Hlt.
      apply ltb_true_iff. repeat split; done.
    + right. congruence.
    + now left.
  - intros (_ & _ & Hle). apply not_true_iff_false. intros Hlt.
    apply ltb_true_iff in Hlt as (_ & _ & Hlt). destruct Hle as [Hle|Hle].
    + exact (lex_lt_irrefl _ (lex_lt_trans _ _ _ Hlt Hle)).
    + rewrite Hle in Hlt. exact (lex_lt_irrefl _ Hlt).
Qed.

Lemma ltb_asym x y : (x <? y)%float = true -> (y <? x)%float = false.
Proof.
  intros H. apply ltb_true_iff in H as (Hx & Hy & Hlt).
  apply not_true_iff_false. intros H'.
  apply ltb_true_iff in H' as (_ & _ & Hlt').
  exact (lex_lt_irrefl _ (lex_lt_trans _ _ _ Hlt Hlt')).
Qed.

Lemma ltb_negtrans x y z :
  is_nan x = false -> is_nan y = false -> is_nan z = false ->
  (x <? y)%float = false -> (y <? z)%float = false -> (x <? z)%float = false.
Proof.
  intros Hx Hy Hz. rewrite !ltb_false_iff by done.
  rewrite !leb_true_iff. intros (_ & _ & H1) (_ & _ & H2).
  repeat split; [done..|]. unfold lex_le in *.
  destruct H1 as [H1|H1], H2 as [H2|H2].
  - left. exact (lex_lt_trans _ _ _ H2 H1).
  - left. now rewrite H2.
  - left. now rewrite <- H1.
  - right. congruence.
Qed.

(** * The stable sort on keys that are ordered among themselves *)

Section StableSortOn.
Context {A : Type} (prec : A -> A -> bool) (P : A -> Prop).

Hypothesis prec_asym :
  forall a b, P a -> P b -> prec a b = true -> prec b a = false.
Hypothesis prec_negtrans :
  forall a b c, P a -> P b -> P c ->
    prec a b = false -> prec b c = false -> prec a c = false.

Variable before : A -> A -> Prop.

Lemma insert_sorted_P x l :
  P x -> Forall P l -> Forall P (insert_sorted prec x l).
Proof.
  intros Hx Hl. apply List.Forall_forall. intros y Hy.
  apply insert_sorted_In in Hy as [->|Hy]; [done|].
  rewrite List.Forall_forall in Hl. now apply Hl.
Qed.

Lemma stable_sort_P l : Forall P l -> Forall P (stable_sort prec l).
Proof.
  intros Hl. apply List.Forall_forall. intros y Hy.
  apply (proj1 (stable_sort_In prec y l)) in Hy.
  rewrite List.Forall_forall in Hl. now apply Hl.
Qed.

Lemma insert_sorted_sorted_on x l :
  P x -> Forall P l ->
  Forall (before x) l ->
  StronglySorted (in_order prec before) l ->
  StronglySorted (in_order prec before) (insert_sorted prec x l).
Proof.
  intros HPx.
  induction l as [|y l IH]; intros HP Hx Hs; cbn.
  - repeat constructor.
  - apply Forall_cons in Hx as [Hxy Hx].
    apply Forall_cons in HP as [HPy HP].
    apply StronglySorted_inv in Hs as [Hs Hy].
    destruct (prec y x) eqn:E.
    + constructor; [now apply IH|].
      apply List.Forall_forall. intros z Hz.
      apply insert_sorted_In in Hz as [->|Hz].
      * split; [now apply prec_asym|congruence].
      * rewrite List.Forall_forall in Hy. now apply Hy.
    + constructor; [now constructor|].
      constructor; [now split|].
      apply List.Forall_forall. intros z Hz.
      rewrite List.Forall_forall in Hy, Hx, HP.
      destruct (Hy z Hz) as [Hzy _].
      split; [apply (prec_negtrans z y x); auto|]. intros _. now apply Hx.
Qed.

Lemma stable_sort_sorted_on l :
  Forall P l ->
  StronglySorted before l ->
  StronglySorted (in_order prec before) (stable_sort prec l).
Proof.
  induction l as [|x l IH]; intros HP Hs; [constructor|].
  apply StronglySorted_inv in Hs as [Hs Hx].
  apply Forall_cons in HP as [HPx HP].
  rewrite stable_sort_cons.
  apply insert_sorted_sorted_on; [done|now apply stable_sort_P| |now apply IH].
  apply List.Forall_forall. intros z Hz.
  apply (proj1 (stable_sort_In prec z l)) in Hz.
  rewrite List.Forall_forall in Hx. now apply Hx.
Qed.
End StableSortOn.

(** [sorted(..., key=..., reverse=True)] on float keys without NaN: the
    keys decrease, and equal keys keep the order they had. *)
Lemma sort_descending_by_float {A} (key : A -> float)
    (before : A -> A -> Prop) (l : list A) :
  Forall (fun x => is_nan (key x) = false) l ->
  StronglySorted before l ->
  StronglySorted
    (fun a b => (key b <=? key a)%float = true /\
                ((key a =? key b)%float = true -> before a b))
    (stable_sort (fun y x => (key x <? key y)%float) l).
Proof.
  intros HP Hb.
  assert (HP' : Forall (fun x => is_nan (key x) = false)
                  (stable_sort (fun y x => (key x <? key y)%float) l)).
  { now apply stable_sort_P. }
  eapply StronglySorted_impl_In;
    [|apply (stable_sort_sorted_on (fun y x => (key x <? key y)%float)
               (fun x => is_nan (key x) = false))
       with (before := before)].
  - intros a b Ha Hb' [H1 H2]. cbn beta in *.
    rewrite List.Forall_forall in HP'.
    pose proof (HP' a Ha) as Hna. pose proof (HP' b Hb') as Hnb.
    cbn beta in Hna, Hnb.
    split; [now apply ltb_false_iff|].
    intros Heq. apply H2. apply ltb_false_iff; [done..|].
    apply eqb_true_iff in Heq as (_ & _ & Heq).
    apply leb_true_iff. repeat split; [done..|]. right. done.
  - intros a b _ _. apply ltb_asym.
  - intros a b c Ha Hb' Hc. cbn beta. intros H1 H2.
    now apply (ltb_negtrans _ (key b)).
  - exact HP.
  - exact Hb.
Qed.

(** * Sums over groups *)

Lemma sum_of_app {A} (f : A -> Z) l1 l2 :
  sum_of f (l1 ++ l2) = sum_of f l1 + sum_of f l2.
Proof.
  unfold sum_of. induction l1 as [|x l1 IH]; cbn; [done|]. rewrite IH. lia.
Qed.

Lemma sum_of_Permutation {A} (f : A -> Z) l1 l2 :
  l1 ≡ₚ l2 -> sum_of f l1 = sum_of f l2.
Proof. unfold sum_of. induction 1; cbn; lia. Qed.

Lemma sum_of_map {A B} (g : A -> B) (f : B -> Z) l :
  sum_of f (map g l) = sum_of (fun x => f (g x)) l.
Proof.
  unfold sum_of. induction l as [|x l IH]; cbn; [done|]. now rewrite IH.
Qed.

Lemma sum_of_ext {A} (f g : A -> Z) l :
  (forall x, In x l -> f x = g x) -> sum_of f l = sum_of g l.
Proof.
  unfold sum_of. induction l as [|x l IH]; intros H; cbn; [done|].
  rewrite (H x (or_introl eq_refl)), IH; [done|].
  intros y Hy. apply H. now right.
Qed.

Lemma sum_of_nonneg {A} (f : A -> Z) l x :
  (forall y, In y l -> 0 <= f y) -> In x l -> f x <= sum_of f l.
Proof.
  unfold sum_of.
  induction l as [|y l IH]; intros H; [intros []|].
  assert (0 <= fold_right (fun x acc => f x + acc) 0 l).
  { clear IH. induction l as [|z l IH]; cbn; [lia|].
    pose proof (H z (or_intror (or_introl eq_refl))).
    assert (0 <= fold_right (fun x acc => f x + acc) 0 l); [|lia].
    apply IH. intros w [->|Hw]; apply H; [now left|right; now right]. }
  pose proof (H y (or_introl eq_refl)).
  intros [->|Hx]; cbn; [lia|].
  assert (f x <= fold_right (fun x acc => f x + acc) 0 l); [|lia].
  apply IH; [|done]. intros w Hw. apply H. now right.
Qed.

Section GroupSum.
Context {T V : Type} (key : T -> string) (step : T -> V -> V) (dflt : V).
Context (weight : T -> Z) (measure : V -> Z).
Hypothesis measure_step : forall t v, measure (step t v) = measure v + weight t.
Hypothesis measure_dflt : measure dflt = 0.

Lemma dict_update_sum t d :
  sum_of (fun kv => measure (snd kv)) (dict_update (key t) (step t) dflt d)
  = sum_of (fun kv => measure (snd kv)) d + weight t.
Proof.
  unfold sum_of. induction d as [|[k v] d IH]; cbn.
  - rewrite measure_step, measure_dflt. lia.
  - destruct (String.eqb k (key t)); cbn.
    + rewrite measure_step. lia.
    + rewrite IH. lia.
Qed.

(** Every record adds its weight to exactly one group. *)
Lemma group_sum ts : forall d,
  sum_of (fun kv => measure (snd kv))
         (fold_left (group_step key step dflt) ts d)
  = sum_of (fun kv => measure (snd kv)) d + sum_of weight ts.
Proof.
  induction ts as [|t ts IH]; intros d; cbn [fold_left]; [cbn; lia|].
  rewrite IH. unfold group_step. rewrite dict_update_sum.
  unfold sum_of. cbn. lia.
Qed.
End GroupSum.

Lemma sum_of_ones {A} (l : list A) : sum_of (fun _ => 1) l = len l.
Proof.
  unfold len, sum_of. induction l as [|x l IH]; cbn [fold_right length];
    [done|].
  rewrite IH. lia.
Qed.

(** * More of the product aggregates *)

Lemma StronglySorted_filter {A} (R : A -> A -> Prop) (f : A -> bool) l :
  StronglySorted R l -> StronglySorted R (List.filter f l).
Proof.
  induction 1 as [|x l Hs IH Hx]; cbn; [constructor|].
  destruct (f x); [|done]. constructor; [done|].
  apply List.Forall_forall. intros y Hy. apply filter_In in Hy as [Hy _].
  rewrite List.Forall_forall in Hx. now apply Hx.
Qed.

Lemma StronglySorted_map_of {A B} (f : A -> B) (R : B -> B -> Prop) l :
  StronglySorted (fun a b => R (f a) (f b)) l ->
  StronglySorted R (map f l).
Proof.
  induction 1 as [|x l Hs IH Hx]; cbn; constructor; [done|].
  apply List.Forall_forall. intros y Hy.
  apply in_map_iff in Hy as (z & <- & Hz).
  rewrite List.Forall_forall in Hx. now apply Hx.
Qed.

Lemma product_groups_first_seen ts :
  StronglySorted
    (fun a b : string * product_data_entry =>
       (first_seen a.1 ts < first_seen b.1 ts)%nat)
    (fold_left
       (group_step get_product_name product_step (mkProductData 0 0%float))
       ts []).
Proof.
  apply (StronglySorted_map fst
           (fun k1 k2 => (first_seen k1 ts < first_seen k2 ts)%nat)).
  apply (group_keys_first_seen get_product_name product_step
           (mkProductData 0 0%float) ts).
Qed.

(** X8: the low performers are exactly the products whose summed
    quantity is below the threshold, each once, with that quantity and
    the rounded revenue; smaller quantities come first and of two equal
    ones the product seen first. *)
Theorem low_performing_products_spec (ts : list transaction) (threshold : Z) :
  sales_defined ts ->
  exists out,
    low_performing_products ts threshold = Some out /\
    (forall p q r,
       In (p, q, r) out <->
       (exists t, In t ts /\ get_product_name t = p) /\
       q = total_quantity p ts /\
       r = round2 (running_sum (of_product p) ts) /\
       q < threshold) /\
    NoDup (map (fun x : string * Z * float => x.1.1) out) /\
    StronglySorted (low_ranked ts) out.
Proof.
  intros Hs.
  set (groups := fold_left
         (group_step get_product_name product_step (mkProductData 0 0%float))
         ts []).
  set (low := List.filter
                (fun item : string * product_data_entry =>
                   pd_quantity (snd item) <? threshold) groups).
  exists (stable_sort (fun y x : string * Z * float => y.1.2 <? x.1.2)
            (map product_tuple low)).
  split.
  { unfold low_performing_products. rewrite product_loop_spec by done.
    destruct ts as [|t ts]; reflexivity. }
  split.
  { intros p q r. rewrite stable_sort_In, in_map_iff. split.
    - intros ([p' data] & Heq & Hin). cbn in Heq. simplify_eq.
      apply filter_In in Hin as [Hin Hlow]. cbn in Hlow.
      apply group_items in Hin as [Hex ->]. split; [done|].
      rewrite (product_group_value p ts (mkProductData 0 0%float)) in *.
      cbn in *. repeat split; try done. unfold total_quantity. lia.
    - intros (Hex & -> & -> & Hlow).
      exists (p, group_value get_product_name product_step p ts
                   (mkProductData 0 0%float)).
      split.
      + unfold product_tuple.
        rewrite (product_group_value p ts (mkProductData 0 0%float)). done.
      + apply filter_In. split; [apply group_items; now split|].
        cbn. rewrite (product_group_value p ts (mkProductData 0 0%float)).
        cbn. unfold total_quantity in Hlow. lia. }
  split.
  { rewrite stable_sort_Permutation, map_map.
    rewrite (map_ext _ fst) by (now intros [k v]).
    assert (Hnd : NoDup (map fst groups)).
    { apply group_keys_NoDup. constructor. }
    subst low. clear -Hnd. induction groups as [|[k v] g IH]; cbn; [constructor|].
    cbn in Hnd. apply NoDup_cons in Hnd as [Hk Hnd].
    destruct (pd_quantity v <? threshold); cbn; [|now apply IH].
    apply NoDup_cons. split; [|now apply IH].
    intros Hin. apply Hk. apply list_elem_of_In in Hin.
    apply in_map_iff in Hin as ([k' v'] & Heq & Hin). cbn in Heq. subst k'.
    apply filter_In in Hin as [Hin _].
    apply list_elem_of_In, in_map_iff. now exists (k, v'). }
  assert (Hb : StronglySorted
                 (fun a b : string * Z * float =>
                    (first_seen a.1.1 ts < first_seen b.1.1 ts)%nat)
                 (map product_tuple low)).
  { apply StronglySorted_map_of.
    eapply StronglySorted_impl_In;
      [|apply StronglySorted_filter, product_groups_first_seen].
    now intros [k v] [k' v'] _ _ H. }
  eapply StronglySorted_impl_In; [|apply (stable_sort_sorted
    (fun y x : string * Z * float => y.1.2 <? x.1.2)
    ltac:(intros a b H; cbn beta in *; lia)
    ltac:(intros a b c H1 H2; cbn beta in *; lia) _ _ Hb)].
  intros a b _ _ [H1 H2]. cbn beta in *. unfold low_ranked. split; [lia|].
  intros Heq. apply H2. lia.
Qed.

Lemma low_performing_products_spec_witness :
  exists out,
    low_performing_products admitted_sales 6 = Some out /\
    map (fun x : string * Z * float => x.1) out = [("Laptop", 2)] /\
    StronglySorted (low_ranked admitted_sales) out.
Proof.
  destruct (low_performing_products_spec admitted_sales 6)
    as (out & Hout & _ & _ & Hsorted).
  - repeat constructor; vm_compute; eauto.
  - exists out. split; [exact Hout|]. split; [|exact Hsorted].
    vm_compute in Hout. injection Hout as <-. reflexivity.
Defined.

(** X9: for [n >= 0] the products returned are the best sellers: a
    product of the input is listed, or the list is full and every listed
    product sold at least as many units. *)
Theorem top_selling_products_are_top (ts : list transaction) (n : Z) :
  0 <= n -> sales_defined ts ->
  exists out,
    top_selling_products ts n = Some out /\
    forall t,
      In t ts ->
      In (get_product_name t) (map (fun x : string * Z * float => x.1.1) out) \/
      (len out = n /\
       forall e, In e out -> total_quantity (get_product_name t) ts <= e.1.2).
Proof.
  intros Hn Hs. exists (slice_to n (product_ranking ts)).
  split; [now apply top_selling_products_spec|].
  unfold slice_to. replace (n <? 0) with false by lia.
  intros t Ht.
  set (p := get_product_name t).
  set (e_p := (p, total_quantity p ts, round2 (running_sum (of_product p) ts))).
  assert (Hin : In e_p (product_ranking ts)).
  { apply product_ranking_In. repeat split; eauto. }
  set (k := Z.to_nat n) in *.
  rewrite <- (take_drop k (product_ranking ts)) in Hin.
  apply in_app_or in Hin as [Hin|Hin].
  { left. apply in_map_iff. now exists e_p. }
  right.
  apply list_elem_of_In, list_elem_of_lookup in Hin as (j & Hj).
  rewrite lookup_drop in Hj.
  assert (Hlen : (k < length (product_ranking ts))%nat).
  { apply lookup_lt_Some in Hj. lia. }
  split.
  { unfold len. rewrite length_take. lia. }
  intros e He.
  apply list_elem_of_In, list_elem_of_lookup in He as (i & Hi).
  apply lookup_take_Some in Hi as [Hi Hik].
  destruct (StronglySorted_lookup _ _ (product_ranking_sorted ts)
              i (k + j)%nat e e_p ltac:(lia) Hi Hj) as [Hge _].
  cbn in Hge. lia.
Qed.

Lemma top_selling_products_are_top_witness :
  exists out,
    top_selling_products admitted_sales 2 = Some out /\
    forall t,
      In t admitted_sales ->
      In (get_product_name t) (map (fun x : string * Z * float => x.1.1) out) \/
      (len out = 2 /\
       forall e, In e out ->
                 total_quantity (get_product_name t) admitted_sales <= e.1.2).
Proof.
  apply (top_selling_products_are_top admitted_sales 2).
  - lia.
  - repeat constructor; vm_compute; eauto.
Defined.

(** * More of the regional and daily aggregates *)

Lemma NoDup_StronglySorted_neq {A B} (f : A -> B) (l : list A) :
  NoDup (map f l) -> StronglySorted (fun a b => f a <> f b) l.
Proof.
  induction l as [|x l IH]; cbn; intros Hnd; [constructor|].
  apply NoDup_cons in Hnd as [Hx Hnd]. constructor; [now apply IH|].
  apply List.Forall_forall. intros y Hy Heq. apply Hx.
  rewrite Heq. apply list_elem_of_In. now apply in_map.
Qed.

Lemma region_counts_add_up ts :
  sum_of (fun kv : string * region_data_entry => transaction_count kv.2)
    (fold_left (group_step get_region region_step (mkRegionData 0%float 0))
       ts [])
  = len ts.
Proof.
  rewrite (group_sum get_region region_step (mkRegionData 0%float 0)
             (fun _ => 1) transaction_count) by done.
  rewrite sum_of_ones. reflexivity.
Qed.

(** X10: [region_wise_sales] names every region once and counts every
    record in exactly one region; when no regional total is NaN the
    regions come by decreasing total sales, regions with equal totals in
    the order in which they first occur in the input. *)
Theorem region_wise_sales_sorted (ts : list transaction) :
  sales_defined ts ->
  exists stats,
    region_wise_sales ts = Some stats /\
    NoDup (map fst stats) /\
    sum_of (fun item => rs_transaction_count item.2) stats = len ts /\
    (Forall (fun item => is_nan (rs_total_sales item.2) = false) stats ->
     StronglySorted (region_ranked ts) stats).
Proof.
  intros Hs.
  destruct ts as [|t0 ts0].
  { exists []. repeat split; try constructor. }
  set (ts := t0 :: ts0) in *.
  assert (Hne : ts <> []) by done.
  unfold region_wise_sales. fold ts.
  change (exists stats,
    (total_revenue ← calculate_total_revenue ts;
     region_data ← region_loop ts;
     Some (stable_sort
             (fun y x =>
                (rs_total_sales (snd x) <? rs_total_sales (snd y))%float)
             (map (region_result total_revenue) region_data))) = Some stats /\
    NoDup (map fst stats) /\
    sum_of (fun item => rs_transaction_count item.2) stats = len ts /\
    (Forall (fun item => is_nan (rs_total_sales item.2) = false) stats ->
     StronglySorted (region_ranked ts) stats)).
  rewrite calculate_total_revenue_spec, region_loop_spec by done.
  cbn [mbind option_bind].
  set (total := round2 (running_sum everything ts)).
  set (groups := fold_left _ ts []).
  set (prec := fun y x : string * region_stats =>
                 (rs_total_sales (snd x) <? rs_total_sales (snd y))%float).
  eexists. split; [reflexivity|].
  assert (Hfst : map fst (map (region_result total) groups) = map fst groups).
  { rewrite map_map. apply map_ext. now intros [k v]. }
  split.
  { rewrite stable_sort_Permutation, Hfst.
    apply group_keys_NoDup. constructor. }
  split.
  { rewrite (sum_of_Permutation _ _ _ (stable_sort_Permutation prec _)).
    rewrite sum_of_map.
    rewrite (sum_of_ext _ (fun kv => transaction_count kv.2))
      by (now intros [k v]).
    apply region_counts_add_up. }
  intros Hnan.
  assert (Hb : StronglySorted
                 (fun a b : string * region_stats =>
                    (first_index (in_region a.1) ts
                     < first_index (in_region b.1) ts)%nat)
                 (map (region_result total) groups)).
  { apply (StronglySorted_map fst
             (fun k1 k2 => (first_index (in_region k1) ts
                            < first_index (in_region k2) ts)%nat)).
    rewrite Hfst.
    apply (group_keys_first_seen get_region region_step
             (mkRegionData 0%float 0) ts). }
  assert (HP : Forall (fun item : string * region_stats =>
                         is_nan (rs_total_sales item.2) = false)
                      (map (region_result total) groups)).
  { apply List.Forall_forall. intros x Hx.
    rewrite List.Forall_forall in Hnan. apply Hnan.
    now apply stable_sort_In. }
  exact (sort_descending_by_float (fun item => rs_total_sales item.2)
           _ _ HP Hb).
Qed.

Lemma region_wise_sales_sorted_witness :
  exists stats,
    region_wise_sales admitted_sales = Some stats /\
    map fst stats = ["North"; "South"; "East"] /\
    sum_of (fun item => rs_transaction_count item.2) stats = 4 /\
    StronglySorted (region_ranked admitted_sales) stats.
Proof.
  destruct (region_wise_sales_sorted admitted_sales)
    as (stats & Hst & _ & Hsum & Hsorted).
  - repeat constructor; vm_compute; eauto.
  - exists stats. split; [exact Hst|].
    vm_compute in Hst. injection Hst as <-.
    split; [reflexivity|]. split; [exact Hsum|].
    apply Hsorted. repeat constructor.
Defined.

(** ** Sorting by a string key without duplicates *)

Lemma sort_by_string_key_strict {A} (key : A -> string) (l : list A) :
  NoDup (map key l) ->
  StronglySorted (fun a b => String.ltb (key a) (key b) = true)
    (stable_sort (fun y x => String.ltb (key y) (key x)) l).
Proof.
  intros Hnd. apply NoDup_StronglySorted_neq in Hnd.
  eapply StronglySorted_impl_In; [|apply (stable_sort_sorted
    (fun y x : A => String.ltb (key y) (key x))
    ltac:(intros a b; apply string_ltb_asym)
    ltac:(intros a b c; apply string_ltb_negtrans) _ _ Hnd)].
  intros a b _ _ [H1 H2]. cbn beta in *.
  destruct (String.ltb (key a) (key b)) eqn:E; [done|]. exfalso.
  apply (H2 eq_refl). unfold String.ltb in *.
  rewrite (String.compare_antisym (key b) (key a)) in H1.
  destruct (String.compare (key a) (key b)) eqn:Ec; try done.
  now apply String.compare_eq_iff.
Qed.

(** ** Days *)

Lemma daily_customers d ts : forall v,
  dd_customers (group_value get_date daily_step d ts v)
  = customers_on d ts ∪ dd_customers v.
Proof.
  unfold group_value, customers_on, on_date.
  induction ts as [|t ts IH]; intros v; cbn.
  - now rewrite (left_id_L ∅ (∪)).
  - destruct (String.eqb (get_date t) d); rewrite IH; cbn; [|done].
    rewrite !(assoc_L (∪)). f_equal. apply (comm_L (∪)).
Qed.

Lemma size_list_to_set_le (l : list string) :
  (size (list_to_set (C:=gset string) l) <= length l)%nat.
Proof.
  induction l as [|x l IH]; cbn.
  - now rewrite size_empty.
  - rewrite size_union_alt, size_singleton.
    pose proof (subseteq_size
                  (list_to_set (C:=gset string) l ∖ {[x]}) (list_to_set l)
                  (subseteq_difference_l _ _ _ (reflexivity _))).
    lia.
Qed.

Lemma count_of_filter sel ts : count_of sel ts = len (List.filter sel ts).
Proof.
  unfold count_of.
  assert (H : forall acc,
            fold_left (fun acc t => if sel t then acc + 1 else acc) ts acc
            = acc + len (List.filter sel ts)).
  { induction ts as [|t ts IH]; intros acc; cbn; [unfold len; cbn; lia|].
    rewrite IH. destruct (sel t); unfold len; cbn [length]; lia. }
  rewrite H. lia.
Qed.

Lemma daily_counts_add_up ts :
  sum_of (fun kv : string * daily_data_entry => dd_transaction_count kv.2)
    (fold_left (group_step get_date daily_step (mkDailyData 0%float 0 ∅))
       ts [])
  = len ts.
Proof.
  rewrite (group_sum get_date daily_step (mkDailyData 0%float 0 ∅)
             (fun _ => 1) dd_transaction_count) by done.
  rewrite sum_of_ones. reflexivity.
Qed.

(** X11: the daily trend has one entry per date, in strictly ascending
    order of date; every record is counted on exactly one day; and the
    unique customers of a day are the distinct customer ids of its
    records, at least one and no more than its transactions. *)
Theorem daily_sales_trend_invariants (ts : list transaction) :
  sales_defined ts ->
  exists trend,
    daily_sales_trend ts = Some trend /\
    StronglySorted (fun a b => String.ltb a.1 b.1 = true) trend /\
    sum_of (fun item => ds_transaction_count item.2) trend = len ts /\
    forall d s,
      In (d, s) trend ->
      unique_customers s = Z.of_nat (size (customers_on d ts)) /\
      1 <= unique_customers s <= ds_transaction_count s.
Proof.
  intros Hs. exists (trend_of ts).
  split; [now apply daily_sales_trend_spec|].
  unfold trend_of.
  set (groups := fold_left _ ts []).
  set (prec := fun y x : string * daily_stats => String.ltb (fst y) (fst x)).
  assert (Hfst : map fst (map daily_result groups) = map fst groups).
  { rewrite map_map. apply map_ext. now intros [k v]. }
  split.
  { apply (sort_by_string_key_strict fst). rewrite Hfst.
    apply group_keys_NoDup. constructor. }
  split.
  { rewrite (sum_of_Permutation _ _ _ (stable_sort_Permutation prec _)).
    rewrite sum_of_map.
    rewrite (sum_of_ext _ (fun kv => dd_transaction_count kv.2))
      by (now intros [k v]).
    apply daily_counts_add_up. }
  intros d s Hin.
  apply (proj1 (stable_sort_In prec _ _)) in Hin.
  apply in_map_iff in Hin as ([d' data] & Heq & Hin). cbn in Heq.
  simplify_eq. apply group_items in Hin as [(t & Ht & Hd) ->].
  cbn [unique_customers ds_transaction_count].
  rewrite daily_customers. cbn [dd_customers].
  destruct (daily_group_value d ts (mkDailyData 0%float 0 ∅)) as [_ ->].
  cbn [dd_transaction_count]. fold (count_of (on_date d) ts).
  rewrite count_of_filter.
  rewrite (right_id_L ∅ (∪)).
  split; [done|].
  unfold customers_on.
  pose proof (size_list_to_set_le
                (map get_customer (List.filter (on_date d) ts))) as Hle.
  rewrite length_map in Hle.
  assert (Hpos : size (list_to_set (C:=gset string)
                         (map get_customer (List.filter (on_date d) ts)))
                  <> 0%nat).
  { apply size_non_empty_iff. intros Hempty.
    apply (not_elem_of_empty (C:=gset string) (get_customer t)).
    rewrite <- Hempty.
    apply elem_of_list_to_set, list_elem_of_In, in_map, filter_In.
    split; [done|]. unfold on_date. now apply String.eqb_eq. }
  unfold len. lia.
Qed.

Lemma daily_sales_trend_invariants_witness :
  exists trend,
    daily_sales_trend admitted_sales = Some trend /\
    map fst trend = ["2024-12-01"; "2024-12-02"; "2024-12-03"] /\
    sum_of (fun item => ds_transaction_count item.2) trend = 4.
Proof.
  destruct (daily_sales_trend_invariants admitted_sales)
    as (trend & Htr & _ & Hsum & _).
  - repeat constructor; vm_compute; eauto.
  - exists trend. split; [exact Htr|].
    vm_compute in Htr. injection Htr as <-.
    split; [reflexivity|exact Hsum].
Defined.

(** * [customer_analysis] *)

Lemma customer_loop_spec ts :
  sales_defined ts ->
  customer_loop ts =
  Some (fold_left
          (group_step get_customer customer_step (mkCustomerData 0%float 0 ∅))
          ts []).
Proof.
  intros Hs. unfold customer_loop.
  apply (for_each_pure _ (group_step get_customer customer_step _)).
  intros t Ht d. now rewrite (sales_defined_sale ts t Hs Ht).
Qed.

Lemma customer_group_value c ts : forall v,
  cd_total_spent (group_value get_customer customer_step c ts v) =
    fold_left (fun acc t => if by_customer c t
                            then (acc + sale_value t)%float else acc)
              ts (cd_total_spent v) /\
  cd_purchase_count (group_value get_customer customer_step c ts v) =
    fold_left (fun acc t => if by_customer c t then acc + 1 else acc)
              ts (cd_purchase_count v).
Proof.
  unfold group_value, by_customer.
  induction ts as [|t ts IH]; intros v; cbn; [done|].
  destruct (String.eqb (get_customer t) c); apply IH.
Qed.

Lemma customer_products c ts : forall v,
  cd_products (group_value get_customer customer_step c ts v)
  = products_of c ts ∪ cd_products v.
Proof.
  unfold group_value, products_of, by_customer.
  induction ts as [|t ts IH]; intros v; cbn.
  - now rewrite (left_id_L ∅ (∪)).
  - destruct (String.eqb (get_customer t) c); rewrite IH; cbn; [|done].
    rewrite !(assoc_L (∪)). f_equal. apply (comm_L (∪)).
Qed.

Lemma customer_counts_add_up ts :
  sum_of (fun kv : string * customer_data_entry => cd_purchase_count kv.2)
    (fold_left
       (group_step get_customer customer_step (mkCustomerData 0%float 0 ∅))
       ts [])
  = len ts.
Proof.
  rewrite (group_sum get_customer customer_step (mkCustomerData 0%float 0 ∅)
             (fun _ => 1) cd_purchase_count) by done.
  rewrite sum_of_ones. reflexivity.
Qed.

Lemma for_items_map {K V W} (body : K -> V -> option W) (g : K -> V -> W)
    (items : list (K * V)) :
  (forall k v, In (k, v) items -> body k v = Some (g k v)) ->
  for_items body items = Some (map (fun kv => (kv.1, g kv.1 kv.2)) items).
Proof.
  induction items as [|[k v] items IH]; intros H; cbn; [done|].
  rewrite (H k v (or_introl eq_refl)). cbn.
  rewrite IH; [done|]. intros k' v' Hin. apply H. now right.
Qed.

(** [sorted(list(s))]: strictly ascending, with the members of [s]. *)
Lemma sorted_strings_spec (s : gset string) :
  StronglySorted (fun a b => String.ltb a b = true) (sorted_strings s) /\
  forall p, In p (sorted_strings s) <-> p ∈ s.
Proof.
  unfold sorted_strings. split.
  - apply (sort_by_string_key_strict id). rewrite map_id.
    apply NoDup_elements.
  - intros p. rewrite stable_sort_In, <- list_elem_of_In.
    apply elem_of_elements.
Qed.

Lemma count_of_bounds sel ts t :
  In t ts -> sel t = true -> 1 <= count_of sel ts <= len ts.
Proof.
  intros Ht Hsel. rewrite count_of_filter.
  pose proof (len_filter_le sel ts).
  assert (Hin : In t (List.filter sel ts)) by now apply filter_In.
  destruct (List.filter sel ts); [done|]. unfold len in *. cbn [length] in *.
  lia.
Qed.

Lemma customer_group_entry c ts :
  group_value get_customer customer_step c ts (mkCustomerData 0%float 0 ∅)
  = {| cd_total_spent := running_sum (by_customer c) ts;
       cd_purchase_count := count_of (by_customer c) ts;
       cd_products := products_of c ts |}.
Proof.
  destruct (customer_group_value c ts (mkCustomerData 0%float 0 ∅))
    as [Hsum Hcount].
  pose proof (customer_products c ts (mkCustomerData 0%float 0 ∅)) as Hp.
  cbn [cd_products] in Hp. rewrite (right_id_L ∅ (∪)) in Hp.
  destruct (group_value _ _ _ _ _) as [s n p]. cbn in *. now subst.
Qed.

Lemma customer_analysis_eq ts :
  sales_defined ts -> len ts < 2 ^ 53 ->
  customer_analysis ts = Some (customers_of ts).
Proof.
  intros Hs Hlen. destruct ts as [|t0 ts0]; [reflexivity|].
  set (ts := t0 :: ts0) in *.
  unfold customer_analysis, customers_of. fold ts.
  change ((customer_data ← customer_loop ts;
           result ← for_items customer_result customer_data;
           Some (stable_sort
                   (fun y x =>
                      (total_spent (snd x) <? total_spent (snd y))%float)
                   result))
          = Some (stable_sort
                    (fun y x =>
                       (total_spent (snd x) <? total_spent (snd y))%float)
                    (map (fun kv : string * customer_data_entry =>
                            (kv.1, customer_stats_of kv.2))
                       (fold_left
                          (group_step get_customer customer_step
                             (mkCustomerData 0%float 0 ∅)) ts [])))).
  rewrite customer_loop_spec by done. cbn [mbind option_bind].
  rewrite (for_items_map customer_result (fun _ data => customer_stats_of data));
    [reflexivity|].
  intros c data Hin. apply group_items in Hin as [(t & Ht & Hc) ->].
  rewrite customer_group_entry.
  assert (Hb : 1 <= count_of (by_customer c) ts <= len ts).
  { apply (count_of_bounds _ _ t Ht). unfold by_customer.
    now apply String.eqb_eq. }
  unfold customer_result, float_div_int, customer_stats_of.
  cbn [cd_purchase_count cd_total_spent cd_products].
  destruct (float_of_int_small (count_of (by_customer c) ts) ltac:(lia))
    as [nf Hnf].
  rewrite Hnf.
  replace (0 <? count_of (by_customer c) ts) with true by lia.
  replace (count_of (by_customer c) ts =? 0) with false by lia.
  reflexivity.
Qed.

Lemma customers_of_In ts c st :
  In (c, st) (customers_of ts) <->
  (exists t, In t ts /\ get_customer t = c) /\ st = customer_entry c ts.
Proof.
  unfold customers_of. rewrite stable_sort_In, in_map_iff. split.
  - intros ([c' data] & Heq & Hin). cbn in Heq. simplify_eq.
    apply group_items in Hin as [Hex ->]. split; [done|].
    now rewrite customer_group_entry.
  - intros [Hex ->].
    exists (c, group_value get_customer customer_step c ts
                 (mkCustomerData 0%float 0 ∅)).
    split; [cbn; now rewrite customer_group_entry|].
    apply group_items. now split.
Qed.

(** X12: [customer_analysis] returns one entry per customer id of the
    input; a customer's purchase count is at least one, so the average is
    a true quotient, and the counts add up to the number of records; the
    products bought are the distinct product names of the customer's
    records in strictly ascending order. *)
Theorem customer_analysis_entries (ts : list transaction) :
  sales_defined ts -> len ts < 2 ^ 53 ->
  exists result,
    customer_analysis ts = Some result /\
    NoDup (map fst result) /\
    (forall t, In t ts -> In (get_customer t) (map fst result)) /\
    sum_of (fun item => purchase_count item.2) result = len ts /\
    forall c st,
      In (c, st) result ->
      (exists t, In t ts /\ get_customer t = c) /\
      total_spent st = round2 (running_sum (by_customer c) ts) /\
      purchase_count st = count_of (by_customer c) ts /\
      1 <= purchase_count st /\
      (exists nf,
         float_of_int (purchase_count st) = Some nf /\
         avg_order_value st
         = round2 (running_sum (by_customer c) ts / nf)) /\
      StronglySorted (fun a b => String.ltb a b = true) (products_bought st) /\
      forall p,
        In p (products_bought st) <->
        exists t, In t ts /\ get_customer t = c /\ get_product_name t = p.
Proof.
  intros Hs Hlen. exists (customers_of ts).
  split; [now apply customer_analysis_eq|].
  split.
  { unfold customers_of. rewrite stable_sort_Permutation, map_map.
    rewrite (map_ext _ fst) by (now intros [k v]).
    apply group_keys_NoDup. constructor. }
  split.
  { intros t Ht. apply in_map_iff.
    exists (get_customer t, customer_entry (get_customer t) ts).
    split; [done|]. apply customers_of_In. eauto. }
  split.
  { unfold customers_of.
    rewrite (sum_of_Permutation _ _ _ (stable_sort_Permutation _ _)).
    rewrite sum_of_map. cbn [snd purchase_count customer_stats_of].
    apply customer_counts_add_up. }
  intros c st Hin. apply customers_of_In in Hin as [(t & Ht & Hc) ->].
  assert (Hb : 1 <= count_of (by_customer c) ts <= len ts).
  { apply (count_of_bounds _ _ t Ht). unfold by_customer.
    now apply String.eqb_eq. }
  unfold customer_entry, customer_stats_of.
  cbn [total_spent purchase_count avg_order_value products_bought
         cd_total_spent cd_purchase_count cd_products].
  split; [eauto|]. split; [done|]. split; [done|]. split; [lia|].
  split.
  { destruct (float_of_int_small (count_of (by_customer c) ts) ltac:(lia))
      as [nf Hnf].
    exists nf. now rewrite Hnf. }
  destruct (sorted_strings_spec (products_of c ts)) as [Hsorted Hmem].
  split; [exact Hsorted|].
  intros p. rewrite Hmem. unfold products_of.
  rewrite elem_of_list_to_set, list_elem_of_In, in_map_iff. split.
  - intros (t' & Hp & Hin). apply filter_In in Hin as [Hin Hby].
    exists t'. unfold by_customer in Hby. apply String.eqb_eq in Hby. done.
  - intros (t' & Hin & Hc' & Hp). exists t'. split; [done|].
    apply filter_In. split; [done|]. unfold by_customer.
    now apply String.eqb_eq.
Qed.

Lemma customer_analysis_entries_witness :
  exists result,
    customer_analysis admitted_sales = Some result /\
    map (fun item : string * customer_stats =>
           (item.1, purchase_count item.2, products_bought item.2)) result
    = [("C001", 2, ["Laptop"; "Mouse"]); ("C003", 1, ["Keyboard"]);
       ("C002", 1, ["Mouse"])] /\
    sum_of (fun item => purchase_count item.2) result = len admitted_sales.
Proof.
  destruct (customer_analysis_entries admitted_sales)
    as (result & Hres & _ & _ & Hsum & _).
  - repeat constructor; vm_compute; eauto.
  - vm_compute. reflexivity.
  - exists result. split; [exact Hres|]. split; [|exact Hsum].
    vm_compute in Hres. injection Hres as <-. reflexivity.
Defined.

(** X13: when no customer's total is NaN, [customer_analysis] lists the
    customers by decreasing total spent, customers with equal totals in
    the order in which they first occur in the input. *)
Theorem customer_analysis_sorted (ts : list transaction) :
  sales_defined ts -> len ts < 2 ^ 53 ->
  exists result,
    customer_analysis ts = Some result /\
    (Forall (fun item => is_nan (total_spent item.2) = false) result ->
     StronglySorted (customer_ranked ts) result).
Proof.
  intros Hs Hlen. exists (customers_of ts).
  split; [now apply customer_analysis_eq|].
  unfold customers_of.
  set (groups := fold_left _ ts []).
  set (entries := map _ groups).
  set (prec := fun y x : string * customer_stats =>
                 (total_spent (snd x) <? total_spent (snd y))%float).
  intros Hnan.
  assert (Hb : StronglySorted
                 (fun a b : string * customer_stats =>
                    (first_index (by_customer a.1) ts
                     < first_index (by_customer b.1) ts)%nat)
                 entries).
  { apply (StronglySorted_map fst
             (fun k1 k2 => (first_index (by_customer k1) ts
                            < first_index (by_customer k2) ts)%nat)).
    unfold entries. rewrite map_map.
    rewrite (map_ext _ fst) by (now intros [k v]).
    apply (group_keys_first_seen get_customer customer_step
             (mkCustomerData 0%float 0 ∅) ts). }
  assert (HP : Forall (fun item : string * customer_stats =>
                         is_nan (total_spent item.2) = false) entries).
  { apply List.Forall_forall. intros x Hx.
    rewrite List.Forall_forall in Hnan. apply Hnan.
    now apply stable_sort_In. }
  exact (sort_descending_by_float (fun item => total_spent item.2)
           _ _ HP Hb).
Qed.

Lemma customer_analysis_sorted_witness :
  exists result,
    customer_analysis admitted_sales = Some result /\
    map fst result = ["C001"; "C003"; "C002"] /\
    StronglySorted (customer_ranked admitted_sales) result.
Proof.
  destruct (customer_analysis_sorted admitted_sales)
    as (result & Hres & Hsorted).
  - repeat constructor; vm_compute; eauto.
  - vm_compute. reflexivity.
  - exists result. split; [exact Hres|].
    vm_compute in Hres. injection Hres as <-.
    split; [reflexivity|]. apply Hsorted. repeat constructor.
Defined.

(** * The product mapping *)

Lemma create_product_mapping_fold api_products id :
  forall m : gmap Z product_info,
  fold_left
    (fun product_mapping product =>
       match p_id product with
       | Some product_id =>
           <[product_id :=
               {| title := p_title product;
                  category := p_category product;
                  brand := p_brand product;
                  rating := p_rating product |}]> product_mapping
       | None => product_mapping
       end)
    api_products m !! id
  = match last_with_id id api_products with
    | Some product => Some (info_of product)
    | None => m !! id
    end.
Proof.
  unfold last_with_id.
  induction api_products as [|p ps IH]; intros m; cbn [fold_left List.filter];
    [done|].
  rewrite IH. unfold has_id at 2.
  destruct (p_id p) as [pid|] eqn:Hp.
  - destruct (decide (pid = id)) as [->|Hne].
    + case_bool_decide; [|done].
      rewrite lookup_insert_eq.
      destruct (List.filter (has_id id) ps) as [|q qs] eqn:E; [done|].
      cbn [last]. destruct (last (q :: qs)) eqn:El; [done|].
      now apply last_None in El.
    + case_bool_decide; [congruence|].
      rewrite lookup_insert_ne by done. reflexivity.
  - case_bool_decide; [congruence|]. reflexivity.
Qed.

Lemma last_with_id_Some id api_products product :
  last_with_id id api_products = Some product ->
  In product api_products /\ p_id product = Some id.
Proof.
  unfold last_with_id. intros H.
  apply last_Some in H as (l' & Hl).
  assert (Hin : In product (List.filter (has_id id) api_products)).
  { rewrite Hl. apply in_or_app. right. now left. }
  apply filter_In in Hin as [Hin Hid]. split; [done|].
  unfold has_id in Hid. now apply bool_decide_eq_true_1 in Hid.
Qed.

Lemma last_with_id_None id api_products :
  last_with_id id api_products = None <->
  forall product, In product api_products -> p_id product <> Some id.
Proof.
  unfold last_with_id. rewrite last_None. split.
  - intros Hnil product Hin Hid.
    assert (H : In product (List.filter (has_id id) api_products)).
    { apply filter_In. split; [done|]. unfold has_id.
      now apply bool_decide_eq_true_2. }
    now rewrite Hnil in H.
  - intros H. apply filter_nothing. intros product Hin.
    unfold has_id. apply bool_decide_eq_false_2. now apply H.
Qed.

Lemma create_product_mapping_last api_products id :
  create_product_mapping api_products !! id
  = info_of <$> last_with_id id api_products.
Proof.
  unfold create_product_mapping.
  destruct api_products as [|p ps]; [done|].
  rewrite (create_product_mapping_fold (p :: ps) id ∅).
  destruct (last_with_id id (p :: ps)); [done|]. apply lookup_empty.
Qed.

Lemma create_product_mapping_is_Some api_products id :
  is_Some (create_product_mapping api_products !! id) <->
  exists product, In product api_products /\ p_id product = Some id.
Proof.
  rewrite create_product_mapping_last. split.
  - intros [info Hi].
    destruct (last_with_id id api_products) as [product|] eqn:E; [|done].
    exists product. now apply last_with_id_Some in E.
  - intros (product & Hin & Hid).
    destruct (last_with_id id api_products) as [q|] eqn:E; [cbn; eauto|].
    exfalso. exact (proj1 (last_with_id_None _ _) E product Hin Hid).
Qed.

(** X14: the mapping has an entry for an id exactly when some product of
    the catalogue carries it; the entry is made from the last such
    product, a later product overwriting an earlier one, and products
    without an id are passed over. *)
Theorem create_product_mapping_lookup (api_products : list api_product)
    (id : Z) :
  create_product_mapping api_products !! id
    = info_of <$> last_with_id id api_products /\
  (is_Some (create_product_mapping api_products !! id) <->
   exists product, In product api_products /\ p_id product = Some id) /\
  forall before product after,
    api_products = before ++ product :: after ->
    p_id product = Some id ->
    (forall later, In later after -> p_id later <> Some id) ->
    create_product_mapping api_products !! id = Some (info_of product).
Proof.
  split; [apply create_product_mapping_last|].
  split; [apply create_product_mapping_is_Some|].
  intros before product after -> Hid Hlater.
  rewrite create_product_mapping_last.
  unfold last_with_id. rewrite List.filter_app. cbn [List.filter].
  unfold has_id at 2. rewrite bool_decide_eq_true_2 by done.
  rewrite (filter_nothing (has_id id) after).
  - now rewrite last_snoc.
  - intros later Hin. unfold has_id. apply bool_decide_eq_false_2.
    now apply Hlater.
Qed.

Lemma create_product_mapping_lookup_witness :
  create_product_mapping sample_catalogue !! 101
  = Some {| title := Some "Laptop B"; category := Some "notebooks";
            brand := None; rating := Some 3.5%float |}.
Proof.
  destruct (create_product_mapping_lookup sample_catalogue 101)
    as (_ & _ & Hlast).
  apply (Hlast (take 2 sample_catalogue) _ [] eq_refl eq_refl).
  intros later [].
Defined.

(** X15: enrichment against a catalogue: a record is matched exactly when
    [int] reads the first run of digits of its product id as the id of a
    product of the catalogue; it then takes category, brand and rating
    from the last product with that id. With an empty catalogue, as after
    a failed download, nothing is matched and the three fields are
    [None]. Against the sample catalogue ["P101"] and ["P0101"] take the
    fields of its last product 101, and ["P5X"] and ["PXY"] match
    nothing. *)
Theorem enrich_sales_data_with_catalogue (ts : list transaction)
    (api_products : list api_product) :
  Forall2
    (fun t e =>
       let product_id := default EmptyString (ProductID t) in
       base e = t /\
       (API_Match e = true <->
        exists run n product,
          first_digit_run product_id run /\
          int_reads run n /\
          In product api_products /\
          p_id product = Some n) /\
       (forall run n product,
          first_digit_run product_id run ->
          int_reads run n ->
          last_with_id n api_products = Some product ->
          API_Category e = p_category product /\
          API_Brand e = p_brand product /\
          API_Rating e = p_rating product) /\
       (API_Match e = false ->
        API_Category e = None /\ API_Brand e = None /\ API_Rating e = None) /\
       (api_products = [] -> e = no_match t))
    ts (enrich_sales_data ts (create_product_mapping api_products)) /\
  map api_fields
    (enrich_sales_data (map with_product_id ["P101"; "P0101"; "P5X"; "PXY"])
       (create_product_mapping sample_catalogue))
  = [(true, Some "notebooks", None, Some 3.5%float);
     (true, Some "notebooks", None, Some 3.5%float);
     (false, None, None, None);
     (false, None, None, None)].
Proof.
  split; [|vm_compute; reflexivity].
  rewrite enrich_sales_data_map.
  induction ts as [|t ts IH]; cbn [map]; constructor; [|exact IH].
  cbv zeta. split; [apply enrich_one_base|].
  set (m := create_product_mapping api_products).
  assert (Hempty : api_products = [] -> forall id, m !! id = None).
  { intros Hnil id. subst m. now rewrite Hnil. }
  destruct (re_search_digits (default EmptyString (ProductID t)))
    as [run|] eqn:Hrun.
  - apply re_search_digits_Some in Hrun.
    assert (Huniq : forall run', first_digit_run
                      (default EmptyString (ProductID t)) run' -> run' = run).
    { intros run' H'. apply re_search_digits_Some in H', Hrun. congruence. }
    assert (Hreads : forall n, py_int run = Some n <-> int_reads run n).
    { intros n. exact (first_digit_run_reads _ run n Hrun). }
    rewrite (enrich_one_run m t run Hrun).
    destruct (py_int run) as [id|] eqn:Hint.
    + assert (Hn : forall n, int_reads run n -> n = id).
      { intros n Hn. apply (Hreads n) in Hn. congruence. }
      pose proof (create_product_mapping_last api_products id) as Hlook.
      pose proof (create_product_mapping_is_Some api_products id) as Hsome.
      fold m in Hlook, Hsome.
      destruct (m !! id) as [info|] eqn:Hm; cbn.
      * split; [|split; [|split]].
        -- split; [|done]. intros _.
           destruct (proj1 Hsome ltac:(eauto)) as (product & Hin & Hid).
           exists run, id, product. split; [done|].
           split; [now apply (Hreads id)|]. done.
        -- intros run' n product H' Hn' Hl. apply Huniq in H' as ->.
           apply Hn in Hn' as ->.
           rewrite Hl in Hlook. cbn in Hlook. now simplify_eq.
        -- done.
        -- intros Hnil. rewrite (Hempty Hnil id) in Hm. done.
      * split; [|split; [|split]]; try done.
        -- split; [done|]. intros (run' & n & product & H' & Hn' & Hin & Hid).
           apply Huniq in H' as ->. apply Hn in Hn' as ->.
           destruct (proj2 Hsome) as [x Hx]; [eauto|]. done.
        -- intros run' n product H' Hn' Hl. apply Huniq in H' as ->.
           apply Hn in Hn' as ->.
           rewrite Hl in Hlook. done.
    + assert (Hn : forall n, ~ int_reads run n).
      { intros n Hn. apply (Hreads n) in Hn. congruence. }
      cbn. split; [|split; [|split]]; try done.
      * split; [done|]. intros (run' & n & product & H' & Hn' & _).
        apply Huniq in H' as ->. now apply Hn in Hn'.
      * intros run' n product H' Hn'. apply Huniq in H' as ->.
        now apply Hn in Hn'.
  - rewrite enrich_one_no_run
      by (intros run; now apply re_search_digits_None).
    split; [|split; [|split]]; try done.
    + split; [done|]. intros (run & n & product & H' & _).
      now apply re_search_digits_None in H'.
    + intros run n product H'. now apply re_search_digits_None in H'.
Qed.

(** * The stand-alone cleaner *)

Lemma clean_step_spec st line :
  clean_step st line =
  if nonblank line
  then (st.1.1 + 1,
        st.1.2 + (1 - len (cleaned_of line)),
        st.2 ++ cleaned_of line)
  else st.
Proof.
  destruct st as [[total removed] records]. unfold clean_step, nonblank,
    cleaned_of. cbn [fst snd].
  destruct (String.eqb (strip line) EmptyString); cbn [negb]; [done|].
  destruct (split "|" (strip line))
    as [|f0 [|f1 [|f2 [|f3 [|f4 [|f5 [|f6 [|f7 [|f8 fs]]]]]]]]];
    try (rewrite app_nil_r; unfold len; cbn; rewrite !pair_equal_spec;
         repeat split; lia).
  destruct (clean_fields _ _ _ _ _ _ _ _);
    [|rewrite app_nil_r]; unfold len; cbn; rewrite !pair_equal_spec;
    repeat split; lia.
Qed.

Lemma clean_loop_fold lines : forall st,
  fold_left clean_step lines st =
  (st.1.1 + len (List.filter nonblank lines),
   st.1.2 + (len (List.filter nonblank lines)
             - len (concat (map cleaned_of (List.filter nonblank lines)))),
   st.2 ++ concat (map cleaned_of (List.filter nonblank lines))).
Proof.
  induction lines as [|l lines IH]; intros st; cbn [fold_left List.filter].
  - destruct st as [[a b] c]. unfold len. cbn. rewrite app_nil_r.
    rewrite !pair_equal_spec. repeat split; lia.
  - rewrite IH, clean_step_spec. destruct (nonblank l); [|done].
    cbn [fst snd map concat]. rewrite <- app_assoc, !len_app.
    unfold len. cbn [length]. rewrite !pair_equal_spec. repeat split; lia.
Qed.

Lemma cleaned_of_length line : (length (cleaned_of line) <= 1)%nat.
Proof.
  unfold cleaned_of.
  destruct (split "|" (strip line))
    as [|f0 [|f1 [|f2 [|f3 [|f4 [|f5 [|f6 [|f7 [|f8 fs]]]]]]]]]; cbn; try lia.
  destruct (clean_fields _ _ _ _ _ _ _ _); cbn; lia.
Qed.

Lemma clean_fields_record tid d pid pn qs ps cid r t :
  clean_fields tid d pid pn qs ps cid r = Some t -> clean_record t.
Proof.
  unfold clean_fields.
  destruct (py_int (remove_char "," qs)) as [q|];
    [|rewrite !andb_false_r; done].
  destruct (py_float (remove_char "," ps)) as [p|];
    [|rewrite !andb_false_r; done].
  destruct (startswith "T" tid) eqn:H1; [|done].
  destruct (String.eqb_spec cid EmptyString) as [|H2]; [done|].
  destruct (String.eqb_spec r EmptyString) as [|H3]; [done|].
  destruct (Z.leb_spec q 0) as [|H4]; [done|].
  destruct (p <=? 0)%float eqn:H5; [done|]. cbn. intros [= <-].
  eexists _, _, _, _, _, _, _, _. split; [reflexivity|]. done.
Qed.

(** X16: the cleaner's three figures agree: the lines it parsed are the
    non-blank lines below the header, and each of them is either removed
    or kept, so parsed = removed + kept; and every record kept has a
    transaction id in [T], a customer, a region, a quantity above zero and
    a price that is not [<= 0]. *)
Theorem clean_sales_data_counts (lines : list string) :
  let '(total_parsed, invalid_removed, valid_records) := clean_loop lines in
  total_parsed = len (List.filter nonblank (drop 1 lines)) /\
  total_parsed = invalid_removed + len valid_records /\
  0 <= invalid_removed /\
  Forall clean_record valid_records /\
  clean_sales_data lines
    = (if decide (valid_records = []) then None else Some valid_records).
Proof.
  unfold clean_sales_data, clean_loop. rewrite clean_loop_fold.
  cbn [fst snd app].
  set (kept := List.filter nonblank (drop 1 lines)).
  assert (Hle : len (concat (map cleaned_of kept)) <= len kept).
  { clearbody kept. induction kept as [|l kept IH]; [done|].
    cbn [map concat]. rewrite len_app.
    pose proof (cleaned_of_length l). unfold len in *. cbn [length]. lia. }
  split; [lia|]. split; [lia|]. split; [lia|]. split.
  - apply List.Forall_forall. intros t Ht.
    apply in_concat in Ht as (rs & Hrs & Ht).
    apply in_map_iff in Hrs as (l & <- & _). unfold cleaned_of in Ht.
    destruct (split "|" (strip l))
      as [|f0 [|f1 [|f2 [|f3 [|f4 [|f5 [|f6 [|f7 [|f8 fs]]]]]]]]]; try done.
    destruct (clean_fields _ _ _ _ _ _ _ _) eqn:E; [|done].
    destruct Ht as [<-|[]]. exact (clean_fields_record _ _ _ _ _ _ _ _ _ E).
  - destruct (concat (map cleaned_of kept)); [done|]. now case_decide.
Qed.

(** ** The cleaner and the pipeline *)

Lemma present_str_strip s :
  present_str (Some (strip s)) = true -> strip s <> EmptyString.
Proof.
  unfold present_str. rewrite strip_strip. intros H Heq.
  now rewrite Heq in H.
Qed.

(** A line that the pipeline parses into a valid record gives the cleaner
    the same record. *)
Lemma valid_line_is_cleaned line t :
  parse_line (strip line) = inl t -> is_valid t = true ->
  cleaned_of line = [t].
Proof.
  unfold parse_line, cleaned_of. intros Hp Hv.
  destruct (split "|" (strip line))
    as [|f0 [|f1 [|f2 [|f3 [|f4 [|f5 [|f6 [|f7 [|f8 fs]]]]]]]]]; try done.
  unfold clean_fields.
  destruct (py_int _) as [q|]; [|done].
  destruct (py_float _) as [p|]; [|done].
  injection Hp as <-.
  unfold is_valid, rule1, rule2, rule3, rule4 in Hv.
  cbn [TransactionID Date ProductID ProductName Quantity UnitPrice CustomerID
         Region default from_option id] in Hv.
  repeat (apply andb_true_iff in Hv as [Hv ?]).
  repeat match goal with
         | H : present_str (Some (strip _)) = true |- _ =>
             apply present_str_strip in H
         end.
  destruct (startswith "T" (strip f0)); [|done].
  destruct (String.eqb_spec (strip f6) EmptyString); [done|].
  destruct (String.eqb_spec (strip f7) EmptyString); [done|].
  destruct (q <=? 0); [done|].
  destruct (p <=? 0)%float; [done|]. reflexivity.
Qed.

(** X17: the cleaner is the more lenient of the two: given the same
    lines of a file, every record that the pipeline reads, parses and
    finds valid is also kept by the cleaner, as the same dictionary and
    in the same order. *)
Theorem clean_sales_data_keeps_valid (all_lines : list string) :
  sublist (List.filter is_valid (parse_transactions (keep_lines all_lines [])))
          (clean_loop all_lines).2.
Proof.
  unfold clean_loop. rewrite clean_loop_fold, keep_lines_spec.
  cbn [fst snd app]. rewrite parse_transactions_concat.
  induction (drop 1 all_lines) as [|l ls IH]; [constructor|].
  change (map strip (l :: ls)) with (strip l :: map strip ls).
  change (List.filter nonblank (l :: ls))
    with (if negb (String.eqb (strip l) EmptyString)
          then l :: List.filter nonblank ls else List.filter nonblank ls).
  change (List.filter (fun l0 => negb (String.eqb l0 EmptyString))
            (strip l :: map strip ls))
    with (if negb (String.eqb (strip l) EmptyString)
          then strip l :: List.filter
                            (fun l0 => negb (String.eqb l0 EmptyString))
                            (map strip ls)
          else List.filter (fun l0 => negb (String.eqb l0 EmptyString))
                 (map strip ls)).
  destruct (String.eqb (strip l) EmptyString) eqn:E; cbn [negb]; [exact IH|].
  cbn [map concat]. rewrite List.filter_app.
  apply sublist_app; [|exact IH].
  unfold parsed_of.
  destruct (parse_line (strip l)) as [t|] eqn:Hp; [|apply sublist_nil_l].
  cbn [List.filter]. destruct (is_valid t) eqn:Hv; [|apply sublist_nil_l].
  now rewrite (valid_line_is_cleaned l t Hp Hv).
Qed.

(** The inclusion is strict: the cleaner does not look at the letters of
    the product id and of the customer id. *)
Lemma cleaner_keeps_more :
  len (List.filter is_valid (parse_transactions (keep_lines sample_file [])))
  = 1 /\
  len (clean_loop sample_file).2 = 2 /\
  clean_loop sample_file
  = (4, 2, [tx "T001" "2024-12-01" "P101" "Laptop" 2 45000 "C001" "North";
            tx "T002" "2024-12-02" "X102" "Mouse  wireless" 5 500 "K002"
               "South"]).
Proof. repeat split; vm_compute; reflexivity. Qed.

(** * The prompts of [main.py] *)

Lemma get_user_input_consumes valid_options stdin response rest :
  get_user_input valid_options stdin = Some (response, rest) ->
  exists consumed, stdin = consumed ++ rest /\ consumed <> [].
Proof.
  revert response rest.
  induction stdin as [|typed stdin IH]; intros response rest; cbn; [done|].
  assert (Hhere : Some (str_lower (strip typed), stdin) = Some (response, rest)
                  -> exists consumed,
                       typed :: stdin = consumed ++ rest /\ consumed <> []).
  { intros [= <- <-]. now exists [typed]. }
  destruct valid_options as [options|]; [|exact Hhere].
  destruct (str_in _ options); [exact Hhere|].
  intros H. destruct (IH _ _ H) as (consumed & -> & _).
  now exists (typed :: consumed).
Qed.

(** X18: [get_user_input] with a list of options returns the first typed
    line whose stripped, lower-cased text is an option, having asked again
    after every line before it. *)
Theorem get_user_input_first_valid (options : list string)
    (stdin : list string) (response : string) (rest : list string) :
  get_user_input (Some options) stdin = Some (response, rest) ->
  exists rejected typed,
    stdin = rejected ++ typed :: rest /\
    response = answer typed /\
    In response options /\
    Forall (fun line => ~ In (answer line) options) rejected.
Proof.
  revert response rest.
  induction stdin as [|typed stdin IH]; intros response rest; cbn; [done|].
  fold (answer typed).
  destruct (str_in (answer typed) options) eqn:E.
  - intros [= <- <-]. exists [], typed. repeat split; [|constructor].
    unfold str_in in E. apply existsb_exists in E as (o & Ho & Heq).
    apply String.eqb_eq in Heq. now subst.
  - intros H. destruct (IH _ _ H) as (rejected & typed' & -> & -> & Hin & Hrej).
    exists (typed :: rejected), typed'. repeat split; [done|].
    constructor; [|done]. intros Hin'.
    apply not_true_iff_false in E. apply E. unfold str_in.
    apply existsb_exists. exists (answer typed). split; [done|].
    apply String.eqb_refl.
Qed.

Lemma get_user_input_first_valid_witness :
  exists rejected typed,
    typed_filters = rejected ++ typed :: drop 2 typed_filters /\
    "y" = answer typed /\
    In "y" ["y"; "n"] /\
    Forall (fun line => ~ In (answer line) ["y"; "n"]) rejected.
Proof.
  apply (get_user_input_first_valid ["y"; "n"] typed_filters "y"
           (drop 2 typed_filters)).
  vm_compute. reflexivity.
Defined.

Lemma available_regions_In h transactions r :
  In r (available_regions h transactions) ->
  r <> EmptyString /\
  exists t, In t transactions /\ Region (h t) = Some r.
Proof.
  unfold available_regions. intros Hin.
  apply (proj2 (sorted_strings_spec _)) in Hin.
  apply elem_of_list_to_set, list_elem_of_omap in Hin as (t & Ht & Hr).
  apply list_elem_of_In in Ht.
  destruct (Region (h t)) as [r'|] eqn:E; [|done].
  destruct (String.eqb_spec r' EmptyString) as [|Hne]; [done|].
  injection Hr as <-. split; [done|]. eauto.
Qed.

Lemma apply_filters_out h transactions stdin out region mn mx rest :
  apply_filters h transactions stdin = Some (out, region, mn, mx, rest) ->
  out = transactions.
Proof.
  unfold apply_filters.
  destruct (get_user_input (Some ["y"; "n"]) stdin) as [[want rest0]|];
    [|done].
  cbn [mbind option_bind].
  destruct (String.eqb want "n"); [now intros [= <- _ _ _ _]|].
  destruct rest0 as [|typed_region [|typed_min [|typed_max rest1]]]; try done.
  now intros [= <- _ _ _ _].
Qed.

(** X19: [apply_filters] filters nothing itself: it hands back the list
    it was given. The region it returns is [None], the empty string, or a
    region that some record of the list carries; a region typed that no
    record carries is dropped. Each bound it returns is the float that
    [float] reads from a typed line, a bound that does not parse being
    dropped. *)
Theorem apply_filters_returns (h : heap) (transactions : list loc)
    (stdin : list string) (out : list loc) (region : option string)
    (min_amount max_amount : option float) (rest : list string) :
  apply_filters h transactions stdin
    = Some (out, region, min_amount, max_amount, rest) ->
  out = transactions /\
  (forall r, region = Some r ->
     r = EmptyString \/
     exists t, In t transactions /\ Region (h t) = Some r) /\
  (forall m, min_amount = Some m ->
     exists typed, In typed stdin /\ py_float (strip typed) = Some m) /\
  (forall m, max_amount = Some m ->
     exists typed, In typed stdin /\ py_float (strip typed) = Some m) /\
  exists consumed, stdin = consumed ++ rest /\ consumed <> [].
Proof.
  unfold apply_filters.
  destruct (get_user_input (Some ["y"; "n"]) stdin) as [[want rest0]|] eqn:Hg;
    [|done].
  apply get_user_input_consumes in Hg as (asked & -> & Hasked).
  cbn [mbind option_bind].
  destruct (String.eqb want "n").
  { intros [= <- <- <- <- <-]. repeat split; try done.
    now exists asked. }
  destruct rest0 as [|typed_region [|typed_min [|typed_max rest1]]]; try done.
  intros [= <- <- <- <- <-].
  split; [done|]. split; [|split; [|split]].
  - intros r Hr.
    destruct (String.eqb_spec (strip typed_region) EmptyString) as [He|Hne];
      cbn [negb andb] in Hr.
    + left. congruence.
    + destruct (str_in (strip typed_region)
                  (available_regions h transactions)) eqn:Hin;
        cbn [negb] in Hr; [|done].
      injection Hr as <-. right.
      unfold str_in in Hin. apply existsb_exists in Hin as (r & Hr & Heq).
      apply String.eqb_eq in Heq. subst r.
      now apply available_regions_In in Hr as [_ Hr].
  - intros m Hm. unfold read_bound in Hm.
    destruct (String.eqb (strip typed_min) EmptyString); [done|].
    exists typed_min. split; [|done].
    apply in_or_app. right. right. now left.
  - intros m Hm. unfold read_bound in Hm.
    destruct (String.eqb (strip typed_max) EmptyString); [done|].
    exists typed_max. split; [|done].
    apply in_or_app. right. right. right. now left.
  - exists (asked ++ [typed_region; typed_min; typed_max]).
    split; [now rewrite <- app_assoc|]. now destruct asked.
Qed.

Lemma apply_filters_returns_witness :
  exists out region min_amount max_amount rest,
    apply_filters (heap_of sample_sales) (refs_of sample_sales) typed_filters
    = Some (out, region, min_amount, max_amount, rest) /\
    out = refs_of sample_sales /\
    region = Some "North" /\ min_amount = None /\
    max_amount = Some 100000%float /\ rest = ["left over"].
Proof.
  eexists _, _, _, _, _. split; [reflexivity|].
  destruct (apply_filters_returns
              (heap_of sample_sales) (refs_of sample_sales) typed_filters
              _ _ _ _ _ eq_refl) as (Hout & _).
  split; [exact Hout|]. repeat split.
Defined.

(** X20: asked through the prompts, the filter step removes nothing when
    every prompt is skipped: the answer "n", or "y" followed by three
    empty lines (the region is then the empty string, which the filter
    takes for no region). The valid records all come back. *)
Theorem skipped_prompts_filter_nothing (h : heap) (transactions : list loc)
    (stdin : list string) (out : list loc) (region : option string)
    (rest : list string) (h' : heap) (kept : list loc) (inv : Z)
    (s : FilterSummary) :
  apply_filters h transactions stdin = Some (out, region, None, None, rest) ->
  (forall r, region = Some r -> r = EmptyString) ->
  validate_and_filter h out region None None = Some (h', (kept, inv, s)) ->
  kept = List.filter (valid_in h) transactions /\
  filtered_by_region s = 0 /\ filtered_by_amount s = 0 /\
  final_count s = total_input s - invalid s.
Proof.
  intros Ha Hregion Hv.
  apply apply_filters_out in Ha as ->.
  apply validate_and_filter_inv in Hv as (_ & -> & -> & ->).
  cbn [filtered_by_region filtered_by_amount final_count total_input invalid].
  rewrite filter_amount_spec, filter_region_spec. cbn [fst snd].
  rewrite filtered_spec.
  assert (Hr : forall l : list loc,
            List.filter (fun x => region_ok region (h' x)) l = l).
  { intros l. apply filter_all. intros x _. unfold region_ok.
    destruct region as [r|]; [|done]. now rewrite (Hregion r eq_refl). }
  rewrite !Hr. cbn [min_ok max_ok].
  rewrite !(filter_all (fun _ => true)) by done.
  pose proof (len_filter_split (valid_in h) transactions).
  repeat split; lia.
Qed.

Lemma skipped_prompts_filter_nothing_witness :
  exists h' kept inv s,
    validate_and_filter (heap_of sample_sales) (refs_of sample_sales)
      (Some EmptyString) None None = Some (h', (kept, inv, s)) /\
    kept = [0%nat; 1%nat; 2%nat; 4%nat] /\
    filtered_by_region s = 0 /\ filtered_by_amount s = 0.
Proof.
  eexists _, _, _, _. split; [reflexivity|].
  destruct (skipped_prompts_filter_nothing
              (heap_of sample_sales) (refs_of sample_sales)
              ["Y"; ""; " "; ""] _ (Some EmptyString) _ _ _ _ _ eq_refl
              ltac:(intros r [= <-]; reflexivity) eq_refl)
    as (Hk & Hr & Ha & _).
  split; [exact Hk|]. split; [exact Hr|exact Ha].
Defined.
